(** * A shallow embedding of the 5G network security simulator

    The development follows the two Python modules of the repository:
    [5g_network_simulator.py] (node registry, traffic generator, attack
    injectors, security report) and [attack_detector.py] (flood, jamming,
    interception and spoofing detection).

    Modelling conventions.
    - Python [int] is [Z]. A finite Python [float] is the rational [Q] it
      denotes. In the security report, the spoofing detector and the jamming
      detector every float operation returns the exact result rounded to
      binary64 ([round64]: 53 bits, ties to even) and a decimal literal
      denotes the float nearest to it ([float_literal]); the exponent range
      is left out there, counts, time spans and signal strengths being far
      from its ends. The jamming injector takes coordinates from its caller
      and is modelled with the whole of [float64]: overflow, infinities and
      NaN, and the integers of Python next to its floats. The flood detector
      and [detect_anomalies] keep [np.mean] as the exact mean [np_mean] and
      their decimal thresholds as the decimals.
    - The float [pow] of the C library, the means and variances of pandas and
      the scikit-learn model are parameters: their results are whatever the
      library returns.
    - A [dict] whose iteration order matters is an association list in
      insertion order with distinct keys.
    - A raised exception is the [Raise] branch of [result].
    - [random], [datetime.now()], [time.time()] and the string formatting of
      floats and datetimes are services of the Python runtime: they are the
      operations of the class [Runtime], whose laws are the documented ranges
      of [random.randint], [random.uniform] and [random.choice]. *)

From Stdlib Require Import String Ascii ZArith QArith Qminmax Qabs Qround Qpower List Bool
  Lia Lqa.
From Stdlib Require Import DecimalString.
From Stdlib Require Import Reals Qreals Lra.
From Stdlib Require Import Permutation Sorted.
Import ListNotations.

Local Open Scope Z_scope.

(* ================================================================= *)
(** ** Python values, exceptions and dictionaries *)

Inductive exn : Set :=
| ZeroDivisionError
| ValueError
| IndexError
| OverflowError
| TypeError.

Inductive result (A : Type) : Type :=
| Ok (a : A)
| Raise (e : exn).

Arguments Ok {A} a.
Arguments Raise {A} e.

Definition rbind {A B : Type} (r : result A) (k : A -> result B) : result B :=
  match r with
  | Ok a => k a
  | Raise e => Raise e
  end.

Fixpoint rmap {A B : Type} (f : A -> result B) (l : list A) : result (list B) :=
  match l with
  | [] => Ok []
  | x :: l' =>
      rbind (f x) (fun y => rbind (rmap f l') (fun ys => Ok (y :: ys)))
  end.

(** [str(n)] for a Python integer. *)
Definition str_of_int (n : Z) : string := NilZero.string_of_int (Z.to_int n).

(** [min(a, b)] on two floats: Python keeps the first argument unless the
    second is strictly smaller. *)
Definition py_min (a b : Q) : Q :=
  match (b ?= a)%Q with
  | Lt => b
  | _ => a
  end.

Definition Qltb (a b : Q) : bool :=
  match (a ?= b)%Q with
  | Lt => true
  | _ => false
  end.

(** [sum(l)] over integers and over floats, [len(l)] as an integer. *)
Definition py_sum (l : list Z) : Z := fold_left Z.add l 0.
Definition Qsum (l : list Q) : Q := fold_left Qplus l (0%Q).
Definition len {A : Type} (l : list A) : Z := Z.of_nat (length l).

(** [range(n)]: empty when [n <= 0]. *)
Definition range (n : Z) : list Z := map Z.of_nat (seq 0 (Z.to_nat n)).

(** [l[-n:]] for a positive [n]: the last [n] elements, all of [l] when it has
    fewer. *)
Definition last_slice {A : Type} (n : nat) (l : list A) : list A :=
  skipn (length l - n) l.

Section Dict.
Context {K V : Type} (eqb : K -> K -> bool).

(** [d.get(k)] *)
Fixpoint dict_get (d : list (K * V)) (k : K) : option V :=
  match d with
  | [] => None
  | (k', v) :: d' => if eqb k k' then Some v else dict_get d' k
  end.

(** [d[k] = v]: an existing key keeps its position, a new key goes last. *)
Fixpoint dict_set (d : list (K * V)) (k : K) (v : V) : list (K * V) :=
  match d with
  | [] => [(k, v)]
  | (k', v') :: d' =>
      if eqb k k' then (k', v) :: d' else (k', v') :: dict_set d' k v
  end.

(** [if k not in d: d[k] = init] followed by an in-place update of [d[k]]. *)
Definition dict_upsert (d : list (K * V)) (k : K) (init : V) (f : V -> V)
  : list (K * V) :=
  match dict_get d k with
  | Some v => dict_set d k (f v)
  | None => dict_set d k (f init)
  end.
End Dict.

(** The value of an optional entry, or a default. *)
Definition get_default {A : Type} (o : option A) (default : A) : A :=
  match o with
  | Some a => a
  | None => default
  end.

(** [len(set(l))] for strings. *)
Definition count_distinct (l : list string) : nat :=
  length (nodup string_dec l).

(* ================================================================= *)
(** ** Floating-point numbers

    A finite [float] is kept as the rational number it denotes. The
    operations of IEEE 754 binary64 return the exact result rounded to the
    nearest number with a significand of 53 bits, ties going to the even
    significand. *)

(** The integer nearest to [x], the even one of the two when [x] is half way. *)
Definition round_half_even (x : Q) : Z :=
  let f := Qfloor x in
  match (x - inject_Z f ?= 1 # 2)%Q with
  | Lt => f
  | Gt => f + 1
  | Eq => if Z.even f then f else f + 1
  end.

(** The exponent [e] of a positive rational: [2^e <= a < 2^(e+1)]. *)
Definition ilog2 (a : Q) : Z :=
  let c := Z.log2 (Qnum a) - Z.log2 (Zpos (Qden a)) in
  if Qle_bool (2 ^ c) a then c else c - 1.

(** The multiple of [2^k] nearest to [a]. *)
Definition round_to (k : Z) (a : Q) : Q :=
  (inject_Z (round_half_even (a / 2 ^ k)) * 2 ^ k)%Q.

Definition round_pos (a : Q) : Q := round_to (ilog2 a - 52) a.

(** Rounding to 53 significant bits. *)
Definition round64 (q : Q) : Q :=
  match (q ?= 0)%Q with
  | Eq => 0%Q
  | Gt => round_pos q
  | Lt => (- round_pos (- q))%Q
  end.

(** The float a decimal literal such as [0.3] denotes. *)
Definition float_literal (q : Q) : Q := round64 q.

(** [float(n)] and the implicit conversion of an integer operand; [a - b],
    [a * b] on floats. In the detectors and in the report the operands are
    counts and time spans, whose results stay inside the exponent range of
    binary64: there the range is not modelled. *)
Definition float_of_int (n : Z) : Q := round64 (inject_Z n).
Definition float_sub (a b : Q) : Q := round64 (a - b).
Definition float_mul (a b : Q) : Q := round64 (a * b).

(** A binary64 value with its exponent range: finite, infinite or not a
    number. *)
Inductive float64 : Set :=
| Finite (x : Q)
| Infinity (negative : bool)
| NaN.

(** The largest finite binary64 number, [(2^53 - 1) * 2^971]. *)
Definition max_float : Q := (inject_Z (2 ^ 53 - 1) * 2 ^ 971)%Q.

(** The binary64 value of an exact result: rounded to 53 significant bits,
    to a multiple of [2^-1074] below [2^-1022] (gradual underflow), infinite
    when the rounded magnitude exceeds [max_float]. *)
Definition binary64 (q : Q) : float64 :=
  match (q ?= 0)%Q with
  | Eq => Finite 0
  | Gt => let r := round_to (Z.max (ilog2 q - 52) (-1074)) q in
          if Qltb max_float r then Infinity false else Finite r
  | Lt => let r := round_to (Z.max (ilog2 (- q) - 52) (-1074)) (- q) in
          if Qltb max_float r then Infinity true else Finite (- r)
  end.

(** The binary64 number nearest to the square root of a finite [x >= 0]. *)
Definition sqrt64 (x : Q) : Q :=
  match (x ?= 0)%Q with
  | Gt =>
      let k := ilog2 x / 2 - 52 in
      let s := (x / 2 ^ (2 * k))%Q in
      let f := Z.sqrt (Qfloor s) in
      let m := match (s ?= (inject_Z f + (1 # 2)) * (inject_Z f + (1 # 2)))%Q with
               | Lt => f
               | Gt => f + 1
               | Eq => if Z.even f then f else f + 1
               end in
      (inject_Z m * 2 ^ k)%Q
  | _ => 0%Q
  end.

Definition float64_add (a b : float64) : float64 :=
  match a, b with
  | NaN, _ | _, NaN => NaN
  | Infinity s, Infinity s' => if Bool.eqb s s' then Infinity s else NaN
  | Infinity s, Finite _ | Finite _, Infinity s => Infinity s
  | Finite x, Finite y => binary64 (x + y)
  end.

Definition float64_sqrt (a : float64) : float64 :=
  match a with
  | Finite x => if Qltb x 0 then NaN else Finite (sqrt64 x)
  | Infinity false => Infinity false
  | Infinity true => NaN
  | NaN => NaN
  end.

(** [a <= b] for a finite [b]. *)
Definition float64_le (a : float64) (b : Q) : bool :=
  match a with
  | Finite x => Qle_bool x b
  | Infinity negative => negative
  | NaN => false
  end.

(** A Python number, as the node locations and target areas are: an [int]
    of any size or a finite [float]. *)
Inductive number : Set :=
| Int (z : Z)
| Float (x : Q).

(** The value of an arithmetic expression on numbers. *)
Inductive value : Set :=
| VInt (z : Z)
| VFloat (x : float64).

(** The conversion of an integer operand to [float]: [OverflowError] when
    the integer is too large. *)
Definition to_float (z : Z) : result Q :=
  match binary64 (inject_Z z) with
  | Finite x => Ok x
  | _ => Raise OverflowError
  end.

Definition as_float (n : number) : result Q :=
  match n with
  | Int z => to_float z
  | Float x => Ok x
  end.

(** [a - b]: exact on two integers, in binary64 otherwise. *)
Definition py_sub (a b : number) : result value :=
  match a, b with
  | Int x, Int y => Ok (VInt (x - y))
  | _, _ =>
      rbind (as_float a) (fun x =>
      rbind (as_float b) (fun y =>
      Ok (VFloat (binary64 (x - y)))))
  end.

(** [u + v] *)
Definition py_add (u v : value) : result value :=
  match u, v with
  | VInt x, VInt y => Ok (VInt (x + y))
  | VInt x, VFloat y => rbind (to_float x) (fun x' => Ok (VFloat (float64_add (Finite x') y)))
  | VFloat x, VInt y => rbind (to_float y) (fun y' => Ok (VFloat (float64_add x (Finite y'))))
  | VFloat x, VFloat y => Ok (VFloat (float64_add x y))
  end.

(** [np.sqrt(v)]. NumPy takes a Python integer as an [int64] (or [uint64])
    and converts it to binary64; an integer that fits neither has no [sqrt]
    loop and raises [TypeError]. *)
Definition np_sqrt (v : value) : result float64 :=
  match v with
  | VInt z =>
      if (- 2 ^ 63 <=? z) && (z <? 2 ^ 64)
      then Ok (float64_sqrt (binary64 (inject_Z z)))
      else Raise TypeError
  | VFloat x => Ok (float64_sqrt x)
  end.

(* ================================================================= *)
(** ** [datetime] *)

(** A naive [datetime]. The calendar date is kept as its proleptic Gregorian
    ordinal ([datetime.toordinal()]), which is all that [replace] on the time
    fields, comparison and subtraction depend on. *)
Record datetime : Set := mk_datetime {
  dt_ordinal : Z;
  dt_hour : Z;
  dt_minute : Z;
  dt_second : Z;
  dt_microsecond : Z
}.

Definition in_range (lo x hi : Z) : bool := (lo <=? x) && (x <? hi).

(** The field ranges every [datetime] object satisfies. *)
Definition valid_datetime (t : datetime) : bool :=
  in_range 0 (dt_hour t) 24 && in_range 0 (dt_minute t) 60 &&
  in_range 0 (dt_second t) 60 && in_range 0 (dt_microsecond t) 1000000.

Definition datetime_eqb (a b : datetime) : bool :=
  (dt_ordinal a =? dt_ordinal b) && (dt_hour a =? dt_hour b) &&
  (dt_minute a =? dt_minute b) && (dt_second a =? dt_second b) &&
  (dt_microsecond a =? dt_microsecond b).

(** The datetime constructor's check, which [replace] goes through:
    [ValueError] on a field out of range. *)
Definition checked (t : datetime) : result datetime :=
  if valid_datetime t then Ok t else Raise ValueError.

(** [t.replace(second=s, microsecond=us)] *)
Definition replace_second_microsecond (t : datetime) (s us : Z) : result datetime :=
  checked (mk_datetime (dt_ordinal t) (dt_hour t) (dt_minute t) s us).

(** [t.replace(minute=m)] *)
Definition replace_minute (t : datetime) (m : Z) : result datetime :=
  checked (mk_datetime (dt_ordinal t) (dt_hour t) m (dt_second t) (dt_microsecond t)).

(** Microseconds since the start of ordinal day 0. *)
Definition to_microseconds (t : datetime) : Z :=
  ((((dt_ordinal t * 24 + dt_hour t) * 60 + dt_minute t) * 60 + dt_second t)
     * 1000000) + dt_microsecond t.

(** [a - b], a [timedelta], kept as its total number of microseconds. *)
Definition timedelta : Set := Z.
Definition datetime_sub (a b : datetime) : timedelta :=
  to_microseconds a - to_microseconds b.

(** [td.total_seconds()]: the microseconds divided by [10**6], two integers. *)
Definition total_seconds (td : timedelta) : Q := round64 (inject_Z td / 1000000).

(** [//] on integers: [ZeroDivisionError] on a zero divisor. *)
Definition floordiv (a b : Z) : result Z :=
  if b =? 0 then Raise ZeroDivisionError else Ok (a / b).

(** [/] on floats: [ZeroDivisionError] on a zero divisor. *)
Definition truediv (a b : Q) : result Q :=
  if Qeq_bool b 0 then Raise ZeroDivisionError else Ok (round64 (a / b)).

(** [/] on two integers: the quotient, rounded once; [ZeroDivisionError] on a
    zero divisor. *)
Definition int_truediv (a b : Z) : result Q :=
  if b =? 0 then Raise ZeroDivisionError else Ok (round64 (inject_Z a / inject_Z b)).

(* ================================================================= *)
(** ** Data model *)

Inductive ThreatType : Set :=
| DDOS | MITM | SPOOFING | JAMMING | DATA_BREACH | IMSI_CATCHING | ROGUE_BASE_STATION.

(** [ThreatType.value] *)
Definition threat_value (t : ThreatType) : string :=
  match t with
  | DDOS => "DDoS Attack"
  | MITM => "Man-in-the-Middle"
  | SPOOFING => "Spoofing Attack"
  | JAMMING => "Jamming Attack"
  | DATA_BREACH => "Data Privacy Breach"
  | IMSI_CATCHING => "IMSI Catching"
  | ROGUE_BASE_STATION => "Rogue Base Station"
  end.

Inductive Severity : Set := LOW | MEDIUM | HIGH | CRITICAL.

(** [Severity.value] *)
Definition severity_value (s : Severity) : Z :=
  match s with
  | LOW => 1
  | MEDIUM => 2
  | HIGH => 3
  | CRITICAL => 4
  end.

Record NetworkNode : Set := mk_node {
  node_id : string;
  node_type : string;
  ip_address : string;
  location : number * number;
  status : string;
  security_level : Z
}.

(** The dataclass constructor with its two defaults. *)
Definition new_node (id ty ip : string) (loc : number * number) : NetworkNode :=
  mk_node id ty ip loc "active" 5.

Record SecurityEvent : Set := mk_event {
  event_id : string;
  event_timestamp : datetime;
  threat_type : ThreatType;
  severity : Severity;
  source_node : string;
  target_node : string;
  description : string;
  mitigation_status : string
}.

Definition new_event (id : string) (ts : datetime) (tt : ThreatType) (sev : Severity)
    (src tgt descr : string) : SecurityEvent :=
  mk_event id ts tt sev src tgt descr "pending".

(** A traffic record is a Python dict. The keys every detector reads
    unconditionally ([timestamp], [source], [packet_count], [data_volume]) and
    [destination], which every producer writes, are fields; the keys that the
    code tests for presence or reads with [.get] are optional. *)
Record TrafficRecord : Set := mk_traffic {
  timestamp : datetime;
  source : string;
  destination : string;
  packet_count : Z;
  data_volume : Z;
  latency : option Q;
  signal_strength : option Q;
  is_attack : option bool;
  attack_type : option string;
  anomaly_score : option Q
}.

(** The simulator object: [self.nodes], [self.security_events],
    [self.traffic_data]. *)
Record Simulator : Set := mk_sim {
  nodes : list (string * NetworkNode);
  security_events : list SecurityEvent;
  traffic_data : list TrafficRecord
}.

(** [FiveGNetworkSimulator()] *)
Definition new_simulator : Simulator := mk_sim [] [] [].

(* ================================================================= *)
(** ** The Python runtime *)

Class Runtime : Type := {
  world : Type;
  (** [random.randint(a, b)] *)
  random_randint : Z -> Z -> world -> Z * world;
  (** [random.uniform(a, b)] *)
  random_uniform : Q -> Q -> world -> Q * world;
  (** the index [random.choice] draws in a sequence of the given length *)
  random_index : nat -> world -> nat * world;
  (** [datetime.now()] *)
  datetime_now : world -> datetime * world;
  (** [int(time.time())] *)
  time_time : world -> Z * world;
  (** [str] of a coordinate pair and [datetime.isoformat()] *)
  str_of_area : number * number -> string;
  isoformat : datetime -> string;
  (** [pow(x, 2.0)] of the C library, for a finite [x > 0]: [None] when it
      reports a result out of range. The library does not promise the
      nearest binary64 number. *)
  libm_pow2 : Q -> option Q;
  randint_range : forall a b w, a <= b -> a <= fst (random_randint a b w) <= b;
  uniform_range : forall a b w,
      (a <= b)%Q -> (a <= fst (random_uniform a b w) <= b)%Q;
  index_range : forall n w, (0 < n)%nat -> (fst (random_index n w) < n)%nat
}.

(* ================================================================= *)
(** ** [5g_network_simulator.py] *)

Section SimulatorModel.
Context {RT : Runtime}.

(** The methods of [FiveGNetworkSimulator] run in a state and exception
    monad over the runtime's world and the object's fields. *)
Definition M (A : Type) : Type := world * Simulator -> result (A * (world * Simulator)).

Definition ret {A : Type} (a : A) : M A := fun s => Ok (a, s).

Definition bind {A B : Type} (m : M A) (k : A -> M B) : M B :=
  fun s =>
    match m s with
    | Ok (a, s') => k a s'
    | Raise e => Raise e
    end.

Notation "x <- m ;; k" := (bind m (fun x => k))
  (at level 61, m at next level, right associativity).
Notation "m ;;; k" := (bind m (fun _ => k))
  (at level 61, right associativity).

Definition raise {A : Type} (e : exn) : M A := fun _ => Raise e.

Definition get_self : M Simulator := fun s => Ok (snd s, s).

Definition set_self (f : Simulator -> Simulator) : M unit :=
  fun s => Ok (tt, (fst s, f (snd s))).

Definition ask {A : Type} (op : world -> A * world) : M A :=
  fun s => let (a, w) := op (fst s) in Ok (a, (w, snd s)).

(** [for x in l: body(x)] *)
Fixpoint for_each {A : Type} (l : list A) (body : A -> M unit) : M unit :=
  match l with
  | [] => ret tt
  | x :: l' => body x ;;; for_each l' body
  end.

(** A [for] loop that carries local variables [acc]. *)
Fixpoint for_fold {A B : Type} (l : list A) (acc : B) (body : A -> B -> M B) : M B :=
  match l with
  | [] => ret acc
  | x :: l' => acc' <- body x acc ;; for_fold l' acc' body
  end.

(** [random.choice(seq)]: [IndexError] on an empty sequence. *)
Definition random_choice (seq : list string) : M string :=
  match seq with
  | [] => raise IndexError
  | x :: _ => i <- ask (random_index (length seq)) ;; ret (nth i seq x)
  end.

(** [self.traffic_data.append(t)], [self.security_events.append(e)] *)
Definition append_traffic (t : TrafficRecord) : M unit :=
  set_self (fun s => mk_sim (nodes s) (security_events s) (traffic_data s ++ [t])).

Definition append_event (e : SecurityEvent) : M unit :=
  set_self (fun s => mk_sim (nodes s) (security_events s ++ [e]) (traffic_data s)).

Definition core_nodes : list (string * string * string * (number * number)) :=
  [ ("AMF-001", "AMF", "10.0.1.1", (Int 0, Int 0));
    ("SMF-001", "SMF", "10.0.1.2", (Int 0, Int 1));
    ("UPF-001", "UPF", "10.0.1.3", (Int 0, Int 2));
    ("AUSF-001", "AUSF", "10.0.1.4", (Int 0, Int 3));
    ("UDM-001", "UDM", "10.0.1.5", (Int 0, Int 4)) ]%string.

Definition ran_nodes : list (string * string * string * (number * number)) :=
  [ ("gNB-001", "gNodeB", "10.0.2.1", (Int 1, Int 0));
    ("gNB-002", "gNodeB", "10.0.2.2", (Int 1, Int 1));
    ("gNB-003", "gNodeB", "10.0.2.3", (Int 1, Int 2));
    ("gNB-004", "gNodeB", "10.0.2.4", (Int 1, Int 3)) ]%string.

Definition ue_nodes : list (string * string * string * (number * number)) :=
  [ ("UE-001", "User Equipment", "192.168.1.1", (Int 2, Int 0));
    ("UE-002", "User Equipment", "192.168.1.2", (Int 2, Int 1));
    ("UE-003", "User Equipment", "192.168.1.3", (Int 2, Int 2));
    ("UE-004", "User Equipment", "192.168.1.4", (Int 2, Int 3)) ]%string.

Definition initialize_network : M unit :=
  let all_nodes := core_nodes ++ ran_nodes ++ ue_nodes in
  for_each all_nodes (fun '(id, ty, ip, loc) =>
    set_self (fun s =>
      mk_sim (dict_set String.eqb (nodes s) id (new_node id ty ip loc))
             (security_events s) (traffic_data s))).

(** The body of the inner loop of [generate_normal_traffic], for one item
    of [self.nodes.items()]. *)
Definition normal_traffic_of (item : string * NetworkNode) : M unit :=
  let (id, node) := item in
  if String.eqb (node_type node) "User Equipment" then
    ts <- ask datetime_now ;;
    self <- get_self ;;
    dst <- random_choice (map fst (nodes self)) ;;
    pc <- ask (random_randint 10 100) ;;
    dv <- ask (random_randint 100 1000) ;;
    lat <- ask (random_uniform 1 50) ;;
    sig <- ask (random_uniform (7 # 10) 1) ;;
    append_traffic
      (mk_traffic ts id dst pc dv (Some lat) (Some sig) (Some false) None None)
  else ret tt.

Definition generate_normal_traffic (duration : Z) : M unit :=
  for_each (range duration) (fun _second =>
    self <- get_self ;;
    for_each (nodes self) normal_traffic_of).

(** The body of the loop of [simulate_ddos_attack], for one second; it
    returns the updated [attack_packets]. *)
Definition ddos_second (target : string) (_second : Z) (attack_packets : Z) : M Z :=
  pc <- ask (random_randint 1000 5000) ;;
  ts <- ask datetime_now ;;
  attacker <- ask (random_randint 1000 9999) ;;
  factor <- ask (random_randint 50 200) ;;
  lat <- ask (random_uniform 100 500) ;;
  sig <- ask (random_uniform (3 # 10) (6 # 10)) ;;
  append_traffic
    (mk_traffic ts ("ATTACKER-" ++ str_of_int attacker) target pc (pc * factor)
                (Some lat) (Some sig) (Some true) (Some "DDoS"%string) None) ;;;
  ret (attack_packets + pc).

Definition simulate_ddos_attack (target : string) (duration : Z) : M unit :=
  attack_start <- ask datetime_now ;;
  attack_packets <- for_fold (range duration) 0 (ddos_second target) ;;
  now <- ask time_time ;;
  append_event
    (new_event ("DDOS-" ++ str_of_int now) attack_start DDOS HIGH
               "Multiple Attackers" target
               ("DDoS attack with " ++ str_of_int attack_packets ++ " packets over "
                  ++ str_of_int duration ++ " seconds")).

(** [v ** 2]. On an integer it is exact. On a finite float Python settles
    0, 1 and -1 itself and hands the magnitude of any other base to [pow] of
    the C library, raising [OverflowError] when that reports a result out of
    range; an infinite base gives infinity. *)
Definition py_square (v : value) : result value :=
  match v with
  | VInt z => Ok (VInt (z * z))
  | VFloat (Finite x) =>
      if Qeq_bool x 0 then Ok (VFloat (Finite 0))
      else if Qeq_bool (Qabs x) 1 then Ok (VFloat (Finite 1))
      else match libm_pow2 (Qabs x) with
           | Some y => Ok (VFloat (Finite y))
           | None => Raise OverflowError
           end
  | VFloat (Infinity _) => Ok (VFloat (Infinity false))
  | VFloat NaN => Ok (VFloat NaN)
  end.

Definition set_status (n : NetworkNode) (st : string) : NetworkNode :=
  mk_node (node_id n) (node_type n) (ip_address n) (location n) st (security_level n).

(** The loop of [simulate_jamming_attack] over [self.nodes.items()]: the
    registry after the in-place updates, and [affected_nodes]. The distance
    of a node is evaluated from left to right, and the radius is a float. *)
Fixpoint jam_nodes (ns : list (string * NetworkNode)) (target_area : number * number)
    (radius : Q) : result (list (string * NetworkNode) * list string) :=
  match ns with
  | [] => Ok ([], [])
  | (id, node) :: ns' =>
      rbind (py_sub (fst (location node)) (fst target_area)) (fun dx =>
      rbind (py_square dx) (fun dx2 =>
      rbind (py_sub (snd (location node)) (snd target_area)) (fun dy =>
      rbind (py_square dy) (fun dy2 =>
      rbind (py_add dx2 dy2) (fun d2 =>
      rbind (np_sqrt d2) (fun distance =>
      rbind (jam_nodes ns' target_area radius) (fun '(rest, affected) =>
        if float64_le distance radius
        then Ok ((id, set_status node "degraded") :: rest, id :: affected)
        else Ok ((id, node) :: rest, affected))))))))
  end.

(** The result of a computation that leaves the state alone. *)
Definition lift {A : Type} (r : result A) : M A :=
  fun s =>
    match r with
    | Ok a => Ok (a, s)
    | Raise e => Raise e
    end.

Definition simulate_jamming_attack (target_area : number * number) (radius : Q) : M unit :=
  self <- get_self ;;
  jam <- lift (jam_nodes (nodes self) target_area radius) ;;
  let (nodes', affected_nodes) := jam in
  set_self (fun s => mk_sim nodes' (security_events s) (traffic_data s)) ;;;
  now <- ask time_time ;;
  ts <- ask datetime_now ;;
  append_event
    (new_event ("JAM-" ++ str_of_int now) ts JAMMING MEDIUM
               "Unknown Jammer" ("Area " ++ str_of_area target_area)
               ("Jamming attack affecting " ++ str_of_int (len affected_nodes)
                  ++ " nodes")).

Definition simulate_mitm_attack (target_connection : string * string) : M unit :=
  let (src, dst) := target_connection in
  ts <- ask datetime_now ;;
  pc <- ask (random_randint 50 200) ;;
  dv <- ask (random_randint 500 2000) ;;
  lat <- ask (random_uniform 20 100) ;;
  sig <- ask (random_uniform (4 # 10) (8 # 10)) ;;
  score <- ask (random_uniform (7 # 10) (9 # 10)) ;;
  append_traffic
    (mk_traffic ts src dst pc dv (Some lat) (Some sig) (Some true)
                (Some "MITM"%string) (Some score)) ;;;
  now <- ask time_time ;;
  ts' <- ask datetime_now ;;
  append_event
    (new_event ("MITM-" ++ str_of_int now) ts' MITM CRITICAL
               "Attacker" (src ++ " -> " ++ dst) "Man-in-the-middle attack detected").

(** *** [generate_security_report] *)

Record ReportSummary : Set := mk_summary {
  total_security_events : Z;
  total_traffic_records : Z;
  attack_traffic_percentage : Q;
  network_nodes : Z
}.

Record ReportEvent : Set := mk_report_event {
  re_event_id : string;
  re_timestamp : string;
  re_threat_type : string;
  re_severity : Z;
  re_description : string
}.

Record Report : Set := mk_report {
  summary : ReportSummary;
  threat_distribution : list (string * Z);
  severity_distribution : list (Z * Z);
  recent_events : list ReportEvent
}.

(** [t.get("is_attack", False)] *)
Definition get_is_attack (t : TrafficRecord) : bool :=
  match is_attack t with
  | Some b => b
  | None => false
  end.

(** [stats[k] += 1] on a [defaultdict(int)] *)
Definition increment {K : Type} (eqb : K -> K -> bool) (stats : list (K * Z)) (k : K)
  : list (K * Z) :=
  dict_upsert eqb stats k 0 (fun n => n + 1).

Definition report_event (e : SecurityEvent) : ReportEvent :=
  mk_report_event (event_id e) (isoformat (event_timestamp e))
                  (threat_value (threat_type e)) (severity_value (severity e))
                  (description e).

Definition generate_security_report (self : Simulator) : result Report :=
  let total_events := len (security_events self) in
  let total_traffic := len (traffic_data self) in
  let attack_traffic := len (filter get_is_attack (traffic_data self)) in
  let event_stats :=
    fold_left (fun st e => increment String.eqb st (threat_value (threat_type e)))
              (security_events self) [] in
  let severity_stats :=
    fold_left (fun st e => increment Z.eqb st (severity_value (severity e)))
              (security_events self) [] in
  rbind (if 0 <? total_traffic
         then rbind (int_truediv attack_traffic total_traffic)
                    (fun q => Ok (float_mul q 100))
         else Ok 0%Q)
        (fun percentage =>
           Ok (mk_report
                 (mk_summary total_events total_traffic percentage (len (nodes self)))
                 event_stats severity_stats
                 (map report_event (last_slice 10 (security_events self))))).

End SimulatorModel.

(* ================================================================= *)
(** ** [attack_detector.py] *)

(** The kind-specific [metrics] mapping of a finding. A float that may be NaN
    ([np.mean] of nothing, the sample variance of one value) is an [option]. *)
Inductive Metrics : Set :=
| DDoSMetrics (total_packets : Z) (unique_sources : nat) (avg_packet_size : option Q)
| JammingMetrics (avg_signal_strength min_signal_strength : Q) (signal_variance : option Q)
| MITMMetrics (anomaly : Q) (packets : Z) (lat : Q)
| SpoofingMetrics (src : string) (packet_rate : Q) (total_packets : Z).

Record Finding : Set := mk_finding {
  f_attack_type : string;
  f_timestamp : datetime;
  f_severity : string;
  metrics : Metrics;
  confidence : Q
}.

(** The constants of [_load_attack_patterns] that the detectors read. *)
Record AttackPatterns : Set := mk_patterns {
  ddos_high_packet_rate : Z;
  ddos_burst_threshold : Z;
  ddos_duration_threshold : Z;
  jamming_signal_strength_threshold : Q;
  jamming_consecutive_low_signals : Z;
  jamming_frequency_deviation : Q;
  mitm_anomaly_score_threshold : Q;
  mitm_latency_increase : Q;
  mitm_packet_modification_rate : Q
}.

Definition _load_attack_patterns : AttackPatterns :=
  mk_patterns 1000 5000 10
              (float_literal (3 # 10)) 5 (float_literal (1 # 10))
              (float_literal (7 # 10)) 2 (float_literal (1 # 10)).

(** [np.mean]: NaN on an empty sequence. *)
Definition np_mean (l : list Q) : option Q :=
  match l with
  | [] => None
  | _ => Some (Qsum l / inject_Z (len l))%Q
  end.

(** The key computed by the body of [_group_by_time_windows]. *)
Definition window_start (ts : datetime) (window_size : Z) : result datetime :=
  rbind (replace_second_microsecond ts 0 0) (fun ws =>
  rbind (floordiv window_size 60) (fun k =>
  rbind (floordiv (dt_minute ws) k) (fun q =>
  rbind (floordiv window_size 60) (fun k' =>
  replace_minute ws (q * k'))))).

Fixpoint group_loop (traffic_data : list TrafficRecord) (window_size : Z)
    (windows : list (datetime * list TrafficRecord))
  : result (list (datetime * list TrafficRecord)) :=
  match traffic_data with
  | [] => Ok windows
  | traffic :: rest =>
      rbind (window_start (timestamp traffic) window_size) (fun ws =>
        group_loop rest window_size
          (dict_upsert datetime_eqb windows ws [] (fun l => l ++ [traffic])))
  end.

Definition _group_by_time_windows (traffic_data : list TrafficRecord) (window_size : Z)
  : result (list (datetime * list TrafficRecord)) :=
  group_loop traffic_data window_size [].

(** The body of the loop of [detect_ddos_attack] over one window. *)
Definition ddos_window (w : datetime * list TrafficRecord) : list Finding :=
  let (ts, traffic_window) := w in
  match traffic_window with
  | [] => []
  | _ =>
      let total_packets := py_sum (map packet_count traffic_window) in
      let unique_sources := count_distinct (map source traffic_window) in
      let avg_packet_size :=
        np_mean (map (fun t => inject_Z (data_volume t)) traffic_window) in
      if ddos_high_packet_rate _load_attack_patterns <? total_packets
      then [ mk_finding "DDoS" ts "HIGH"
               (DDoSMetrics total_packets unique_sources avg_packet_size)
               (py_min (inject_Z total_packets / 1000) 1) ]
      else []
  end.

Definition detect_ddos_attack (traffic_data : list TrafficRecord) : result (list Finding) :=
  rbind (_group_by_time_windows traffic_data 60) (fun time_windows =>
    Ok (flat_map ddos_window time_windows)).

(** *** Jamming detection (pandas) *)

(** [Series.dt.floor("1min")] *)
Definition floor_minute (t : datetime) : datetime :=
  mk_datetime (dt_ordinal t) (dt_hour t) (dt_minute t) 0 0.

(** [groupby] hands out the groups in ascending key order. *)
Fixpoint insert_group {V : Type} (g : datetime * V) (l : list (datetime * V))
  : list (datetime * V) :=
  match l with
  | [] => [g]
  | h :: l' =>
      if to_microseconds (fst g) <=? to_microseconds (fst h)
      then g :: h :: l'
      else h :: insert_group g l'
  end.

Definition sort_groups {V : Type} (l : list (datetime * V)) : list (datetime * V) :=
  fold_right insert_group [] l.

Definition groupby_time_window (signal_data : list (datetime * Q))
  : list (datetime * list Q) :=
  sort_groups
    (fold_left (fun groups '(ts, s) =>
                  dict_upsert datetime_eqb groups (floor_minute ts) [] (fun l => l ++ [s]))
               signal_data []).

(** [Series.min()] of a group, which is never empty: no rounding is
    involved. *)
Definition series_min (l : list Q) : Q :=
  match l with
  | [] => 0%Q
  | x :: l' => fold_left Qmin l' x
  end.

(** [v > bound], false on NaN. *)
Definition nan_gt (v : option Q) (bound : Q) : bool :=
  match v with
  | Some x => Qltb bound x
  | None => false
  end.

Section PandasModel.

(** [Series.mean()] and [Series.var()] (the sample variance, [ddof=1]) are
    the library's: they sum in binary64, in an order that depends on its
    version and build, so that the last bits of their results are not fixed
    by the source. A variance that is NaN, as that of a single sample, is
    [None]. *)
Variable series_mean : list Q -> Q.
Variable series_var : list Q -> option Q.

Definition jamming_group (g : datetime * list Q) : list Finding :=
  let (time_window, group) := g in
  let avg_signal := series_mean group in
  let min_signal := series_min group in
  let signal_variance := series_var group in
  if Qltb avg_signal (jamming_signal_strength_threshold _load_attack_patterns)
     || Qltb min_signal (float_literal (2 # 10))
     || nan_gt signal_variance (float_literal (1 # 10))
  then [ mk_finding "Jamming" time_window "MEDIUM"
           (JammingMetrics avg_signal min_signal signal_variance)
           (float_sub 1 avg_signal) ]
  else [].

Definition detect_jamming_attack (traffic_data : list TrafficRecord) : result (list Finding) :=
  let signal_data :=
    flat_map (fun t => match signal_strength t with
                       | Some s => [(timestamp t, s)]
                       | None => []
                       end) traffic_data in
  match signal_data with
  | [] => Ok []
  | _ => Ok (flat_map jamming_group (groupby_time_window signal_data))
  end.

End PandasModel.

(** *** Spoofing detection *)

Record SourceStats : Set := mk_stats {
  st_packet_count : Z;
  st_data_volume : Z;
  first_seen : datetime;
  last_seen : datetime
}.

(** The first loop of [detect_spoofing_attack]. *)
Definition source_step (source_analysis : list (string * SourceStats)) (traffic : TrafficRecord)
  : list (string * SourceStats) :=
  dict_upsert String.eqb source_analysis (source traffic)
    (mk_stats 0 0 (timestamp traffic) (timestamp traffic))
    (fun st => mk_stats (st_packet_count st + packet_count traffic)
                        (st_data_volume st + data_volume traffic)
                        (first_seen st) (timestamp traffic)).

Definition source_analysis (traffic_data : list TrafficRecord) : list (string * SourceStats) :=
  fold_left source_step traffic_data [].

(** [(last_seen - first_seen).total_seconds()] *)
Definition time_span (stats : SourceStats) : Q :=
  total_seconds (datetime_sub (last_seen stats) (first_seen stats)).

(** The body of the second loop, for one source. *)
Definition spoofing_source (entry : string * SourceStats) : result (list Finding) :=
  let (src, stats) := entry in
  if Qltb 0 (time_span stats) then
    rbind (truediv (float_of_int (st_packet_count stats)) (time_span stats))
          (fun packet_rate =>
      if Qltb 50 packet_rate
      then Ok [ mk_finding "Spoofing" (last_seen stats) "HIGH"
                  (SpoofingMetrics src packet_rate (st_packet_count stats))
                  (py_min (round64 (packet_rate / 100)) 1) ]
      else Ok [])
  else Ok [].

Definition detect_spoofing_attack (traffic_data : list TrafficRecord) : result (list Finding) :=
  rbind (rmap spoofing_source (source_analysis traffic_data)) (fun per_source =>
    Ok (concat per_source)).

(** *** Interception detection (scikit-learn) and the comprehensive run *)

Record DetectionSummary : Set := mk_detection_summary {
  total_attacks : Z;
  detection_timestamp : string;
  traffic_records_analyzed : Z
}.

Record DetectionResults : Set := mk_results {
  ddos_attacks : list Finding;
  jamming_attacks : list Finding;
  mitm_attacks : list Finding;
  spoofing_attacks : list Finding;
  detection_summary : DetectionSummary
}.

Section DetectorModel.
Context {RT : Runtime}.

(** [StandardScaler.fit_transform], [IsolationForest.fit_predict] and
    [IsolationForest.score_samples] (of the forest fitted on the first
    argument) are the library's, as are the mean and the variance of a
    series. *)
Variable fit_transform : list (list Q) -> list (list Q).
Variable fit_predict : list (list Q) -> list Z.
Variable score_samples : list (list Q) -> list Q -> Q.
Variable series_mean : list Q -> Q.
Variable series_var : list Q -> option Q.

(** [all(key in traffic for key in ["packet_count", "latency", "data_volume"])]:
    of the three keys only [latency] can be absent. *)
Definition has_mitm_keys (traffic : TrafficRecord) : bool :=
  match latency traffic with
  | Some _ => true
  | None => false
  end.

Definition get_or (o : option Q) (default : Q) : Q :=
  match o with
  | Some x => x
  | None => default
  end.

Definition feature_vector (traffic : TrafficRecord) : list Q :=
  [ inject_Z (packet_count traffic);
    get_or (latency traffic) 0;
    inject_Z (data_volume traffic);
    get_or (signal_strength traffic) (1 # 2);
    get_or (anomaly_score traffic) 0 ].

(** [X_scaled[i]]: [IndexError] past the end. *)
Definition row (X : list (list Q)) (i : nat) : result (list Q) :=
  match nth_error X i with
  | Some r => Ok r
  | None => Raise IndexError
  end.

(** The loop over [enumerate(zip(anomaly_scores, traffic_records))]. *)
Fixpoint mitm_loop (X_scaled : list (list Q)) (i : nat)
    (pairs : list (Z * TrafficRecord)) : result (list Finding) :=
  match pairs with
  | [] => Ok []
  | (score, traffic) :: rest =>
      rbind (if score =? -1
             then rbind (row X_scaled i) (fun x =>
                    let a := Qabs (score_samples X_scaled x) in
                    Ok [ mk_finding "MITM" (timestamp traffic) "CRITICAL"
                           (MITMMetrics a (packet_count traffic)
                                        (get_or (latency traffic) 0))
                           a ])
             else Ok [])
            (fun found =>
               rbind (mitm_loop X_scaled (S i) rest) (fun more => Ok (found ++ more)))
  end.

Definition detect_mitm_attack (traffic_data : list TrafficRecord) : result (list Finding) :=
  let traffic_records := filter has_mitm_keys traffic_data in
  let features := map feature_vector traffic_records in
  if len features <? 10 then Ok []
  else
    let X_scaled := fit_transform features in
    let anomaly_scores := fit_predict X_scaled in
    mitm_loop X_scaled 0 (combine anomaly_scores traffic_records).

Definition comprehensive_attack_detection (traffic_data : list TrafficRecord) (w : world)
  : result (DetectionResults * world) :=
  rbind (detect_ddos_attack traffic_data) (fun ddos =>
  rbind (detect_jamming_attack series_mean series_var traffic_data) (fun jamming =>
  rbind (detect_mitm_attack traffic_data) (fun mitm =>
  rbind (detect_spoofing_attack traffic_data) (fun spoofing =>
    let total := py_sum (map len [ddos; jamming; mitm; spoofing]) in
    let (now, w') := datetime_now w in
    Ok (mk_results ddos jamming mitm spoofing
          (mk_detection_summary total (isoformat now) (len traffic_data)),
        w'))))).
End DetectorModel.

(* ================================================================= *)
(** ** Specification-side vocabulary *)

(** [x] is a binary64 value (of any exponent): an integer below 2^53 in
    magnitude times a power of two. *)
Definition is_double (x : Q) : Prop :=
  exists m k : Z, Z.abs m < 2 ^ 53 /\ (x == inject_Z m * 2 ^ k)%Q.

(** The registry after [initialize_network] on a fresh simulator. *)
Definition registry : list (string * NetworkNode) :=
  map (fun '(id, ty, ip, loc) => (id, new_node id ty ip loc))
      (core_nodes ++ ran_nodes ++ ue_nodes).

(** The 60-second interval of the time line a timestamp falls in. *)
Definition minute_index (t : datetime) : Z := to_microseconds t / 60000000.

(** The records of a collection that fall in the window starting at [w], and
    their packet total. *)
Definition in_window (w : datetime) (t : TrafficRecord) : bool :=
  datetime_eqb w (floor_minute (timestamp t)).

Definition window_total (traffic_data : list TrafficRecord) (w : datetime) : Z :=
  py_sum (map packet_count (filter (in_window w) traffic_data)).

(** The grouping of [_group_by_time_windows] for one-minute windows, when no
    [replace] fails. *)
Definition group_by_minute (traffic_data : list TrafficRecord)
    (windows : list (datetime * list TrafficRecord))
  : list (datetime * list TrafficRecord) :=
  fold_left (fun ws t =>
               dict_upsert datetime_eqb ws (floor_minute (timestamp t)) []
                           (fun l => l ++ [t]))
            traffic_data windows.

(** The records of one source label, in input order. *)
Definition from_source (s : string) (t : TrafficRecord) : bool :=
  String.eqb s (source t).

Definition sightings (traffic_data : list TrafficRecord) (s : string) : list TrafficRecord :=
  filter (from_source s) traffic_data.

(** The signal-strength samples of a traffic collection, in input order, and
    those of them that fall in the minute starting at [w]. *)
Definition signal_samples (traffic_data : list TrafficRecord) : list (datetime * Q) :=
  flat_map (fun t => match signal_strength t with
                     | Some s => [(timestamp t, s)]
                     | None => []
                     end) traffic_data.

Definition samples_in (w : datetime) (traffic_data : list TrafficRecord) : list Q :=
  map snd (filter (fun p => datetime_eqb w (floor_minute (fst p)))
                  (signal_samples traffic_data)).

(** The order in which [groupby] hands out its groups. *)
Definition earlier_or_same (a b : datetime) : Prop :=
  to_microseconds a <= to_microseconds b.

(** The registry [d] after [d[id] = node] for each of [items] in turn. *)
Definition install (items d : list (string * NetworkNode)) : list (string * NetworkNode) :=
  fold_left (fun d item => dict_set String.eqb d (fst item) (snd item)) items d.

(** The status a registry gives a node identifier. *)
Definition status_of (ns : list (string * NetworkNode)) (id : string) : option string :=
  option_map status (dict_get String.eqb ns id).

(** What [generate_normal_traffic] promises of a record, given the registry. *)
Definition benign_record (ns : list (string * NetworkNode)) (t : TrafficRecord) : Prop :=
  10 <= packet_count t <= 100 /\
  100 <= data_volume t <= 1000 /\
  (exists l, latency t = Some l /\ 1 <= l <= 50)%Q /\
  (exists s, signal_strength t = Some s /\ 7 # 10 <= s <= 1)%Q /\
  is_attack t = Some false /\
  attack_type t = None /\
  In (destination t) (map fst ns).

(** What [simulate_ddos_attack] promises of a record. *)
Definition flood_record (target : string) (t : TrafficRecord) : Prop :=
  1000 <= packet_count t <= 5000 /\
  is_attack t = Some true /\
  attack_type t = Some "DDoS"%string /\
  (exists l, latency t = Some l /\ 100 <= l <= 500)%Q /\
  (exists s, signal_strength t = Some s /\ 3 # 10 <= s <= 6 # 10)%Q /\
  destination t = target.

Definition is_user_equipment (n : string * NetworkNode) : bool :=
  String.eqb (node_type (snd n)) "User Equipment".

(** The rational a number denotes. *)
Definition coordinate (n : number) : Q :=
  match n with
  | Int z => inject_Z z
  | Float x => x
  end.

(** The Euclidean distance between two points, a real number. *)
Definition euclidean_distance (p a : number * number) : R :=
  let dx := (Q2R (coordinate (fst p)) - Q2R (coordinate (fst a)))%R in
  let dy := (Q2R (coordinate (snd p)) - Q2R (coordinate (snd a)))%R in
  sqrt (dx * dx + dy * dy).

(** The square of the Euclidean distance between two points, a rational. *)
Definition squared_distance (p a : number * number) : Q :=
  let dx := (coordinate (fst p) - coordinate (fst a))%Q in
  let dy := (coordinate (snd p) - coordinate (snd a))%Q in
  (dx * dx + dy * dy)%Q.

(** [sqrt d2 <= radius] for a rational [0 <= d2], without the square root:
    the radius is not negative and [d2 <= radius^2]. *)
Definition sqrt_le (d2 radius : Q) : bool :=
  Qle_bool 0 radius && Qle_bool d2 (radius * radius).

(** The distance between two points as Python measures it: the value of
    [np.sqrt((p0 - a0)**2 + (p1 - a1)**2)], or the exception it raises. *)
Definition measured_distance {RT : Runtime} (p a : number * number) : result float64 :=
  rbind (py_sub (fst p) (fst a)) (fun dx =>
  rbind (py_square dx) (fun dx2 =>
  rbind (py_sub (snd p) (snd a)) (fun dy =>
  rbind (py_square dy) (fun dy2 =>
  rbind (py_add dx2 dy2) np_sqrt)))).

(** The simulator with the records [new] appended to its traffic collection
    and nothing else changed. *)
Definition with_traffic (self : Simulator) (new : list TrafficRecord) : Simulator :=
  mk_sim (nodes self) (security_events self) (traffic_data self ++ new).

(** The identifiers of the endpoint-role nodes, in registry order. *)
Definition ue_ids (ns : list (string * NetworkNode)) : list string :=
  map fst (filter is_user_equipment ns).

(** The node's measured distance to the target area is at most the radius;
    the item a jamming attack leaves in the place of such a node. *)
Definition in_blast_radius {RT : Runtime} (target_area : number * number) (radius : Q)
    (n : string * NetworkNode) : bool :=
  match measured_distance (location (snd n)) target_area with
  | Ok distance => float64_le distance radius
  | Raise _ => false
  end.

Definition jammed {RT : Runtime} (target_area : number * number) (radius : Q)
    (n : string * NetworkNode) : string * NetworkNode :=
  if in_blast_radius target_area radius n
  then (fst n, set_status (snd n) "degraded")
  else n.

(** The registry [ns] with the status of the node [id], and of no other,
    set to degraded. *)
Definition degrade_only (id : string) (ns : list (string * NetworkNode))
  : list (string * NetworkNode) :=
  map (fun n => if String.eqb (fst n) id
                then (fst n, set_status (snd n) "degraded")
                else n) ns.

(** Two registry items that differ at most in the node's status. *)
Definition same_but_status (old new : string * NetworkNode) : Prop :=
  fst new = fst old /\
  node_id (snd new) = node_id (snd old) /\
  node_type (snd new) = node_type (snd old) /\
  ip_address (snd new) = ip_address (snd old) /\
  location (snd new) = location (snd old) /\
  security_level (snd new) = security_level (snd old).

(** The source label a spoofing finding reports. *)
Definition finding_source (f : Finding) : option string :=
  match metrics f with
  | SpoofingMetrics s _ _ => Some s
  | _ => None
  end.

Definition reports_source (s : string) (f : Finding) : bool :=
  match finding_source f with
  | Some s' => String.eqb s s'
  | None => false
  end.

Definition at_window (w : datetime) (f : Finding) : bool :=
  datetime_eqb w (f_timestamp f).

(** The update of a source's statistics by one more of its records, and the
    statistics a source starts from at its first record. *)
Definition absorb (st : SourceStats) (t : TrafficRecord) : SourceStats :=
  mk_stats (st_packet_count st + packet_count t) (st_data_volume st + data_volume t)
           (first_seen st) (timestamp t).

Definition unseen (t : TrafficRecord) : SourceStats :=
  mk_stats 0 0 (timestamp t) (timestamp t).

(** The findings of the second loop of [detect_spoofing_attack] for one
    source, when the division does not raise. *)
Definition spoofing_entry (entry : string * SourceStats) : list Finding :=
  let (src, stats) := entry in
  let packet_rate := round64 (float_of_int (st_packet_count stats) / time_span stats) in
  if Qltb 0 (time_span stats) && Qltb 50 packet_rate
  then [ mk_finding "Spoofing" (last_seen stats) "HIGH"
           (SpoofingMetrics src packet_rate (st_packet_count stats))
           (py_min (round64 (packet_rate / 100)) 1) ]
  else [].

(** The packet rate as it is measured in binary64: the packet total, as a
    float, divided by the seconds of a span of [span] microseconds, themselves
    a float. *)
Definition measured_rate (total : Z) (span : timedelta) : Q :=
  round64 (float_of_int total / total_seconds span).

(** What the spoofing detector is to report for a source seen in the records
    [l], in input order: nothing unless the span from the first to the last
    sighting is positive and the packet rate measured over it exceeds 50. *)
Definition spoofing_verdict (s : string) (l : list TrafficRecord) : list Finding :=
  match l with
  | [] => []
  | first :: _ =>
      let latest := timestamp (last l first) in
      let total := py_sum (map packet_count l) in
      let span := datetime_sub latest (timestamp first) in
      let rate := measured_rate total span in
      if (0 <? span) && Qltb 50 rate
      then [ mk_finding "Spoofing" latest "HIGH" (SpoofingMetrics s rate total)
               (py_min (round64 (rate / 100)) 1) ]
      else []
  end.

(** The record carries a true attack flag. *)
Definition flagged_attack (t : TrafficRecord) : bool :=
  match is_attack t with
  | Some true => true
  | _ => false
  end.

(* ================================================================= *)
(** ** [FiveGNetworkSimulator.detect_anomalies] *)

(** An anomaly is a dict whose keys depend on its type: flood and jamming
    anomalies carry [affected_nodes], interception anomalies carry [source]
    and [destination]. *)
Record Anomaly : Set := mk_anomaly {
  a_type : string;
  a_timestamp : datetime;
  a_severity : string;
  a_description : string;
  a_affected_nodes : option Z;
  a_source : option string;
  a_destination : option string
}.

(** [detect_anomalies] indexes [traffic["signal_strength"]] without a test:
    it returns or raises [KeyError]. *)
Inductive outcome (A : Type) : Type :=
| Returned (a : A)
| KeyError (key : string).

Arguments Returned {A} a.
Arguments KeyError {A} key.

(** [self.detection_thresholds] *)
Record DetectionThresholds : Set := mk_thresholds {
  threshold_ddos : Z;
  threshold_jamming : Q;
  threshold_mitm : Q
}.

Definition detection_thresholds : DetectionThresholds :=
  mk_thresholds 1000 (8 # 10) (7 # 10).

(** [np.max] of a sequence of integers that is not empty. *)
Definition np_max (l : list Z) : Z :=
  match l with
  | [] => 0
  | x :: l' => fold_left Z.max l' x
  end.

(** [[t["signal_strength"] for t in traffic_list]] *)
Fixpoint signal_strengths_of (traffic_list : list TrafficRecord) : outcome (list Q) :=
  match traffic_list with
  | [] => Returned []
  | t :: rest =>
      match signal_strength t with
      | None => KeyError "signal_strength"
      | Some s =>
          match signal_strengths_of rest with
          | Returned ss => Returned (s :: ss)
          | KeyError k => KeyError k
          end
      end
  end.

(** The first loop: [time_windows[traffic["timestamp"].minute].append(traffic)]. *)
Definition minute_windows (traffic_data : list TrafficRecord)
  : list (Z * list TrafficRecord) :=
  fold_left (fun ws t => dict_upsert Z.eqb ws (dt_minute (timestamp t)) []
                                     (fun l => l ++ [t]))
            traffic_data [].

Section AnomalyModel.
Context {RT : Runtime}.

(** [f"{x:.2f}"] *)
Variable format_2f : Q -> string.

(** The innermost loop, over the records of one window. *)
Definition mitm_anomalies (traffic_list : list TrafficRecord) : list Anomaly :=
  flat_map (fun t =>
              match anomaly_score t with
              | Some a =>
                  if Qltb (threshold_mitm detection_thresholds) a
                  then [ mk_anomaly "MITM" (timestamp t) "CRITICAL"
                           ("High anomaly score: " ++ format_2f a)
                           None (Some (source t)) (Some (destination t)) ]
                  else []
              | None => []
              end) traffic_list.

(** The body of the second loop, for one window. [avg_packets], the mean of
    a list that is not empty, is computed and never read: it has no
    counterpart here. Each [datetime.now()] is a reading of the clock, in
    the order of the source. *)
Definition analyze_window (window : Z * list TrafficRecord) (w : world)
  : outcome (list Anomaly * world) :=
  let (_minute, traffic_list) := window in
  match traffic_list with
  | [] => Returned ([], w)
  | _ =>
      let max_packets := np_max (map packet_count traffic_list) in
      let (ddos, w1) :=
        if threshold_ddos detection_thresholds <? max_packets
        then let (now, w1) := datetime_now w in
             ([ mk_anomaly "DDoS" now "HIGH"
                  ("Unusual packet volume: " ++ str_of_int max_packets ++ " packets")
                  (Some (Z.of_nat (count_distinct (map destination traffic_list))))
                  None None ], w1)
        else ([], w) in
      match signal_strengths_of traffic_list with
      | KeyError k => KeyError k
      | Returned signal_strengths =>
          let (jamming, w2) :=
            match np_mean signal_strengths with
            | Some avg_signal =>
                if Qltb avg_signal (threshold_jamming detection_thresholds)
                then let (now, w2) := datetime_now w1 in
                     ([ mk_anomaly "Jamming" now "MEDIUM"
                          ("Low signal strength: " ++ format_2f avg_signal)
                          (Some (len traffic_list)) None None ], w2)
                else ([], w1)
            | None => ([], w1)
            end in
          Returned (ddos ++ jamming ++ mitm_anomalies traffic_list, w2)
      end
  end.

Fixpoint analyze_windows (windows : list (Z * list TrafficRecord)) (w : world)
  : outcome (list Anomaly * world) :=
  match windows with
  | [] => Returned ([], w)
  | window :: rest =>
      match analyze_window window w with
      | KeyError k => KeyError k
      | Returned (found, w1) =>
          match analyze_windows rest w1 with
          | KeyError k => KeyError k
          | Returned (more, w2) => Returned (found ++ more, w2)
          end
      end
  end.

Definition detect_anomalies (self : Simulator) (w : world)
  : outcome (list Anomaly * world) :=
  analyze_windows (minute_windows (traffic_data self)) w.

End AnomalyModel.

(** The anomaly is of the given type. *)
Definition is_type (ty : string) (a : Anomaly) : bool := String.eqb (a_type a) ty.

(** The record carries an anomaly score above 0.7. *)
Definition high_score (t : TrafficRecord) : bool :=
  match anomaly_score t with
  | Some a => Qltb (7 # 10) a
  | None => false
  end.

(* ================================================================= *)
(** ** Sample inputs *)

Definition sample_record (h m sec us : Z) (src : string) (packets : Z) : TrafficRecord :=
  mk_traffic (mk_datetime 739000 h m sec us) src "gNB-001" packets (packets * 100)
             (Some 5%Q) (Some (9 # 10)) None None None.

(** Two records in the minute 08:00 with 1500 packets in all, one record in
    the minute 08:01. *)
Definition sample_traffic : list TrafficRecord :=
  [ sample_record 8 0 1 0 "UE-001" 700;
    sample_record 8 0 59 999999 "UE-002" 800;
    sample_record 8 1 0 0 "UE-001" 50 ].

(** One source emitting 200 packets across two seconds, another seen once. *)
Definition sample_burst : list TrafficRecord :=
  [ sample_record 8 0 0 0 "UE-009" 120;
    sample_record 8 0 1 500000 "UE-007" 100000;
    sample_record 8 0 2 0 "UE-009" 80 ].

(** A record flagged as an attack and a record flagged as benign. *)
Definition sample_attack : TrafficRecord :=
  mk_traffic (mk_datetime 739000 8 0 0 0) "ATTACKER-1" "gNB-001" 2000 200000
             (Some 200%Q) (Some (1 # 2)) (Some true) (Some "DDoS"%string) None.

(** A record whose signal strength is the float 0.3. *)
Definition sample_weak_signal : TrafficRecord :=
  mk_traffic (mk_datetime 739000 8 0 0 0) "UE-001" "gNB-001" 50 500
             (Some 5%Q) (Some (float_literal (3 # 10))) (Some false) None None.

Definition sample_benign : TrafficRecord :=
  mk_traffic (mk_datetime 739000 8 0 0 0) "UE-001" "gNB-001" 50 500
             (Some 5%Q) (Some (9 # 10)) (Some false) None None.

(** A flood record and an intercepted record in the minute 08:00, and a quiet
    record an hour later, at 09:00. *)
Definition sample_anomalous : list TrafficRecord :=
  [ sample_record 8 0 1 0 "ATTACKER-1" 1500;
    mk_traffic (mk_datetime 739000 8 0 2 0) "UE-003" "gNB-001" 54 8931
               (Some 10%Q) (Some (9 # 10)) (Some true) (Some "MITM"%string)
               (Some (9 # 10));
    sample_record 9 0 3 0 "UE-002" 50 ].

(* ================================================================= *)
(** ** A deterministic runtime

    A linear congruential generator and a clock that advances by one
    millisecond per reading: an instance of [Runtime] on which the methods
    run to a value. *)

Record TestWorld : Set := mk_world {
  seed : Z;
  clock : Z
}.

Definition next_seed (w : TestWorld) : TestWorld :=
  mk_world ((seed w * 1103515245 + 12345) mod 2147483648) (clock w).

Definition test_randint (a b : Z) (w : TestWorld) : Z * TestWorld :=
  (a + seed w mod (b - a + 1), next_seed w).

Definition test_uniform (a b : Q) (w : TestWorld) : Q * TestWorld :=
  (match seed w mod 3 with
   | 0 => a
   | 1 => ((a + b) * (1 # 2))%Q
   | _ => b
   end, next_seed w).

Definition test_index (n : nat) (w : TestWorld) : nat * TestWorld :=
  (Z.to_nat (seed w mod Z.of_nat n), next_seed w).

Definition of_microseconds (us : Z) : datetime :=
  mk_datetime (us / 86400000000) ((us / 3600000000) mod 24) ((us / 60000000) mod 60)
              ((us / 1000000) mod 60) (us mod 1000000).

Definition test_now (w : TestWorld) : datetime * TestWorld :=
  (of_microseconds (clock w), mk_world (seed w) (clock w + 1000)).

Definition test_time (w : TestWorld) : Z * TestWorld :=
  (clock w / 1000000, w).

Definition test_str_of_number (n : number) : string :=
  match n with
  | Int z => str_of_int z
  | Float x => str_of_int (Qfloor x) ++ ".0"
  end.

Definition test_str_of_area (a : number * number) : string :=
  "(" ++ test_str_of_number (fst a) ++ ", " ++ test_str_of_number (snd a) ++ ")".

(** A [pow] that returns the nearest binary64 number to the square. *)
Definition test_pow2 (x : Q) : option Q :=
  match binary64 (x * x) with
  | Finite y => Some y
  | _ => None
  end.

Definition test_isoformat (t : datetime) : string :=
  str_of_int (dt_ordinal t) ++ "T" ++ str_of_int (dt_hour t) ++ ":"
    ++ str_of_int (dt_minute t) ++ ":" ++ str_of_int (dt_second t) ++ "."
    ++ str_of_int (dt_microsecond t).

Definition world0 : TestWorld := mk_world 42 63900000000000000.

(** A mean and a sample variance that add from left to right, rounding each
    sum: one way for the library to compute them. *)
Definition float_sum (l : list Q) : Q := fold_left (fun acc x => round64 (acc + x)) l 0%Q.

Definition test_series_mean (l : list Q) : Q :=
  round64 (float_sum l / inject_Z (len l)).

Definition test_series_var (l : list Q) : option Q :=
  if len l <=? 1 then None
  else
    let m := test_series_mean l in
    Some (round64 (float_sum (map (fun x => float_mul (float_sub x m) (float_sub x m)) l)
                   / inject_Z (len l - 1))).

(** Two decimals, rounded half up: stands for [f"{x:.2f}"] on the sample
    inputs. *)
Definition test_format_2f (x : Q) : string :=
  let cents := Qfloor (x * 100 + (1 # 2)) in
  str_of_int (cents / 100) ++ "." ++ str_of_int ((cents mod 100) / 10)
    ++ str_of_int (cents mod 10).

(* ================================================================= *)
(** * Properties *)

(** ** Floating-point arithmetic *)

(** *** Rounding to the nearest integer *)

Lemma rhe_comp (x y : Q) : (x == y)%Q -> round_half_even x = round_half_even y.
Proof.
  intros H. unfold round_half_even.
  rewrite (Qfloor_comp _ _ H).
  assert (E : (x - inject_Z (Qfloor y) ?= 1 # 2)%Q = (y - inject_Z (Qfloor y) ?= 1 # 2)%Q).
  { apply Qcompare_comp; [now rewrite H | reflexivity]. }
  now rewrite E.
Qed.

Lemma rhe_cases (x : Q) :
  let f := Qfloor x in
  (round_half_even x = f /\ (x - inject_Z f <= 1 # 2)%Q) \/
  (round_half_even x = f + 1 /\ (1 # 2 <= x - inject_Z f)%Q).
Proof.
  intros f. unfold round_half_even. fold f.
  destruct (Qcompare_spec (x - inject_Z f) (1 # 2)) as [E|E|E].
  - destruct (Z.even f); [left|right]; split; try reflexivity; Lqa.lra.
  - left. split; [reflexivity | Lqa.lra].
  - right. split; [reflexivity | Lqa.lra].
Qed.

Lemma floor_bounds (x : Q) :
  (inject_Z (Qfloor x) <= x < inject_Z (Qfloor x) + 1)%Q.
Proof.
  split; [apply Qfloor_le|].
  pose proof (Qlt_floor x) as H. rewrite inject_Z_plus in H. exact H.
Qed.

Lemma rhe_close (x : Q) :
  (x - (1 # 2) <= inject_Z (round_half_even x) <= x + (1 # 2))%Q.
Proof.
  pose proof (floor_bounds x) as Hf.
  destruct (rhe_cases x) as [[-> H]|[-> H]].
  - Lqa.lra.
  - rewrite inject_Z_plus. change (inject_Z 1) with 1%Q. Lqa.lra.
Qed.

Lemma rhe_Z (z : Z) : round_half_even (inject_Z z) = z.
Proof.
  unfold round_half_even. rewrite Qfloor_Z.
  assert (E : (inject_Z z - inject_Z z ?= 1 # 2)%Q = Lt).
  { rewrite <- Qlt_alt. generalize (inject_Z z). intros q. Lqa.lra. }
  now rewrite E.
Qed.

Lemma rhe_mono (x y : Q) : (x <= y)%Q -> round_half_even x <= round_half_even y.
Proof.
  intros Hxy.
  pose proof (Qfloor_resp_le _ _ Hxy) as Hf.
  destruct (Z.eq_dec (Qfloor x) (Qfloor y)) as [E|NE].
  - unfold round_half_even. rewrite <- E.
    destruct (Qcompare_spec (x - inject_Z (Qfloor x)) (1 # 2)) as [Ex|Ex|Ex];
      destruct (Qcompare_spec (y - inject_Z (Qfloor x)) (1 # 2)) as [Ey|Ey|Ey];
      try lia; try (exfalso; Lqa.lra); destruct (Z.even (Qfloor x)); lia.
  - destruct (rhe_cases x) as [[-> _]|[-> _]], (rhe_cases y) as [[-> _]|[-> _]]; lia.
Qed.

(** *** Powers of two *)

Lemma pow2_pos (k : Z) : (0 < 2 ^ k)%Q.
Proof. apply Qpower_0_lt. reflexivity. Qed.

Lemma pow2_nonzero (k : Z) : ~ (2 ^ k == 0)%Q.
Proof. apply Qpower_not_0. discriminate. Qed.

Lemma pow2_plus (a b : Z) : (2 ^ (a + b) == 2 ^ a * 2 ^ b)%Q.
Proof. apply Qpower_plus. discriminate. Qed.

Lemma pow2_succ (a : Z) : (2 ^ (a + 1) == 2 * 2 ^ a)%Q.
Proof. rewrite pow2_plus. change (2 ^ 1)%Q with 2%Q. ring. Qed.

Lemma pow2_le (a b : Z) : a <= b -> (2 ^ a <= 2 ^ b)%Q.
Proof. intros H. apply Qpower_le_compat_l; [exact H | discriminate]. Qed.

Lemma pow2_lt (a b : Z) : a < b -> (2 ^ a < 2 ^ b)%Q.
Proof. intros H. apply Qpower_lt_compat_l; [exact H | reflexivity]. Qed.

Lemma pow2_lt_inv (a b : Z) : (2 ^ a < 2 ^ b)%Q -> a < b.
Proof. intros H. apply (Qpower_lt_compat_l_inv 2); [exact H | reflexivity]. Qed.

Lemma pow2_Z (n : Z) : 0 <= n -> (inject_Z (2 ^ n) == 2 ^ n)%Q.
Proof. intros H. now rewrite Zpower_Qpower. Qed.

(** *** The exponent of a positive rational *)

Lemma ilog2_spec (a : Q) : (0 < a)%Q -> (2 ^ ilog2 a <= a < 2 ^ (ilog2 a + 1))%Q.
Proof.
  intros Ha. unfold ilog2.
  destruct a as [n d]. cbn [Qnum Qden].
  assert (Hn : 0 < n).
  { unfold Qlt in Ha. cbn in Ha. lia. }
  set (ln := Z.log2 n). set (ld := Z.log2 (Z.pos d)).
  pose proof (Z.log2_spec n Hn) as [Hn1 Hn2]. fold ln in Hn1, Hn2.
  pose proof (Z.log2_spec (Z.pos d) eq_refl) as [Hd1 Hd2]. fold ld in Hd1, Hd2.
  pose proof (Z.log2_nonneg n) as Hln. fold ln in Hln.
  pose proof (Z.log2_nonneg (Z.pos d)) as Hld. fold ld in Hld.
  assert (Hq : (n # d == inject_Z n / inject_Z (Z.pos d))%Q) by apply Qmake_Qdiv.
  assert (Hdpos : (0 < inject_Z (Z.pos d))%Q)
    by (change 0%Q with (inject_Z 0); rewrite <- Zlt_Qlt; lia).
  assert (HN1 : (2 ^ ln <= inject_Z n)%Q) by (rewrite <- pow2_Z by lia; now rewrite <- Zle_Qle).
  assert (HN2 : (inject_Z n < 2 ^ (ln + 1))%Q).
  { rewrite <- pow2_Z by lia. rewrite <- Zlt_Qlt. exact Hn2. }
  assert (HD1 : (2 ^ ld <= inject_Z (Z.pos d))%Q) by (rewrite <- pow2_Z by lia; now rewrite <- Zle_Qle).
  assert (HD2 : (inject_Z (Z.pos d) < 2 ^ (ld + 1))%Q).
  { rewrite <- pow2_Z by lia. rewrite <- Zlt_Qlt. exact Hd2. }
  assert (Hup : (n # d < 2 ^ (ln - ld + 1))%Q).
  { rewrite Hq. apply Qlt_shift_div_r; [exact Hdpos|].
    apply Qlt_le_trans with (2 ^ (ln + 1))%Q; [exact HN2|].
    replace (ln + 1) with ((ln - ld + 1) + ld) by lia. rewrite pow2_plus.
    apply Qmult_le_l; [apply pow2_pos | exact HD1]. }
  assert (Hlow : (2 ^ (ln - ld - 1) < n # d)%Q).
  { rewrite Hq. apply Qlt_shift_div_l; [exact Hdpos|].
    apply Qlt_le_trans with (2 ^ ln)%Q; [|exact HN1].
    replace ln with ((ln - ld - 1) + (ld + 1)) at 2 by lia. rewrite pow2_plus.
    apply Qmult_lt_l; [apply pow2_pos | exact HD2]. }
  destruct (Qle_bool (2 ^ (ln - ld)) (n # d)) eqn:E.
  - apply Qle_bool_iff in E. split; assumption.
  - assert (Hlt : (n # d < 2 ^ (ln - ld))%Q).
    { apply Qnot_le_lt. intros H. apply Qle_bool_iff in H. congruence. }
    replace (ln - ld - 1 + 1) with (ln - ld) by lia.
    split; [apply Qlt_le_weak; exact Hlow | exact Hlt].
Qed.

Lemma ilog2_unique (a : Q) (e : Z) :
  (2 ^ e <= a < 2 ^ (e + 1))%Q -> ilog2 a = e.
Proof.
  intros [H1 H2].
  assert (Ha : (0 < a)%Q) by (eapply Qlt_le_trans; [apply pow2_pos | exact H1]).
  destruct (ilog2_spec a Ha) as [H3 H4].
  assert (e < ilog2 a + 1) by (apply pow2_lt_inv; eapply Qle_lt_trans; eassumption).
  assert (ilog2 a < e + 1) by (apply pow2_lt_inv; eapply Qle_lt_trans; eassumption).
  lia.
Qed.

Lemma ilog2_comp (a b : Q) : (0 < a)%Q -> (a == b)%Q -> ilog2 a = ilog2 b.
Proof.
  intros Ha E. symmetry. apply ilog2_unique. rewrite <- E. now apply ilog2_spec.
Qed.

Lemma ilog2_mono (a b : Q) : (0 < a)%Q -> (a <= b)%Q -> ilog2 a <= ilog2 b.
Proof.
  intros Ha Hab.
  assert (Hb : (0 < b)%Q) by Lqa.lra.
  destruct (ilog2_spec a Ha) as [H1 _], (ilog2_spec b Hb) as [_ H2].
  assert (ilog2 a < ilog2 b + 1); [|lia].
  apply pow2_lt_inv. Lqa.lra.
Qed.

(** *** Rounding at a fixed exponent *)

Lemma round_to_comp (k : Z) (a b : Q) : (a == b)%Q -> (round_to k a == round_to k b)%Q.
Proof.
  intros H. unfold round_to.
  rewrite (rhe_comp (a / 2 ^ k) (b / 2 ^ k)); [reflexivity | now rewrite H].
Qed.

Lemma div_pow2_le (k : Z) (a b : Q) : (a <= b)%Q -> (a / 2 ^ k <= b / 2 ^ k)%Q.
Proof.
  intros H. unfold Qdiv. apply Qmult_le_compat_r; [exact H|].
  apply Qlt_le_weak, Qinv_lt_0_compat, pow2_pos.
Qed.

Lemma round_to_mono (k : Z) (a b : Q) : (a <= b)%Q -> (round_to k a <= round_to k b)%Q.
Proof.
  intros H. unfold round_to.
  apply Qmult_le_compat_r; [|apply Qlt_le_weak, pow2_pos].
  rewrite <- Zle_Qle. apply rhe_mono, div_pow2_le, H.
Qed.

Lemma round_to_exact (k z : Z) : (round_to k (inject_Z z * 2 ^ k) == inject_Z z * 2 ^ k)%Q.
Proof.
  unfold round_to.
  rewrite (rhe_comp (inject_Z z * 2 ^ k / 2 ^ k) (inject_Z z)).
  - now rewrite rhe_Z.
  - apply Qdiv_mult_l. pose proof (pow2_pos k). Lqa.lra.
Qed.

Lemma round_to_close (k : Z) (a : Q) :
  (a - 2 ^ k * (1 # 2) <= round_to k a <= a + 2 ^ k * (1 # 2))%Q.
Proof.
  unfold round_to. pose proof (pow2_pos k) as Hp.
  pose proof (rhe_close (a / 2 ^ k)) as [H1 H2].
  set (m := inject_Z (round_half_even (a / 2 ^ k))) in *.
  assert (E : (a == a / 2 ^ k * 2 ^ k)%Q) by (field; Lqa.lra).
  set (s := (a / 2 ^ k)%Q) in *. set (p := (2 ^ k)%Q) in *.
  split.
  - apply Qle_trans with ((s - (1 # 2)) * p)%Q; [rewrite E; Lqa.lra|].
    apply Qmult_le_compat_r; Lqa.lra.
  - apply Qle_trans with ((s + (1 # 2)) * p)%Q; [|rewrite E; Lqa.lra].
    apply Qmult_le_compat_r; Lqa.lra.
Qed.

(** *** Rounding a positive number to 53 bits *)

Lemma pow2_52 (e : Z) : (2 ^ e == inject_Z (2 ^ 52) * 2 ^ (e - 52))%Q.
Proof.
  rewrite pow2_Z by lia. rewrite <- pow2_plus. now replace (52 + (e - 52)) with e by lia.
Qed.

Lemma round_pos_bounds (a : Q) :
  (0 < a)%Q -> (2 ^ ilog2 a <= round_pos a <= 2 ^ (ilog2 a + 1))%Q.
Proof.
  intros Ha. destruct (ilog2_spec a Ha) as [H1 H2]. unfold round_pos.
  set (e := ilog2 a) in *. split.
  - rewrite (pow2_52 e) at 1. rewrite <- (round_to_exact (e - 52) (2 ^ 52)).
    apply round_to_mono. now rewrite <- pow2_52.
  - assert (E : (2 ^ (e + 1) == inject_Z (2 ^ 53) * 2 ^ (e - 52))%Q).
    { rewrite pow2_Z by lia. rewrite <- pow2_plus. now replace (53 + (e - 52)) with (e + 1) by lia. }
    rewrite E. rewrite <- (round_to_exact (e - 52) (2 ^ 53)).
    apply round_to_mono. rewrite <- E. now apply Qlt_le_weak.
Qed.

Lemma round_pos_positive (a : Q) : (0 < a)%Q -> (0 < round_pos a)%Q.
Proof.
  intros Ha. eapply Qlt_le_trans; [apply (pow2_pos (ilog2 a)) | now apply round_pos_bounds].
Qed.

Lemma round_pos_comp (a b : Q) : (0 < a)%Q -> (a == b)%Q -> (round_pos a == round_pos b)%Q.
Proof.
  intros Ha E. unfold round_pos. rewrite (ilog2_comp a b Ha E). now apply round_to_comp.
Qed.

Lemma round_pos_mono (a b : Q) : (0 < a)%Q -> (a <= b)%Q -> (round_pos a <= round_pos b)%Q.
Proof.
  intros Ha Hab. assert (Hb : (0 < b)%Q) by Lqa.lra.
  pose proof (ilog2_mono a b Ha Hab) as He.
  destruct (Z.eq_dec (ilog2 a) (ilog2 b)) as [E|NE].
  - unfold round_pos. rewrite E. now apply round_to_mono.
  - destruct (round_pos_bounds a Ha) as [_ H1], (round_pos_bounds b Hb) as [H2 _].
    apply Qle_trans with (2 ^ (ilog2 a + 1))%Q; [exact H1|].
    apply Qle_trans with (2 ^ ilog2 b)%Q; [apply pow2_le; lia | exact H2].
Qed.

Lemma round_pos_close (a : Q) :
  (0 < a)%Q ->
  (a - a * (1 # 2 ^ 53) <= round_pos a <= a + a * (1 # 2 ^ 53))%Q.
Proof.
  intros Ha. destruct (ilog2_spec a Ha) as [H1 _]. unfold round_pos.
  pose proof (round_to_close (ilog2 a - 52) a) as [H2 H3].
  set (e := ilog2 a) in *.
  assert (E : (2 ^ (e - 52) * (1 # 2) == 2 ^ e * (1 # 2 ^ 53))%Q).
  { rewrite (pow2_52 e). change (inject_Z (2 ^ 52)) with (2 ^ 52 # 1)%Q.
    set (p := (2 ^ (e - 52))%Q). change (2 ^ 52 # 1)%Q with (4503599627370496 # 1)%Q.
    change (1 # 2 ^ 53)%Q with (1 # 9007199254740992)%Q. ring. }
  rewrite E in H2, H3.
  assert (Hm : (2 ^ e * (1 # 2 ^ 53) <= a * (1 # 2 ^ 53))%Q).
  { apply Qmult_le_compat_r; [exact H1 | discriminate]. }
  split; Lqa.lra.
Qed.

(** *** Rounding to 53 bits *)

Lemma round64_pos (q : Q) : (0 < q)%Q -> round64 q = round_pos q.
Proof.
  intros H. unfold round64. destruct (Qcompare_spec q 0); try reflexivity; Lqa.lra.
Qed.

Lemma round64_neg (q : Q) : (q < 0)%Q -> round64 q = (- round_pos (- q))%Q.
Proof.
  intros H. unfold round64. destruct (Qcompare_spec q 0); try reflexivity; Lqa.lra.
Qed.

Lemma round64_zero (q : Q) : (q == 0)%Q -> round64 q = 0%Q.
Proof.
  intros H. unfold round64. destruct (Qcompare_spec q 0); try reflexivity; Lqa.lra.
Qed.

#[export] Instance round64_comp : Proper (Qeq ==> Qeq) round64.
Proof.
  intros q q' E.
  destruct (Qcompare_spec q 0) as [H|H|H].
  - rewrite (round64_zero q H), (round64_zero q'); [reflexivity | Lqa.lra].
  - rewrite (round64_neg q H), (round64_neg q') by Lqa.lra.
    apply Qopp_comp, round_pos_comp; Lqa.lra.
  - rewrite (round64_pos q H), (round64_pos q') by Lqa.lra. now apply round_pos_comp.
Qed.

Lemma round64_positive (q : Q) : (0 < q)%Q -> (0 < round64 q)%Q.
Proof. intros H. rewrite round64_pos by exact H. now apply round_pos_positive. Qed.

Lemma round64_negative (q : Q) : (q < 0)%Q -> (round64 q < 0)%Q.
Proof.
  intros H. rewrite round64_neg by exact H.
  assert (0 < round_pos (- q))%Q by (apply round_pos_positive; Lqa.lra). Lqa.lra.
Qed.

Lemma round64_eq_0 (q : Q) : (round64 q == 0)%Q <-> (q == 0)%Q.
Proof.
  split; intros H.
  - destruct (Qcompare_spec q 0) as [E|E|E]; [exact E| |].
    + pose proof (round64_negative q E). Lqa.lra.
    + pose proof (round64_positive q E). Lqa.lra.
  - now rewrite (round64_zero q H).
Qed.

Lemma round64_opp (q : Q) : (round64 (- q) == - round64 q)%Q.
Proof.
  destruct (Qcompare_spec q 0) as [H|H|H].
  - rewrite (round64_zero q H), (round64_zero (- q)); Lqa.lra.
  - rewrite (round64_neg q H), (round64_pos (- q)) by Lqa.lra. Lqa.lra.
  - rewrite (round64_pos q H), (round64_neg (- q)) by Lqa.lra.
    rewrite (round_pos_comp (- - q) q); Lqa.lra.
Qed.

Lemma round64_mono (a b : Q) : (a <= b)%Q -> (round64 a <= round64 b)%Q.
Proof.
  intros Hab.
  destruct (Qcompare_spec a 0) as [Ha|Ha|Ha], (Qcompare_spec b 0) as [Hb|Hb|Hb];
    try (exfalso; Lqa.lra).
  - rewrite (round64_zero a Ha), (round64_zero b Hb). Lqa.lra.
  - rewrite (round64_zero a Ha). apply Qlt_le_weak. now apply round64_positive.
  - rewrite (round64_zero b Hb). apply Qlt_le_weak. now apply round64_negative.
  - rewrite (round64_neg a Ha), (round64_neg b Hb).
    assert (round_pos (- b) <= round_pos (- a))%Q by (apply round_pos_mono; Lqa.lra). Lqa.lra.
  - pose proof (round64_negative a Ha). pose proof (round64_positive b Hb). Lqa.lra.
  - rewrite (round64_pos a Ha), (round64_pos b Hb). now apply round_pos_mono.
Qed.

(** The relative error of a rounding is at most 2^-53. *)
Lemma round64_close (q : Q) :
  (Qabs (round64 q - q) <= Qabs q * (1 # 2 ^ 53))%Q.
Proof.
  destruct (Qcompare_spec q 0) as [H|H|H].
  - rewrite (round64_zero q H). rewrite H. cbn. discriminate.
  - rewrite (round64_neg q H).
    destruct (round_pos_close (- q)) as [H1 H2]; [Lqa.lra|].
    rewrite (Qabs_neg q) by Lqa.lra. apply Qabs_case; intros; Lqa.lra.
  - rewrite (round64_pos q H).
    destruct (round_pos_close q H) as [H1 H2].
    rewrite (Qabs_pos q) by Lqa.lra. apply Qabs_case; intros; Lqa.lra.
Qed.

(** *** Representable numbers *)

Lemma round_pos_double (m k : Z) :
  0 < m < 2 ^ 53 -> (round_pos (inject_Z m * 2 ^ k) == inject_Z m * 2 ^ k)%Q.
Proof.
  intros Hm. set (x := (inject_Z m * 2 ^ k)%Q).
  assert (Hmq : (0 < inject_Z m)%Q) by (change 0%Q with (inject_Z 0); rewrite <- Zlt_Qlt; lia).
  assert (Hx : (0 < x)%Q) by (apply Qmult_lt_0_compat; [exact Hmq | apply pow2_pos]).
  destruct (ilog2_spec x Hx) as [H1 _].
  assert (Hlt : (x < 2 ^ (53 + k))%Q).
  { unfold x. rewrite pow2_plus. apply Qmult_lt_compat_r; [apply pow2_pos|].
    rewrite <- pow2_Z by lia. rewrite <- Zlt_Qlt. lia. }
  assert (He : ilog2 x < 53 + k) by (apply pow2_lt_inv; Lqa.lra).
  unfold round_pos. remember (ilog2 x) as e eqn:Ee. clear Ee H1.
  set (j := k - (e - 52)). assert (Hj : 0 <= j) by (unfold j; lia).
  assert (E : (x == inject_Z (m * 2 ^ j) * 2 ^ (e - 52))%Q).
  { unfold x. rewrite inject_Z_mult, pow2_Z by exact Hj.
    rewrite <- Qmult_assoc, <- pow2_plus. now replace (j + (e - 52)) with k by (unfold j; lia). }
  rewrite (round_to_comp _ _ _ E), round_to_exact. now rewrite <- E.
Qed.

Lemma round64_double (x : Q) : is_double x -> (round64 x == x)%Q.
Proof.
  intros [m [k [Hm E]]]. rewrite E.
  destruct (Z.lt_trichotomy m 0) as [H|[H|H]].
  - assert (E' : (inject_Z m * 2 ^ k == - (inject_Z (- m) * 2 ^ k))%Q).
    { rewrite inject_Z_opp. ring. }
    rewrite E', round64_opp.
    assert (Hp : (0 < inject_Z (- m) * 2 ^ k)%Q).
    { apply Qmult_lt_0_compat; [|apply pow2_pos].
      change 0%Q with (inject_Z 0). rewrite <- Zlt_Qlt. lia. }
    rewrite (round64_pos _ Hp), round_pos_double; [reflexivity | lia].
  - subst m. rewrite round64_zero; [|ring]. ring.
  - assert (Hp : (0 < inject_Z m * 2 ^ k)%Q).
    { apply Qmult_lt_0_compat; [|apply pow2_pos].
      change 0%Q with (inject_Z 0). rewrite <- Zlt_Qlt. lia. }
    rewrite (round64_pos _ Hp), round_pos_double; [reflexivity | lia].
Qed.

Lemma round_pos_is_double (a : Q) : (0 < a)%Q -> is_double (round_pos a).
Proof.
  intros Ha. pose proof (round_pos_bounds a Ha) as [H1 H2].
  unfold round_pos, round_to in *. set (e := ilog2 a) in *.
  set (m := round_half_even (a / 2 ^ (e - 52))) in *.
  assert (Hm : m <= 2 ^ 53).
  { rewrite Zle_Qle. apply Qmult_le_r with (2 ^ (e - 52))%Q; [apply pow2_pos|].
    rewrite pow2_Z, <- pow2_plus by lia. now replace (53 + (e - 52)) with (e + 1) by lia. }
  assert (Hm0 : 2 ^ 52 <= m).
  { rewrite Zle_Qle. apply Qmult_le_r with (2 ^ (e - 52))%Q; [apply pow2_pos|].
    rewrite pow2_Z, <- pow2_plus by lia. now replace (52 + (e - 52)) with e by lia. }
  destruct (Z.eq_dec m (2 ^ 53)) as [E|NE].
  - exists (2 ^ 52), (e - 51). split; [reflexivity|]. rewrite E.
    rewrite !pow2_Z, <- !pow2_plus by lia. now replace (53 + (e - 52)) with (52 + (e - 51)) by lia.
  - exists m, (e - 52). split; [lia | reflexivity].
Qed.

Lemma round64_is_double (q : Q) : is_double (round64 q).
Proof.
  destruct (Qcompare_spec q 0) as [H|H|H].
  - rewrite (round64_zero q H). exists 0, 0. split; [reflexivity | ring].
  - rewrite (round64_neg q H).
    destruct (round_pos_is_double (- q)) as [m [k [Hm E]]]; [Lqa.lra|].
    exists (- m), k. split; [lia|]. rewrite E, inject_Z_opp. ring.
  - rewrite (round64_pos q H). now apply round_pos_is_double.
Qed.

Lemma round64_idempotent (q : Q) : (round64 (round64 q) == round64 q)%Q.
Proof. apply round64_double, round64_is_double. Qed.

Lemma is_double_Z (z : Z) : Z.abs z < 2 ^ 53 -> is_double (inject_Z z).
Proof. intros H. exists z, 0. split; [exact H | change (2 ^ 0)%Q with 1%Q; ring]. Qed.

(** Doubles above a double [c] on the grid of spacing [2^g] are at least one
    step above it. *)
Lemma double_gap (x : Q) (c g : Z) :
  is_double x -> 2 ^ 52 <= c -> (inject_Z c * 2 ^ g < x)%Q ->
  (inject_Z (c + 1) * 2 ^ g <= x)%Q.
Proof.
  intros [m [k [Hm E]]] Hc Hx. rewrite E in *.
  assert (Hmpos : 0 < m).
  { destruct (Z_lt_le_dec 0 m) as [H|H]; [exact H|]. exfalso.
    assert (inject_Z m * 2 ^ k <= 0)%Q.
    { setoid_replace 0%Q with (0 * 2 ^ k)%Q by ring.
      apply Qmult_le_compat_r; [|apply Qlt_le_weak, pow2_pos].
      change 0%Q with (inject_Z 0). rewrite <- Zle_Qle. exact H. }
    assert (0 < inject_Z c * 2 ^ g)%Q.
    { apply Qmult_lt_0_compat; [|apply pow2_pos].
      change 0%Q with (inject_Z 0). rewrite <- Zlt_Qlt. lia. }
    Lqa.lra. }
  destruct (Z_lt_le_dec k g) as [Hk|Hk].
  - exfalso.
    assert (H1 : (inject_Z m * 2 ^ k <= inject_Z (2 ^ 53) * 2 ^ (g - 1))%Q).
    { apply Qle_trans with (inject_Z (2 ^ 53) * 2 ^ k)%Q.
      - apply Qmult_le_compat_r; [|apply Qlt_le_weak, pow2_pos]. rewrite <- Zle_Qle. lia.
      - apply Qmult_le_l; [reflexivity | apply pow2_le; lia]. }
    assert (H2 : (inject_Z (2 ^ 53) * 2 ^ (g - 1) == inject_Z (2 ^ 52) * 2 ^ g)%Q).
    { rewrite !pow2_Z, <- !pow2_plus by lia. now replace (53 + (g - 1)) with (52 + g) by lia. }
    assert (H3 : (inject_Z (2 ^ 52) * 2 ^ g <= inject_Z c * 2 ^ g)%Q).
    { apply Qmult_le_compat_r; [|apply Qlt_le_weak, pow2_pos]. now rewrite <- Zle_Qle. }
    Lqa.lra.
  - set (j := k - g). assert (Hj : 0 <= j) by (unfold j; lia).
    assert (E' : (inject_Z m * 2 ^ k == inject_Z (m * 2 ^ j) * 2 ^ g)%Q).
    { rewrite inject_Z_mult, pow2_Z by exact Hj.
      rewrite <- Qmult_assoc, <- pow2_plus. now replace (j + g) with k by (unfold j; lia). }
    rewrite E' in *.
    apply Qmult_lt_r in Hx; [|apply pow2_pos]. rewrite <- Zlt_Qlt in Hx.
    apply Qmult_le_compat_r; [|apply Qlt_le_weak, pow2_pos]. rewrite <- Zle_Qle. lia.
Qed.

Lemma Qltb_lt (a b : Q) : Qltb a b = true <-> (a < b)%Q.
Proof.
  unfold Qltb. destruct (Qcompare_spec a b); split; intros; try congruence; Lqa.lra.
Qed.

(** *** Square roots *)

Lemma Qsquare_le_inv (a b : Q) : (0 <= b)%Q -> (a * a <= b * b)%Q -> (a <= b)%Q.
Proof.
  intros Hb H. destruct (Qlt_le_dec b a) as [Hlt|Hle]; [|exact Hle]. exfalso.
  assert (b * b < a * a)%Q; [|Lqa.lra].
  apply Qle_lt_trans with (b * a)%Q.
  - apply Qmult_le_compat_nonneg; split; Lqa.lra.
  - apply Qmult_lt_compat_r; Lqa.lra.
Qed.

Lemma sqrt64_parts (x : Q) :
  (0 < x)%Q ->
  exists k f m : Z,
    sqrt64 x = (inject_Z m * 2 ^ k)%Q /\ 2 ^ 52 <= f /\
    (x == x / 2 ^ (2 * k) * (2 ^ k * 2 ^ k))%Q /\
    (inject_Z f * inject_Z f <= x / 2 ^ (2 * k))%Q /\
    ((m = f /\
      (x / 2 ^ (2 * k) <= (inject_Z f + (1 # 2)) * (inject_Z f + (1 # 2)))%Q) \/
     (m = f + 1 /\
      ((inject_Z f + (1 # 2)) * (inject_Z f + (1 # 2)) <= x / 2 ^ (2 * k))%Q /\
      (x / 2 ^ (2 * k) < inject_Z (f + 1) * inject_Z (f + 1))%Q)).
Proof.
  intros Hx. unfold sqrt64.
  destruct (Qcompare_spec x 0) as [H|H|_]; [Lqa.lra | Lqa.lra |].
  destruct (ilog2_spec x Hx) as [He _].
  set (e := ilog2 x) in *. set (k := e / 2 - 52).
  set (s := (x / 2 ^ (2 * k))%Q). set (f := Z.sqrt (Qfloor s)).
  assert (Hk : 2 * k + 104 <= e).
  { unfold k. pose proof (Z.mul_div_le e 2 eq_refl). lia. }
  assert (Hp : (0 < 2 ^ (2 * k))%Q) by apply pow2_pos.
  assert (Hs : (inject_Z (2 ^ 104) <= s)%Q).
  { unfold s. apply Qle_shift_div_l; [exact Hp|].
    rewrite pow2_Z, <- pow2_plus by lia.
    apply Qle_trans with (2 ^ e)%Q; [apply pow2_le; lia | exact He]. }
  assert (Hfl : 2 ^ 104 <= Qfloor s).
  { rewrite <- (Qfloor_Z (2 ^ 104)). now apply Qfloor_resp_le. }
  assert (Hf : 2 ^ 52 <= f).
  { unfold f. change (2 ^ 52) with (Z.sqrt (2 ^ 104)). now apply Z.sqrt_le_mono. }
  destruct (Z.sqrt_spec (Qfloor s)) as [Hq1 Hq2]; [lia|]. fold f in Hq1, Hq2.
  destruct (floor_bounds s) as [Hb1 Hb2].
  assert (H1 : (inject_Z f * inject_Z f <= s)%Q).
  { rewrite <- inject_Z_mult. apply Qle_trans with (inject_Z (Qfloor s)); [|exact Hb1].
    now rewrite <- Zle_Qle. }
  assert (H2 : (s < inject_Z (f + 1) * inject_Z (f + 1))%Q).
  { rewrite <- inject_Z_mult. apply Qlt_le_trans with (inject_Z (Qfloor s) + 1)%Q; [exact Hb2|].
    change 1%Q with (inject_Z 1). rewrite <- inject_Z_plus, <- Zle_Qle.
    unfold Z.succ in Hq2. lia. }
  assert (Hxs : (x == s * (2 ^ k * 2 ^ k))%Q).
  { unfold s. rewrite <- pow2_plus. replace (k + k) with (2 * k) by lia. field. apply pow2_nonzero. }
  destruct (Qcompare_spec s ((inject_Z f + (1 # 2)) * (inject_Z f + (1 # 2)))) as [E|E|E].
  - destruct (Z.even f).
    + exists k, f, f. fold s. repeat split; try assumption. left. split; [reflexivity|Lqa.lra].
    + exists k, f, (f + 1). fold s. repeat split; try assumption.
      right. repeat split; [Lqa.lra | exact H2].
  - exists k, f, f. fold s. repeat split; try assumption. left. split; [reflexivity | Lqa.lra].
  - exists k, f, (f + 1). fold s. repeat split; try assumption.
    right. repeat split; [Lqa.lra | exact H2].
Qed.

Lemma sqrt64_nonneg (x : Q) : (0 <= sqrt64 x)%Q.
Proof.
  destruct (Qlt_le_dec 0 x) as [Hx|Hx].
  - destruct (sqrt64_parts x Hx) as [k [f [m [-> [Hf [_ [_ Hm]]]]]]].
    apply Qmult_le_0_compat; [|apply Qlt_le_weak, pow2_pos].
    change 0%Q with (inject_Z 0). rewrite <- Zle_Qle. destruct Hm as [[-> _]|[-> _]]; lia.
  - unfold sqrt64. destruct (Qcompare_spec x 0); Lqa.lra.
Qed.

(** A binary64 number that is at least the square root is at least its
    rounding. *)
Lemma sqrt64_le (x r : Q) :
  is_double r -> (0 <= r)%Q -> (x <= r * r)%Q -> (sqrt64 x <= r)%Q.
Proof.
  intros Hd Hr Hxr.
  destruct (Qlt_le_dec 0 x) as [Hx|Hx].
  2:{ unfold sqrt64. destruct (Qcompare_spec x 0); Lqa.lra. }
  destruct (sqrt64_parts x Hx) as [k [f [m [-> [Hf [Hxs [H1 Hm]]]]]]].
  set (s := (x / 2 ^ (2 * k))%Q) in *. set (p := (2 ^ k)%Q) in *.
  assert (Hp : (0 < p)%Q) by apply pow2_pos.
  assert (Hpp : (0 < p * p)%Q) by now apply Qmult_lt_0_compat.
  assert (Hf0 : (0 < inject_Z f)%Q) by (change 0%Q with (inject_Z 0); rewrite <- Zlt_Qlt; lia).
  destruct Hm as [[-> _]|[-> [Hhalf _]]].
  - apply Qsquare_le_inv; [exact Hr|].
    apply Qle_trans with x; [|exact Hxr]. rewrite Hxs.
    setoid_replace (inject_Z f * p * (inject_Z f * p))%Q
      with (inject_Z f * inject_Z f * (p * p))%Q by ring.
    apply Qmult_le_compat_r; Lqa.lra.
  - apply double_gap; [exact Hd | exact Hf |].
    apply Qnot_le_lt. intros Hle.
    assert (Hsq : (r * r <= inject_Z f * p * (inject_Z f * p))%Q).
    { apply Qmult_le_compat_nonneg; split; assumption. }
    assert (Hlt : (inject_Z f * inject_Z f * (p * p) < s * (p * p))%Q).
    { apply Qmult_lt_compat_r; [exact Hpp|].
      apply Qlt_le_trans with ((inject_Z f + (1 # 2)) * (inject_Z f + (1 # 2)))%Q; [|exact Hhalf].
      setoid_replace ((inject_Z f + (1 # 2)) * (inject_Z f + (1 # 2)))%Q
        with (inject_Z f * inject_Z f + inject_Z f + (1 # 4))%Q by ring.
      Lqa.lra. }
    setoid_replace (inject_Z f * p * (inject_Z f * p))%Q
      with (inject_Z f * inject_Z f * (p * p))%Q in Hsq by ring.
    rewrite <- Hxs in Hlt. Lqa.lra.
Qed.

(** The rounded square root is at most half a unit in the last place
    below the square root. *)
Lemma sqrt64_ge (x : Q) :
  (0 <= x)%Q ->
  (x <= sqrt64 x * (1 + (1 # 2 ^ 53)) * (sqrt64 x * (1 + (1 # 2 ^ 53))))%Q.
Proof.
  intros Hx0. destruct (Qle_lt_or_eq _ _ Hx0) as [Hx|Hx].
  2:{ apply Qle_trans with 0%Q; [Lqa.lra|]. pose proof (sqrt64_nonneg x).
      apply Qmult_le_0_compat; apply Qmult_le_0_compat; (assumption || discriminate). }
  destruct (sqrt64_parts x Hx) as [k [f [m [-> [Hf [Hxs [H1 Hm]]]]]]].
  set (s := (x / 2 ^ (2 * k))%Q) in *. set (p := (2 ^ k)%Q) in *.
  assert (Hp : (0 < p)%Q) by apply pow2_pos.
  assert (Hpp : (0 < p * p)%Q) by now apply Qmult_lt_0_compat.
  assert (Hf0 : (inject_Z (2 ^ 52) <= inject_Z f)%Q) by (now rewrite <- Zle_Qle).
  change (inject_Z (2 ^ 52)) with (4503599627370496 # 1)%Q in Hf0.
  change (1 # 2 ^ 53)%Q with (1 # 9007199254740992)%Q.
  assert (Hs : (s <= (inject_Z m + (1 # 2)) * (inject_Z m + (1 # 2)))%Q /\
               (inject_Z f <= inject_Z m)%Q).
  { destruct Hm as [[-> H]|[-> [_ H]]].
    - split; [exact H | Lqa.lra].
    - rewrite inject_Z_plus in *. change (inject_Z 1) with 1%Q in *. split; [|Lqa.lra].
      apply Qlt_le_weak. eapply Qlt_le_trans; [exact H|].
      apply Qmult_le_compat_nonneg; split; Lqa.lra. }
  destruct Hs as [Hs Hfm].
  set (M := inject_Z m) in *.
  assert (HM : (M + (1 # 2) <= M * (1 + (1 # 9007199254740992)))%Q) by Lqa.lra.
  rewrite Hxs at 1.
  setoid_replace (M * p * (1 + (1 # 9007199254740992)) * (M * p * (1 + (1 # 9007199254740992))))%Q
    with (M * (1 + (1 # 9007199254740992)) * (M * (1 + (1 # 9007199254740992))) * (p * p))%Q by ring.
  apply Qmult_le_compat_r; [|Lqa.lra].
  eapply Qle_trans; [exact Hs|].
  apply Qmult_le_compat_nonneg; split; Lqa.lra.
Qed.

(** *** Integers in binary64 *)

Lemma binary64_small_Z (z : Z) :
  0 <= z < 2 ^ 53 -> exists r, binary64 (inject_Z z) = Finite r /\ (r == inject_Z z)%Q.
Proof.
  intros Hz. unfold binary64.
  destruct (Qcompare_spec (inject_Z z) 0) as [E|E|E].
  - exists 0%Q. split; [reflexivity | now rewrite E].
  - exfalso. change 0%Q with (inject_Z 0) in E. rewrite <- Zlt_Qlt in E. lia.
  - assert (Hpos : 0 < z) by (change 0%Q with (inject_Z 0) in E; now rewrite <- Zlt_Qlt in E).
    set (x := inject_Z z) in *.
    destruct (ilog2_spec x E) as [He1 He2].
    assert (He : 0 <= ilog2 x < 53).
    { split.
      - assert (0 < ilog2 x + 1); [|lia]. apply pow2_lt_inv.
        eapply Qle_lt_trans; [|exact He2].
        change (2 ^ 0)%Q with (inject_Z 1). unfold x. rewrite <- Zle_Qle. lia.
      - apply pow2_lt_inv. eapply Qle_lt_trans; [exact He1|].
        rewrite <- pow2_Z by lia. unfold x. rewrite <- Zlt_Qlt. lia. }
    rewrite Z.max_l by lia.
    set (j := 52 - ilog2 x). 
    assert (Er : (round_to (ilog2 x - 52) x == x)%Q).
    { assert (Ex : (x == inject_Z (z * 2 ^ j) * 2 ^ (ilog2 x - 52))%Q).
      { unfold x. rewrite inject_Z_mult, pow2_Z by (unfold j; lia).
        rewrite <- Qmult_assoc, <- pow2_plus.
        replace (j + (ilog2 (inject_Z z) - 52)) with 0 by (unfold j, x; lia).
        change (2 ^ 0)%Q with 1%Q. ring. }
      rewrite (round_to_comp _ _ _ Ex), round_to_exact. now rewrite <- Ex. }
    exists (round_to (ilog2 x - 52) x). split; [|exact Er].
    destruct (Qltb max_float (round_to (ilog2 x - 52) x)) eqn:Eo; [|reflexivity].
    exfalso. apply Qltb_lt in Eo. rewrite Er in Eo.
    assert (x < inject_Z (2 ^ 53))%Q by (unfold x; rewrite <- Zlt_Qlt; lia).
    assert (inject_Z (2 ^ 53) <= max_float)%Q by (vm_compute; discriminate).
    Lqa.lra.
Qed.

Lemma sqrt64_comp (x y : Q) : (0 <= x)%Q -> (x == y)%Q -> (sqrt64 x == sqrt64 y)%Q.
Proof.
  intros Hx E. unfold sqrt64.
  destruct (Qcompare_spec x 0) as [H|H|H], (Qcompare_spec y 0) as [H'|H'|H'];
    try reflexivity; try (exfalso; Lqa.lra).
  rewrite <- (ilog2_comp x y H E).
  set (k := ilog2 x / 2 - 52).
  assert (Es : (x / 2 ^ (2 * k) == y / 2 ^ (2 * k))%Q) by now rewrite E.
  rewrite <- (Qfloor_comp _ _ Es).
  set (f := Z.sqrt (Qfloor (x / 2 ^ (2 * k)))).
  rewrite <- (Qcompare_comp _ _ Es _ _ (Qeq_refl _)). reflexivity.
Qed.

(** ** The deterministic runtime obeys the laws *)

Lemma test_randint_range (a b : Z) (w : TestWorld) :
  a <= b -> a <= fst (test_randint a b w) <= b.
Proof.
  intros Hab. unfold test_randint. cbn [fst].
  pose proof (Z.mod_pos_bound (seed w) (b - a + 1) ltac:(lia)). lia.
Qed.

Lemma test_uniform_range (a b : Q) (w : TestWorld) :
  (a <= b)%Q -> (a <= fst (test_uniform a b w) <= b)%Q.
Proof.
  intros Hab. unfold test_uniform. cbn [fst].
  destruct (seed w mod 3) as [|[| |]|]; Lqa.lra.
Qed.

Lemma test_index_range (n : nat) (w : TestWorld) :
  (0 < n)%nat -> (fst (test_index n w) < n)%nat.
Proof.
  intros Hn. unfold test_index. cbn [fst].
  pose proof (Z.mod_pos_bound (seed w) (Z.of_nat n) ltac:(lia)). lia.
Qed.

#[export] Instance TestRuntime : Runtime := {|
  world := TestWorld;
  random_randint := test_randint;
  random_uniform := test_uniform;
  random_index := test_index;
  datetime_now := test_now;
  time_time := test_time;
  str_of_area := test_str_of_area;
  isoformat := test_isoformat;
  libm_pow2 := test_pow2;
  randint_range := test_randint_range;
  uniform_range := test_uniform_range;
  index_range := test_index_range
|}.

(** ** Sums, datetimes, dictionaries *)

Lemma fold_add_shift (l : list Z) (a : Z) : fold_left Z.add l a = a + py_sum l.
Proof.
  unfold py_sum. revert a.
  induction l as [|x l IH]; intros a; cbn [fold_left].
  - lia.
  - rewrite (IH (a + x)), (IH (0 + x)). lia.
Qed.

Lemma py_sum_cons (x : Z) (l : list Z) : py_sum (x :: l) = x + py_sum l.
Proof. unfold py_sum at 1. cbn [fold_left]. rewrite fold_add_shift. lia. Qed.

Lemma py_sum_app (l l' : list Z) : py_sum (l ++ l') = py_sum l + py_sum l'.
Proof.
  induction l as [|x l IH]; cbn [app].
  - reflexivity.
  - rewrite !py_sum_cons, IH. lia.
Qed.

Lemma datetime_eqb_eq (a b : datetime) : datetime_eqb a b = true <-> a = b.
Proof.
  unfold datetime_eqb. destruct a, b. cbn [dt_ordinal dt_hour dt_minute dt_second dt_microsecond].
  rewrite !andb_true_iff, !Z.eqb_eq. split.
  - intros [[[[-> ->] ->] ->] ->]. reflexivity.
  - intros H. injection H as -> -> -> -> ->. repeat split.
Qed.

Lemma length_range (n : Z) : length (range n) = Z.to_nat n.
Proof. unfold range. now rewrite length_map, length_seq. Qed.

Section DictFacts.
Context {K V : Type} (eqb : K -> K -> bool).
Hypothesis eqb_eq : forall a b, eqb a b = true <-> a = b.

Lemma eqb_refl' (a : K) : eqb a a = true.
Proof. now apply eqb_eq. Qed.

Lemma eqb_trans_l (a b c : K) : eqb a b = true -> eqb c a = eqb c b.
Proof. intros H. apply eqb_eq in H. now subst. Qed.

Lemma dict_get_set (d : list (K * V)) (k : K) (v : V) (k' : K) :
  dict_get eqb (dict_set eqb d k v) k' =
  if eqb k' k then Some v else dict_get eqb d k'.
Proof.
  induction d as [|[k0 v0] d IH]; cbn [dict_set dict_get].
  - reflexivity.
  - destruct (eqb k k0) eqn:E; cbn [dict_get].
    + rewrite (eqb_trans_l _ _ k' E). destruct (eqb k' k0); reflexivity.
    + rewrite IH. destruct (eqb k' k0) eqn:E'; [|reflexivity].
      destruct (eqb k' k) eqn:E''; [|reflexivity].
      apply eqb_eq in E', E''. subst. now rewrite eqb_refl' in E.
Qed.

Lemma dict_get_upsert (d : list (K * V)) (k : K) (i : V) (f : V -> V) (k' : K) :
  dict_get eqb (dict_upsert eqb d k i f) k' =
  if eqb k' k
  then Some (f (match dict_get eqb d k with Some v => v | None => i end))
  else dict_get eqb d k'.
Proof.
  unfold dict_upsert. destruct (dict_get eqb d k); apply dict_get_set.
Qed.

Lemma dict_get_None (d : list (K * V)) (k : K) :
  dict_get eqb d k = None <-> ~ In k (map fst d).
Proof.
  induction d as [|[k0 v0] d IH]; cbn [dict_get map fst In].
  - tauto.
  - destruct (eqb k k0) eqn:E.
    + apply eqb_eq in E. subst. split; [discriminate | tauto].
    + rewrite IH. split; [|tauto].
      intros H [->|H']; [|tauto]. now rewrite eqb_refl' in E.
Qed.

Lemma keys_set (d : list (K * V)) (k : K) (v : V) :
  map fst (dict_set eqb d k v) =
  match dict_get eqb d k with
  | Some _ => map fst d
  | None => map fst d ++ [k]
  end.
Proof.
  induction d as [|[k0 v0] d IH]; cbn [dict_set dict_get map fst app].
  - reflexivity.
  - destruct (eqb k k0); cbn [map fst]; [reflexivity|].
    rewrite IH. destruct (dict_get eqb d k); reflexivity.
Qed.

Lemma NoDup_keys_set (d : list (K * V)) (k : K) (v : V) :
  NoDup (map fst d) -> NoDup (map fst (dict_set eqb d k v)).
Proof.
  intros H. rewrite keys_set. destruct (dict_get eqb d k) eqn:E; [assumption|].
  apply dict_get_None in E.
  apply NoDup_rev in H. rewrite <- (rev_involutive (map fst d ++ [k])).
  apply NoDup_rev. rewrite rev_app_distr. cbn [rev app].
  constructor; [|assumption]. now rewrite <- in_rev.
Qed.

Lemma NoDup_keys_upsert (d : list (K * V)) (k : K) (i : V) (f : V -> V) :
  NoDup (map fst d) -> NoDup (map fst (dict_upsert eqb d k i f)).
Proof.
  unfold dict_upsert. destruct (dict_get eqb d k); apply NoDup_keys_set.
Qed.

(** The outputs produced for the key [k0] by a loop over the items of a
    dictionary are those of the entry under [k0]. *)
Lemma filter_flat_map_items {F : Type} (g : K * V -> list F) (sel : K -> F -> bool)
    (d : list (K * V)) (k0 : K) :
  NoDup (map fst d) ->
  (forall k v f, In f (g (k, v)) -> sel k0 f = eqb k0 k) ->
  filter (sel k0) (flat_map g d) =
  match dict_get eqb d k0 with
  | Some v => g (k0, v)
  | None => []
  end.
Proof.
  intros Hnd Hsel.
  assert (Hone : forall k v,
             filter (sel k0) (g (k, v)) = if eqb k0 k then g (k, v) else []).
  { intros k v. specialize (Hsel k v). revert Hsel.
    induction (g (k, v)) as [|f fs IH]; intros Hsel; cbn [filter].
    - now destruct (eqb k0 k).
    - rewrite (Hsel f (or_introl eq_refl)), IH by (intros; apply Hsel; now right).
      now destruct (eqb k0 k). }
  induction d as [|[k v] d IH]; cbn [flat_map dict_get]; [reflexivity|].
  cbn [map fst] in Hnd. inversion Hnd as [|? ? Hnotin Hnd']; subst.
  rewrite filter_app, Hone, (IH Hnd').
  destruct (eqb k0 k) eqn:E.
  - apply eqb_eq in E. subst k0.
    apply dict_get_None in Hnotin. rewrite Hnotin. apply app_nil_r.
  - reflexivity.
Qed.
End DictFacts.

Lemma string_eqb_eq (a b : string) : String.eqb a b = true <-> a = b.
Proof. apply String.eqb_eq. Qed.

(** ** The jamming injector *)

Lemma squared_distance_nonneg (p a : number * number) : (0 <= squared_distance p a)%Q.
Proof.
  unfold squared_distance. cbv zeta.
  assert (H : forall x : Q, (0 <= x * x)%Q).
  { intros x. destruct (Qlt_le_dec x 0) as [Hx|Hx].
    - setoid_replace (x * x)%Q with ((- x) * (- x))%Q by ring.
      apply Qmult_le_0_compat; Lqa.lra.
    - now apply Qmult_le_0_compat. }
  pose proof (H (coordinate (fst p) - coordinate (fst a))%Q).
  pose proof (H (coordinate (snd p) - coordinate (snd a))%Q). Lqa.lra.
Qed.

(** The test without a square root decides [sqrt d2 <= radius]. *)
Lemma sqrt_le_correct (d2 radius : Q) :
  (0 <= d2)%Q ->
  sqrt_le d2 radius = true <-> (sqrt (Q2R d2) <= Q2R radius)%R.
Proof.
  intros Hd. unfold sqrt_le.
  rewrite andb_true_iff, !Qle_bool_iff.
  assert (Hd' : (0 <= Q2R d2)%R) by (apply Qle_Rle in Hd; now rewrite RMicromega.Q2R_0 in Hd).
  split.
  - intros [Hr Hle].
    apply Qle_Rle in Hr, Hle. rewrite RMicromega.Q2R_0 in Hr. rewrite Q2R_mult in Hle.
    rewrite <- (sqrt_square (Q2R radius) Hr).
    now apply sqrt_le_1_alt.
  - intros H.
    pose proof (sqrt_pos (Q2R d2)) as Hs.
    assert (Hr : (0 <= Q2R radius)%R) by Lra.lra.
    split.
    + apply Rle_Qle. now rewrite RMicromega.Q2R_0.
    + apply Rle_Qle. rewrite Q2R_mult.
      rewrite <- (sqrt_sqrt (Q2R d2) Hd').
      apply Rmult_le_compat; assumption.
Qed.

Lemma euclidean_distance_squared (p a : number * number) :
  euclidean_distance p a = sqrt (Q2R (squared_distance p a)).
Proof.
  unfold euclidean_distance, squared_distance. cbv zeta.
  now rewrite Q2R_plus, !Q2R_mult, !Q2R_minus.
Qed.

Lemma euclidean_le (p a : number * number) (radius : Q) :
  sqrt_le (squared_distance p a) radius = true <->
  (euclidean_distance p a <= Q2R radius)%R.
Proof.
  rewrite euclidean_distance_squared. apply sqrt_le_correct, squared_distance_nonneg.
Qed.

Section JammingInjectorFacts.
Context {RT : Runtime}.

Lemma to_float_errors (z : Z) (e : exn) : to_float z = Raise e -> e = OverflowError.
Proof. unfold to_float. destruct (binary64 (inject_Z z)); congruence. Qed.

Lemma py_sub_errors (a b : number) (e : exn) : py_sub a b = Raise e -> e = OverflowError.
Proof.
  destruct a as [x|x], b as [y|y]; cbn [py_sub as_float rbind]; try discriminate.
  - destruct (to_float x) eqn:E; cbn [rbind]; [discriminate|].
    intros H. injection H as <-. now apply (to_float_errors x).
  - destruct (to_float y) eqn:E; cbn [rbind]; [discriminate|].
    intros H. injection H as <-. now apply (to_float_errors y).
Qed.

Lemma py_square_errors (v : value) (e : exn) : py_square v = Raise e -> e = OverflowError.
Proof.
  destruct v as [z|[x|s|]]; cbn [py_square]; try discriminate.
  destruct (Qeq_bool x 0); [discriminate|].
  destruct (Qeq_bool (Qabs x) 1); [discriminate|].
  destruct (libm_pow2 (Qabs x)); congruence.
Qed.

Lemma py_add_errors (u v : value) (e : exn) : py_add u v = Raise e -> e = OverflowError.
Proof.
  destruct u as [x|x], v as [y|y]; cbn [py_add]; try discriminate.
  - destruct (to_float x) eqn:E; cbn [rbind]; [discriminate|].
    intros H. injection H as <-. now apply (to_float_errors x).
  - destruct (to_float y) eqn:E; cbn [rbind]; [discriminate|].
    intros H. injection H as <-. now apply (to_float_errors y).
Qed.

Lemma np_sqrt_errors (v : value) (e : exn) : np_sqrt v = Raise e -> e = TypeError.
Proof.
  destruct v as [z|x]; cbn [np_sqrt]; [|discriminate].
  destruct (_ && _); congruence.
Qed.

(** Measuring a distance raises nothing but [OverflowError] and
    [TypeError]. *)
Lemma measured_distance_errors (p a : number * number) (e : exn) :
  measured_distance p a = Raise e -> e = OverflowError \/ e = TypeError.
Proof.
  unfold measured_distance.
  destruct (py_sub (fst p) (fst a)) as [dx|e1] eqn:E1; cbn [rbind];
    [|intros H; injection H as <-; left; eapply py_sub_errors; eassumption].
  destruct (py_square dx) as [dx2|e2] eqn:E2; cbn [rbind];
    [|intros H; injection H as <-; left; eapply py_square_errors; eassumption].
  destruct (py_sub (snd p) (snd a)) as [dy|e3] eqn:E3; cbn [rbind];
    [|intros H; injection H as <-; left; eapply py_sub_errors; eassumption].
  destruct (py_square dy) as [dy2|e4] eqn:E4; cbn [rbind];
    [|intros H; injection H as <-; left; eapply py_square_errors; eassumption].
  destruct (py_add dx2 dy2) as [d2|e5] eqn:E5; cbn [rbind];
    [|intros H; injection H as <-; left; eapply py_add_errors; eassumption].
  intros H. right. eapply np_sqrt_errors; eassumption.
Qed.

Lemma jam_nodes_cons (id : string) (node : NetworkNode) (ns : list (string * NetworkNode))
    (target_area : number * number) (radius : Q) :
  jam_nodes ((id, node) :: ns) target_area radius =
  rbind (measured_distance (location node) target_area) (fun distance =>
  rbind (jam_nodes ns target_area radius) (fun '(rest, affected) =>
    if float64_le distance radius
    then Ok ((id, set_status node "degraded") :: rest, id :: affected)
    else Ok ((id, node) :: rest, affected))).
Proof.
  cbn [jam_nodes]. unfold measured_distance.
  destruct (py_sub (fst (location node)) (fst target_area)); cbn [rbind]; [|reflexivity].
  destruct (py_square _); cbn [rbind]; [|reflexivity].
  destruct (py_sub (snd (location node)) (snd target_area)); cbn [rbind]; [|reflexivity].
  destruct (py_square _); cbn [rbind]; [|reflexivity].
  destruct (py_add _ _); cbn [rbind]; reflexivity.
Qed.

(** The loop either degrades the nodes within the measured radius, in place,
    or raises what the measurement of some node's distance raises. *)
Lemma jam_nodes_spec (ns : list (string * NetworkNode)) (target_area : number * number)
    (radius : Q) :
  match jam_nodes ns target_area radius with
  | Ok (nodes', affected) =>
      Forall (fun n => exists d, measured_distance (location (snd n)) target_area = Ok d) ns /\
      nodes' = map (jammed target_area radius) ns /\
      affected = map fst (filter (in_blast_radius target_area radius) ns)
  | Raise e =>
      Exists (fun n => measured_distance (location (snd n)) target_area = Raise e) ns
  end.
Proof.
  induction ns as [|[id node] ns IH]; [cbn; auto|].
  rewrite jam_nodes_cons.
  destruct (measured_distance (location node) target_area) as [d|e] eqn:Ed; cbn [rbind].
  - destruct (jam_nodes ns target_area radius) as [[rest affected]|e]; cbn [rbind].
    + destruct IH as [Hall [-> ->]].
      assert (Hin : in_blast_radius target_area radius (id, node) = float64_le d radius)
        by (unfold in_blast_radius; cbn [snd]; now rewrite Ed).
      assert (Hj : jammed target_area radius (id, node) =
                   if float64_le d radius then (id, set_status node "degraded")
                   else (id, node))
        by (unfold jammed; rewrite Hin; reflexivity).
      cbn [map filter]. rewrite Hj, Hin.
      destruct (float64_le d radius); (split; [constructor; [now exists d | exact Hall]|]);
        split; reflexivity.
    + now apply Exists_cons_tl.
  - now apply Exists_cons_hd.
Qed.

Lemma jam_nodes_ok (ns : list (string * NetworkNode)) (target_area : number * number)
    (radius : Q) :
  Forall (fun n => exists d, measured_distance (location (snd n)) target_area = Ok d) ns ->
  jam_nodes ns target_area radius =
  Ok (map (jammed target_area radius) ns,
      map fst (filter (in_blast_radius target_area radius) ns)).
Proof.
  intros Hall. pose proof (jam_nodes_spec ns target_area radius) as H.
  destruct (jam_nodes ns target_area radius) as [[nodes' affected]|e].
  - destruct H as [_ [-> ->]]. reflexivity.
  - exfalso. apply Exists_exists in H. destruct H as [n [Hn He]].
    rewrite Forall_forall in Hall. destruct (Hall n Hn) as [d Hd]. congruence.
Qed.

Lemma jammed_same_but_status (target_area : number * number) (radius : Q)
    (n : string * NetworkNode) :
  same_but_status n (jammed target_area radius n) /\
  status (snd (jammed target_area radius n)) =
  if in_blast_radius target_area radius n then "degraded"%string else status (snd n).
Proof.
  unfold jammed, same_but_status.
  destruct (in_blast_radius target_area radius n); cbn; repeat split; reflexivity.
Qed.

Lemma simulate_jamming_attack_run (target_area : number * number) (radius : Q)
    (w : world) (self : Simulator) :
  simulate_jamming_attack target_area radius (w, self) =
  match jam_nodes (nodes self) target_area radius with
  | Ok (nodes', affected) =>
      let now := fst (time_time w) in
      let ts := fst (datetime_now (snd (time_time w))) in
      Ok (tt, (snd (datetime_now (snd (time_time w))),
               mk_sim nodes'
                      (security_events self ++
                         [new_event ("JAM-" ++ str_of_int now) ts JAMMING MEDIUM
                            "Unknown Jammer" ("Area " ++ str_of_area target_area)
                            ("Jamming attack affecting " ++ str_of_int (len affected)
                               ++ " nodes")])
                      (traffic_data self)))
  | Raise e => Raise e
  end.
Proof.
  unfold simulate_jamming_attack, bind, get_self, lift, set_self, ask, append_event.
  cbn [fst snd].
  destruct (jam_nodes (nodes self) target_area radius) as [[nodes' affected]|e];
    [|reflexivity].
  cbn [fst snd].
  destruct (time_time w) as [now w1]. cbn [fst snd].
  destruct (datetime_now w1) as [ts w2]. cbn [fst snd nodes security_events traffic_data].
  reflexivity.
Qed.

(** Between points with integer coordinates the squared distance is an
    integer; when it is below 2^53, its float is exact and the measured
    distance is the rounding of its square root. *)
Lemma measured_distance_integers (x y a b : Z) :
  (x - a) * (x - a) + (y - b) * (y - b) < 2 ^ 53 ->
  exists d,
    measured_distance (Int x, Int y) (Int a, Int b) = Ok (Finite d) /\
    (d == sqrt64 (squared_distance (Int x, Int y) (Int a, Int b)))%Q.
Proof.
  intros Hlt. set (d2 := (x - a) * (x - a) + (y - b) * (y - b)) in *.
  assert (Hd2 : 0 <= d2).
  { pose proof (Z.square_nonneg (x - a)). pose proof (Z.square_nonneg (y - b)).
    unfold d2. lia. }
  unfold measured_distance. cbn [fst snd py_sub py_square py_add rbind np_sqrt]. fold d2.
  assert (Hrange : (- 2 ^ 63 <=? d2) && (d2 <? 2 ^ 64) = true).
  { apply andb_true_iff. split; [apply Z.leb_le | apply Z.ltb_lt]; lia. }
  rewrite Hrange.
  destruct (binary64_small_Z d2) as [r [-> Hr]]; [lia|].
  assert (Hr0 : (0 <= r)%Q).
  { rewrite Hr. change 0%Q with (inject_Z 0). now rewrite <- Zle_Qle. }
  cbn [float64_sqrt].
  destruct (Qltb r 0) eqn:E; [apply Qltb_lt in E; exfalso; Lqa.lra|].
  eexists. split; [reflexivity|].
  apply sqrt64_comp; [exact Hr0|]. rewrite Hr.
  unfold squared_distance, d2. cbn [fst snd coordinate].
  unfold Z.sub, Qminus.
  rewrite inject_Z_plus, !inject_Z_mult, !inject_Z_plus, !inject_Z_opp. reflexivity.
Qed.

(** There the test of the loop is the comparison of the Euclidean distance
    with the radius, up to the rounding of the square root: a node within the
    radius is within the measured radius, and a node within the measured
    radius is within the radius enlarged by 2^-53 of itself. *)
Lemma measured_distance_euclidean (x y a b : Z) (radius : Q) :
  (x - a) * (x - a) + (y - b) * (y - b) < 2 ^ 53 ->
  is_double radius ->
  exists d,
    measured_distance (Int x, Int y) (Int a, Int b) = Ok (Finite d) /\
    ((euclidean_distance (Int x, Int y) (Int a, Int b) <= Q2R radius)%R ->
     float64_le (Finite d) radius = true) /\
    (float64_le (Finite d) radius = true ->
     (euclidean_distance (Int x, Int y) (Int a, Int b)
        <= Q2R (radius * (1 + (1 # 2 ^ 53))))%R).
Proof.
  intros Hlt Hdouble.
  destruct (measured_distance_integers x y a b Hlt) as [d [Hd Ed]].
  exists d. split; [exact Hd|].
  set (p := (Int x, Int y)) in *. set (t := (Int a, Int b)) in *.
  pose proof (squared_distance_nonneg p t) as Hsq.
  cbn [float64_le]. rewrite Qle_bool_iff, Ed. split.
  - intros He. apply euclidean_le in He. unfold sqrt_le in He.
    apply andb_true_iff in He. destruct He as [H0 Hle].
    apply Qle_bool_iff in H0, Hle. now apply sqrt64_le.
  - intros Hle. apply euclidean_le. unfold sqrt_le.
    pose proof (sqrt64_nonneg (squared_distance p t)) as Hs0.
    pose proof (sqrt64_ge (squared_distance p t) Hsq) as Hge.
    change (1 # 2 ^ 53)%Q with (1 # 9007199254740992)%Q in *.
    apply andb_true_iff. split; apply Qle_bool_iff; [Lqa.lra|].
    eapply Qle_trans; [exact Hge|].
    apply Qmult_le_compat_nonneg; split;
      try (apply Qmult_le_0_compat; [exact Hs0 | discriminate]);
      (apply Qmult_le_compat_r; [exact Hle | discriminate]).
Qed.

End JammingInjectorFacts.

(** C8, amended. The jamming injector measures the distance of each node to
    the target area in Python's arithmetic (exact on integers, binary64 on
    floats) and either raises [OverflowError] or [TypeError], when the
    distance of some node cannot be measured, or returns normally. When it
    returns it leaves the traffic collection as it was, appends exactly one
    security event, of severity medium, whose description names the number
    of nodes whose measured distance is at most the radius, and replaces each
    node of the registry, in place, by a node that differs at most in its
    status: degraded when its measured distance is at most the radius,
    unchanged otherwise. Between points with integer coordinates (as those
    of the registry are) whose squared distance is below 2^53, and for a
    radius that is a float, the measured distance is at most the radius
    whenever the Euclidean distance is, and then the Euclidean distance is at
    most the radius enlarged by 2^-53 of itself. *)
Theorem simulate_jamming_attack_frame {RT : Runtime} (target_area : number * number)
    (radius : Q) (w : world) (self : Simulator) :
  match simulate_jamming_attack target_area radius (w, self) with
  | Ok (_, (w', self')) =>
      Forall (fun n => exists d, measured_distance (location (snd n)) target_area = Ok d)
             (nodes self) /\
      traffic_data self' = traffic_data self /\
      (exists ev,
          security_events self' = security_events self ++ [ev] /\
          severity ev = MEDIUM /\
          threat_type ev = JAMMING /\
          description ev =
            ("Jamming attack affecting "
               ++ str_of_int (len (filter (in_blast_radius target_area radius) (nodes self)))
               ++ " nodes")%string) /\
      Forall2 (fun old new =>
                 same_but_status old new /\
                 status (snd new) =
                   if in_blast_radius target_area radius old
                   then "degraded"%string else status (snd old))
              (nodes self) (nodes self')
  | Raise e =>
      (e = OverflowError \/ e = TypeError) /\
      Exists (fun n => measured_distance (location (snd n)) target_area = Raise e)
             (nodes self)
  end /\
  (forall x y a b : Z,
      (x - a) * (x - a) + (y - b) * (y - b) < 2 ^ 53 ->
      is_double radius ->
      exists d,
        measured_distance (Int x, Int y) (Int a, Int b) = Ok (Finite d) /\
        ((euclidean_distance (Int x, Int y) (Int a, Int b) <= Q2R radius)%R ->
         float64_le (Finite d) radius = true) /\
        (float64_le (Finite d) radius = true ->
         (euclidean_distance (Int x, Int y) (Int a, Int b)
            <= Q2R (radius * (1 + (1 # 2 ^ 53))))%R)).
Proof.
  split; [|intros x y a b; apply measured_distance_euclidean].
  rewrite simulate_jamming_attack_run.
  pose proof (jam_nodes_spec (nodes self) target_area radius) as Hjam.
  destruct (jam_nodes (nodes self) target_area radius) as [[nodes' affected]|e].
  - destruct Hjam as [Hall [-> ->]]. cbv zeta.
    cbn [nodes security_events traffic_data].
    split; [exact Hall|]. split; [reflexivity|]. split.
    + eexists. split; [reflexivity|]. cbn [severity threat_type description new_event].
      unfold len. rewrite length_map. repeat split.
    + clear Hall. induction (nodes self) as [|n ns IH]; cbn [map]; constructor.
      * apply jammed_same_but_status.
      * exact IH.
  - split; [|exact Hjam].
    apply Exists_exists in Hjam. destruct Hjam as [n [_ Hn]].
    eapply measured_distance_errors. exact Hn.
Qed.

(** C8, the claim as stated fails. On the registry, a jamming attack at
    (2,3) whose radius is the float nearest to the square root of 13 degrades
    "AMF-001", which sits at (0,0): its squared distance is 13, more than the
    square of the radius, so that its Euclidean distance exceeds the radius.
    And a jamming attack at (1e200, 0) raises [OverflowError], appending no
    event (here with a [pow] that rounds to nearest). *)
Lemma simulate_jamming_attack_degrades_beyond_radius :
  (exists w' self',
      simulate_jamming_attack (RT := TestRuntime) (Int 2, Int 3) (sqrt64 13)
                              (world0, mk_sim registry [] []) = Ok (tt, (w', self')) /\
      dict_get String.eqb registry "AMF-001"%string =
        Some (new_node "AMF-001" "AMF" "10.0.1.1" (Int 0, Int 0)) /\
      status_of (nodes self') "AMF-001"%string = Some "degraded"%string /\
      squared_distance (Int 0, Int 0) (Int 2, Int 3) = 13%Q /\
      (sqrt64 13 * sqrt64 13 < 13)%Q) /\
  simulate_jamming_attack (RT := TestRuntime)
                          (Float (float_literal (inject_Z (10 ^ 200))), Int 0) (1 # 2)
                          (world0, mk_sim registry [] []) = Raise OverflowError.
Proof.
  split; [|vm_compute; reflexivity].
  do 2 eexists. split; [vm_compute; reflexivity|]. repeat split.
Qed.

Lemma initialize_network_run {RT : Runtime} (w : world) :
  initialize_network (w, new_simulator) = Ok (tt, (w, mk_sim registry [] [])).
Proof. reflexivity. Qed.

Lemma status_of_degrade_only (k : string) (ns : list (string * NetworkNode)) (id : string) :
  status_of (degrade_only k ns) id =
  if String.eqb id k
  then option_map (fun _ => "degraded"%string) (status_of ns id)
  else status_of ns id.
Proof.
  unfold status_of, degrade_only.
  induction ns as [|[k0 n0] ns IH]; cbn [map dict_get fst snd option_map].
  - now destruct (String.eqb id k).
  - destruct (String.eqb k0 k) eqn:Ek; cbn [dict_get fst snd];
      destruct (String.eqb id k0) eqn:E0; cbn [option_map]; try apply IH.
    + apply String.eqb_eq in E0, Ek. subst. now rewrite String.eqb_refl.
    + destruct (String.eqb id k) eqn:E; [|reflexivity].
      apply String.eqb_eq in E0, E. subst. now rewrite String.eqb_refl in Ek.
Qed.

Lemma jam_nodes_main_call {RT : Runtime} :
  jam_nodes registry (Int 1, Int 1) (1 # 2) =
  Ok (degrade_only "gNB-002" registry, ["gNB-002"%string]).
Proof. vm_compute. reflexivity. Qed.

(** C1, amended. On the hard-coded registry the node at (1,1) is "gNB-002",
    and it is the only node at Euclidean distance at most 0.5 from (1,1):
    [initialize_network] followed by the jamming injector over area (1,1)
    with radius 0.5 sets the status of "gNB-002", and of no other node, to
    degraded; every other node keeps its status and all its fields. *)
Theorem jamming_main_call_degrades_gNB_002 {RT : Runtime} (w : world) :
  exists w' ev,
    bind initialize_network
         (fun _ => simulate_jamming_attack (Int 1, Int 1) (1 # 2)) (w, new_simulator) =
      Ok (tt, (w', mk_sim (degrade_only "gNB-002" registry) [ev] [])) /\
    (forall id,
        status_of (degrade_only "gNB-002" registry) id =
        if String.eqb id "gNB-002" then Some "degraded"%string
        else status_of registry id) /\
    (forall id n, In (id, n) registry ->
        (euclidean_distance (location n) (Int 1, Int 1) <= Q2R (1 # 2))%R <->
        id = "gNB-002"%string).
Proof.
  do 2 eexists. split; [|split].
  - unfold bind. rewrite initialize_network_run, simulate_jamming_attack_run.
    cbn [nodes]. rewrite jam_nodes_main_call.
    cbv zeta. cbn [security_events traffic_data app]. reflexivity.
  - intros id. rewrite status_of_degrade_only.
    destruct (String.eqb id "gNB-002") eqn:E; [|reflexivity].
    apply String.eqb_eq in E. subst. reflexivity.
  - intros id n Hin.
    rewrite <- (euclidean_le (location n) (Int 1, Int 1) (1 # 2)).
    unfold registry in Hin. cbn in Hin.
    repeat (destruct Hin as [Hin|Hin];
            [injection Hin as <- <-; vm_compute; split; (reflexivity || discriminate)|]).
    contradiction.
Qed.

(** C1, the claim as stated fails: after [initialize_network] and the jamming
    injector over area (1,1) with radius 0.5, "gNB-001" (at (1,0), distance 1)
    is still active and the status of "gNB-002" has changed. *)
Lemma jamming_main_call_spares_gNB_001 :
  exists w' self',
    bind (RT := TestRuntime) initialize_network
         (fun _ => simulate_jamming_attack (Int 1, Int 1) (1 # 2)) (world0, new_simulator) =
      Ok (tt, (w', self')) /\
    status_of (nodes self') "gNB-001" = Some "active"%string /\
    status_of (nodes self') "gNB-002" = Some "degraded"%string /\
    in_blast_radius (RT := TestRuntime) (Int 1, Int 1) (1 # 2) ("gNB-001"%string,
      new_node "gNB-001" "gNodeB" "10.0.2.1" (Int 1, Int 0)) = false.
Proof.
  do 2 eexists. split; [vm_compute; reflexivity|].
  repeat split.
Qed.

(** ** The security report *)

Lemma last_slice_split {A : Type} (n : nat) (l : list A) :
  exists older, l = older ++ last_slice n l /\ length (last_slice n l) = Nat.min n (length l).
Proof.
  exists (firstn (length l - n) l). unfold last_slice. split.
  - symmetry. apply firstn_skipn.
  - rewrite length_skipn. lia.
Qed.

Lemma truediv_nonzero (a b : Q) : ~ (b == 0)%Q -> truediv a b = Ok (round64 (a / b)).
Proof.
  intros Hb. unfold truediv.
  destruct (Qeq_bool b 0) eqn:E; [|reflexivity].
  now apply Qeq_bool_eq in E.
Qed.

Lemma int_truediv_nonzero (a b : Z) :
  b <> 0 -> int_truediv a b = Ok (round64 (inject_Z a / inject_Z b)).
Proof.
  intros Hb. unfold int_truediv. destruct (Z.eqb_spec b 0); [contradiction | reflexivity].
Qed.

Lemma filter_flagged_attack (l : list TrafficRecord) :
  filter get_is_attack l = filter flagged_attack l.
Proof.
  apply filter_ext. intros t. unfold get_is_attack, flagged_attack.
  now destruct (is_attack t) as [[|]|].
Qed.

(** Two roundings, of a quotient and of its product by 100, stay within a
    relative error of 2^-51. *)
Lemma percentage_close (x : Q) :
  (0 <= x)%Q ->
  (Qabs (float_mul (round64 x) 100 - x * 100) <= x * 100 * (1 # 2 ^ 51))%Q.
Proof.
  intros Hx. unfold float_mul.
  pose proof (round64_close x) as H1.
  pose proof (round64_close (round64 x * 100)) as H2.
  assert (Hy : (0 <= round64 x)%Q).
  { rewrite <- (round64_zero 0 (Qeq_refl 0)). now apply round64_mono. }
  rewrite (Qabs_pos x) in H1 by exact Hx.
  rewrite (Qabs_pos (round64 x * 100)) in H2 by Lqa.lra.
  change (1 # 2 ^ 53)%Q with (1 # 9007199254740992)%Q in *.
  change (1 # 2 ^ 51)%Q with (1 # 2251799813685248)%Q.
  set (y := round64 x) in *. set (z := round64 (y * 100)) in *.
  apply Qabs_Qle_condition in H1, H2. apply Qabs_Qle_condition.
  assert (Hyx : (y <= x * 2)%Q) by Lqa.lra.
  split; Lqa.lra.
Qed.

(** C5, amended. The security report is produced for every simulator state
    (no division by zero). Its attack-traffic percentage is exactly 0 on an
    empty traffic collection; otherwise it is the binary64 value of
    [attack / total * 100], the quotient of the two counts rounded and its
    product by 100 rounded again, which is within a relative error of 2^-51
    of (attack records / total records) * 100 and need not equal it. Its
    recent events are the last ten security events (all of them when there
    are fewer), in the order in which they were appended. *)
Theorem generate_security_report_percentage_and_recent_events {RT : Runtime}
    (self : Simulator) :
  exists r,
    generate_security_report self = Ok r /\
    (traffic_data self = [] -> attack_traffic_percentage (summary r) = 0%Q) /\
    (traffic_data self <> [] ->
     let attack := inject_Z (len (filter flagged_attack (traffic_data self))) in
     let total := inject_Z (len (traffic_data self)) in
     attack_traffic_percentage (summary r) = float_mul (round64 (attack / total)) 100 /\
     (Qabs (attack_traffic_percentage (summary r) - attack / total * 100)
        <= attack / total * 100 * (1 # 2 ^ 51))%Q) /\
    total_traffic_records (summary r) = len (traffic_data self) /\
    exists older recent,
      security_events self = older ++ recent /\
      length recent = Nat.min 10 (length (security_events self)) /\
      recent_events r = map report_event recent.
Proof.
  unfold generate_security_report.
  destruct (last_slice_split 10 (security_events self)) as [older [Hsplit Hlen]].
  rewrite filter_flagged_attack.
  destruct (traffic_data self) as [|t td] eqn:Htd.
  - cbn [len length Z.of_nat Z.ltb Z.compare rbind].
    eexists. split; [reflexivity|].
    cbn [summary attack_traffic_percentage total_traffic_records recent_events].
    repeat split; try congruence.
    exists older, (last_slice 10 (security_events self)). auto.
  - assert (Hpos : 0 < len (t :: td)) by (unfold len; cbn [length]; lia).
    rewrite (proj2 (Z.ltb_lt _ _) Hpos), int_truediv_nonzero by lia.
    cbn [rbind]. eexists. split; [reflexivity|].
    cbn [summary attack_traffic_percentage total_traffic_records recent_events].
    split; [congruence|]. split; [|split; [reflexivity|]].
    + intros _. cbv zeta. split; [reflexivity|].
      apply percentage_close.
      apply Qle_shift_div_l.
      * change 0%Q with (inject_Z 0). now rewrite <- Zlt_Qlt.
      * rewrite Qmult_0_l. change 0%Q with (inject_Z 0). rewrite <- Zle_Qle.
        unfold len. lia.
    + exists older, (last_slice 10 (security_events self)). auto.
Qed.

(** C5, the claim as stated fails: with 7 attack records among 100 the
    reported percentage is 7.000000000000001 (the binary64 number next above
    7), not (7 / 100) * 100 = 7. *)
Lemma attack_traffic_percentage_seven_of_hundred :
  exists r,
    generate_security_report (RT := TestRuntime)
      (mk_sim [] [] (repeat sample_attack 7 ++ repeat sample_benign 93)) = Ok r /\
    total_traffic_records (summary r) = 100 /\
    len (filter flagged_attack (repeat sample_attack 7 ++ repeat sample_benign 93)) = 7 /\
    attack_traffic_percentage (summary r) = (7881299347898369 # 1125899906842624)%Q /\
    (inject_Z 7 / inject_Z 100 * 100 == 7)%Q /\
    (7 < attack_traffic_percentage (summary r))%Q.
Proof.
  eexists. split; [vm_compute; reflexivity|]. repeat split.
Qed.

(** ** Detection on nothing *)

Lemma detect_mitm_attack_below_minimum
    (fit_transform : list (list Q) -> list (list Q))
    (fit_predict : list (list Q) -> list Z)
    (score_samples : list (list Q) -> list Q -> Q)
    (traffic_data : list TrafficRecord) :
  (length (filter has_mitm_keys traffic_data) < 10)%nat ->
  detect_mitm_attack fit_transform fit_predict score_samples traffic_data = Ok [].
Proof.
  intros H. unfold detect_mitm_attack, len. rewrite length_map.
  destruct (Z.ltb_spec (Z.of_nat (length (filter has_mitm_keys traffic_data))) 10);
    [reflexivity | lia].
Qed.

Lemma detect_jamming_attack_no_signal
    (series_mean : list Q -> Q) (series_var : list Q -> option Q)
    (traffic_data : list TrafficRecord) :
  Forall (fun t => signal_strength t = None) traffic_data ->
  detect_jamming_attack series_mean series_var traffic_data = Ok [].
Proof.
  intros H. unfold detect_jamming_attack.
  replace (flat_map _ traffic_data) with (@nil (datetime * Q)); [reflexivity|].
  induction H as [|t td Ht _ IH]; cbn [flat_map]; [reflexivity|].
  now rewrite Ht, <- IH.
Qed.

(** C4. On an empty traffic collection the comprehensive detection returns
    normally with the four finding lists empty, [total_attacks = 0] and
    [traffic_records_analyzed = 0]; each detection method returns the empty
    list there, the interception detector also whenever fewer than ten
    records qualify, and the jamming detector whenever no record carries a
    signal strength. *)
Theorem detection_degrades_to_empty {RT : Runtime}
    (fit_transform : list (list Q) -> list (list Q))
    (fit_predict : list (list Q) -> list Z)
    (score_samples : list (list Q) -> list Q -> Q)
    (series_mean : list Q -> Q) (series_var : list Q -> option Q)
    (w : world) :
  (exists r w',
      comprehensive_attack_detection fit_transform fit_predict score_samples
                                     series_mean series_var [] w =
        Ok (r, w') /\
      ddos_attacks r = [] /\ jamming_attacks r = [] /\
      mitm_attacks r = [] /\ spoofing_attacks r = [] /\
      total_attacks (detection_summary r) = 0 /\
      traffic_records_analyzed (detection_summary r) = 0) /\
  detect_ddos_attack [] = Ok [] /\
  detect_jamming_attack series_mean series_var [] = Ok [] /\
  detect_mitm_attack fit_transform fit_predict score_samples [] = Ok [] /\
  detect_spoofing_attack [] = Ok [] /\
  (forall traffic_data,
      (length (filter has_mitm_keys traffic_data) < 10)%nat ->
      detect_mitm_attack fit_transform fit_predict score_samples traffic_data = Ok []) /\
  (forall traffic_data,
      Forall (fun t => signal_strength t = None) traffic_data ->
      detect_jamming_attack series_mean series_var traffic_data = Ok []).
Proof.
  split; [|repeat split].
  - unfold comprehensive_attack_detection.
    cbn [detect_ddos_attack detect_jamming_attack detect_spoofing_attack rbind].
    change (detect_mitm_attack fit_transform fit_predict score_samples [])
      with (@Ok (list Finding) []).
    cbn [rbind]. destruct (datetime_now w) as [now w'].
    do 2 eexists. split; [reflexivity|]. repeat split.
  - apply detect_mitm_attack_below_minimum.
  - apply detect_jamming_attack_no_signal.
Qed.

(** ** Flood detection *)

Lemma valid_datetime_fields (t : datetime) :
  valid_datetime t = true <->
  0 <= dt_hour t < 24 /\ 0 <= dt_minute t < 60 /\
  0 <= dt_second t < 60 /\ 0 <= dt_microsecond t < 1000000.
Proof. unfold valid_datetime, in_range. rewrite !andb_true_iff. lia. Qed.

Lemma window_start_valid (ts : datetime) :
  valid_datetime ts = true -> window_start ts 60 = Ok (floor_minute ts).
Proof.
  intros Hv. pose proof Hv as Hf. apply valid_datetime_fields in Hf.
  assert (Hv0 : valid_datetime (floor_minute ts) = true)
    by (apply valid_datetime_fields; cbn; lia).
  unfold window_start, replace_second_microsecond, replace_minute, checked.
  change (mk_datetime (dt_ordinal ts) (dt_hour ts) (dt_minute ts) 0 0)
    with (floor_minute ts).
  rewrite Hv0. cbn [rbind floordiv Z.eqb Z.div]. change (60 / 60) with 1.
  cbn [rbind Z.eqb]. cbn [floor_minute dt_minute dt_ordinal dt_hour dt_second dt_microsecond].
  unfold floordiv. cbn [Z.eqb rbind]. rewrite Z.div_1_r, Z.mul_1_r.
  change (mk_datetime (dt_ordinal ts) (dt_hour ts) (dt_minute ts) 0 0)
    with (floor_minute ts).
  now rewrite Hv0.
Qed.

Lemma group_loop_valid (traffic_data : list TrafficRecord)
    (windows : list (datetime * list TrafficRecord)) :
  Forall (fun t => valid_datetime (timestamp t) = true) traffic_data ->
  group_loop traffic_data 60 windows = Ok (group_by_minute traffic_data windows).
Proof.
  intros H. revert windows.
  induction H as [|t td Ht _ IH]; intros windows; cbn [group_loop]; [reflexivity|].
  rewrite (window_start_valid _ Ht). cbn [rbind]. apply IH.
Qed.

Lemma group_by_minute_keys (traffic_data : list TrafficRecord)
    (windows : list (datetime * list TrafficRecord)) :
  NoDup (map fst windows) -> NoDup (map fst (group_by_minute traffic_data windows)).
Proof.
  revert windows. unfold group_by_minute.
  induction traffic_data as [|t td IH]; intros windows H; cbn [fold_left]; [assumption|].
  apply IH, (NoDup_keys_upsert _ datetime_eqb_eq), H.
Qed.

Lemma group_by_minute_get (traffic_data : list TrafficRecord)
    (windows : list (datetime * list TrafficRecord)) (w : datetime) :
  dict_get datetime_eqb (group_by_minute traffic_data windows) w =
  match filter (in_window w) traffic_data with
  | [] => dict_get datetime_eqb windows w
  | l => Some (match dict_get datetime_eqb windows w with
               | Some g => g
               | None => []
               end ++ l)
  end.
Proof.
  revert windows. unfold group_by_minute.
  induction traffic_data as [|t td IH]; intros windows; cbn [fold_left filter];
    [reflexivity|].
  rewrite IH, (dict_get_upsert _ datetime_eqb_eq). unfold in_window at 2.
  destruct (datetime_eqb w (floor_minute (timestamp t))) eqn:E.
  - apply datetime_eqb_eq in E. subst w.
    destruct (filter _ td); [reflexivity|]. now rewrite <- app_assoc.
  - reflexivity.
Qed.

Lemma ddos_window_at (w k : datetime) (g : list TrafficRecord) (f : Finding) :
  In f (ddos_window (k, g)) -> at_window w f = datetime_eqb w k.
Proof.
  unfold ddos_window. destruct g as [|t g]; [contradiction|].
  destruct (_ <? _); [|contradiction].
  intros [<-|[]]. reflexivity.
Qed.

Lemma one_lt_thousandth (n : Z) : 1000 < n -> (1 ?= inject_Z n / 1000)%Q = Lt.
Proof.
  intros H. change ((1 < inject_Z n / 1000)%Q).
  unfold Qlt, Qdiv, Qmult, Qinv, inject_Z. cbn. lia.
Qed.

Lemma ddos_window_confidence (k : datetime) (g : list TrafficRecord) (f : Finding) :
  In f (ddos_window (k, g)) -> confidence f = 1%Q.
Proof.
  unfold ddos_window. destruct g as [|t g]; [contradiction|].
  destruct (Z.ltb_spec (ddos_high_packet_rate _load_attack_patterns)
                       (py_sum (map packet_count (t :: g)))) as [H|H]; [|contradiction].
  intros [<-|[]]. cbn [confidence]. unfold py_min.
  now rewrite (one_lt_thousandth _ H).
Qed.

(** Two valid timestamps share a window key exactly when they fall in the
    same 60-second interval of the time line. *)
Lemma floor_minute_index (t t' : datetime) :
  valid_datetime t = true -> valid_datetime t' = true ->
  floor_minute t' = floor_minute t <-> minute_index t = minute_index t'.
Proof.
  intros Hv Hv'. apply valid_datetime_fields in Hv, Hv'.
  assert (Hidx : forall x, 0 <= dt_second x < 60 -> 0 <= dt_microsecond x < 1000000 ->
                   minute_index x = (dt_ordinal x * 24 + dt_hour x) * 60 + dt_minute x).
  { intros x Hs Hu. unfold minute_index, to_microseconds. symmetry.
    apply (Z.div_unique _ _ _ (dt_second x * 1000000 + dt_microsecond x)); lia. }
  rewrite !Hidx by tauto. unfold floor_minute. split.
  - intros H. injection H as H1 H2 H3. lia.
  - intros H. f_equal; lia.
Qed.

Lemma ddos_window_finding (k : datetime) (g : list TrafficRecord) (f : Finding) :
  In f (ddos_window (k, g)) ->
  exists n u a,
    metrics f = DDoSMetrics n u a /\ 1000 < n /\
    confidence f = py_min (inject_Z n / 1000) 1.
Proof.
  unfold ddos_window. destruct g as [|t g]; [contradiction|].
  destruct (Z.ltb_spec (ddos_high_packet_rate _load_attack_patterns)
                       (py_sum (map packet_count (t :: g)))) as [H|H]; [|contradiction].
  intros [<-|[]]. do 3 eexists. cbn [metrics confidence]. repeat split. exact H.
Qed.

Lemma detect_ddos_attack_valid (traffic_data : list TrafficRecord) :
  Forall (fun t => valid_datetime (timestamp t) = true) traffic_data ->
  detect_ddos_attack traffic_data =
  Ok (flat_map ddos_window (group_by_minute traffic_data [])).
Proof.
  intros H. unfold detect_ddos_attack, _group_by_time_windows.
  now rewrite (group_loop_valid _ _ H).
Qed.

(** C2. Flood detection returns normally on every traffic collection (of
    well-formed timestamps); two records fall in the same window exactly when
    their timestamps lie in the same 60-second interval; and for every window
    [w] the findings emitted for [w] are exactly one finding, of confidence
    [min(total/1000, 1.0)], when the sum of the window's packet counts
    exceeds 1000, and none otherwise. In particular a window with total 1500
    yields one finding, of confidence exactly 1. *)
Theorem detect_ddos_attack_per_window (traffic_data : list TrafficRecord) :
  Forall (fun t => valid_datetime (timestamp t) = true) traffic_data ->
  exists fs,
    detect_ddos_attack traffic_data = Ok fs /\
    (forall t t', In t traffic_data -> In t' traffic_data ->
        in_window (floor_minute (timestamp t)) t' = true <->
        minute_index (timestamp t) = minute_index (timestamp t')) /\
    (forall w,
        filter (at_window w) fs =
        if 1000 <? window_total traffic_data w
        then [ mk_finding "DDoS" w "HIGH"
                 (DDoSMetrics
                    (window_total traffic_data w)
                    (count_distinct (map source (filter (in_window w) traffic_data)))
                    (np_mean (map (fun t => inject_Z (data_volume t))
                                  (filter (in_window w) traffic_data))))
                 (py_min (inject_Z (window_total traffic_data w) / 1000) 1) ]
        else []) /\
    (forall w, window_total traffic_data w = 1500 ->
        exists f, filter (at_window w) fs = [f] /\ confidence f = 1%Q).
Proof.
  intros Hvalid.
  assert (Hper : forall w,
    filter (at_window w) (flat_map ddos_window (group_by_minute traffic_data [])) =
    if 1000 <? window_total traffic_data w
    then [ mk_finding "DDoS" w "HIGH"
             (DDoSMetrics
                (window_total traffic_data w)
                (count_distinct (map source (filter (in_window w) traffic_data)))
                (np_mean (map (fun t => inject_Z (data_volume t))
                              (filter (in_window w) traffic_data))))
             (py_min (inject_Z (window_total traffic_data w) / 1000) 1) ]
    else []).
  { intros w.
    rewrite (filter_flat_map_items datetime_eqb datetime_eqb_eq ddos_window at_window
               _ w (group_by_minute_keys traffic_data [] (NoDup_nil _))
               (ddos_window_at w)).
    rewrite group_by_minute_get. unfold window_total. cbn [dict_get app].
    destruct (filter (in_window w) traffic_data) as [|t l]; reflexivity. }
  exists (flat_map ddos_window (group_by_minute traffic_data [])).
  split; [now apply detect_ddos_attack_valid|]. split; [|split].
  - intros t t' Ht Ht'. rewrite Forall_forall in Hvalid.
    unfold in_window. rewrite datetime_eqb_eq.
    rewrite <- (floor_minute_index _ _ (Hvalid t Ht) (Hvalid t' Ht')).
    split; congruence.
  - exact Hper.
  - intros w Hw. rewrite Hper, Hw. eexists. split; reflexivity.
Qed.

Lemma detect_ddos_attack_per_window_sample :
  exists fs,
    detect_ddos_attack sample_traffic = Ok fs /\
    (forall t t', In t sample_traffic -> In t' sample_traffic ->
        in_window (floor_minute (timestamp t)) t' = true <->
        minute_index (timestamp t) = minute_index (timestamp t')) /\
    (forall w,
        filter (at_window w) fs =
        if 1000 <? window_total sample_traffic w
        then [ mk_finding "DDoS" w "HIGH"
                 (DDoSMetrics
                    (window_total sample_traffic w)
                    (count_distinct (map source (filter (in_window w) sample_traffic)))
                    (np_mean (map (fun t => inject_Z (data_volume t))
                                  (filter (in_window w) sample_traffic))))
                 (py_min (inject_Z (window_total sample_traffic w) / 1000) 1) ]
        else []) /\
    (forall w, window_total sample_traffic w = 1500 ->
        exists f, filter (at_window w) fs = [f] /\ confidence f = 1%Q).
Proof.
  apply (detect_ddos_attack_per_window sample_traffic).
  repeat constructor.
Defined.

(** The sample run: the window 08:00 holds 1500 packets and is reported with
    confidence 1; the window 08:01 is not reported. *)
Example detect_ddos_attack_sample_run :
  window_total sample_traffic (mk_datetime 739000 8 0 0 0) = 1500 /\
  detect_ddos_attack sample_traffic =
  Ok [ mk_finding "DDoS" (mk_datetime 739000 8 0 0 0) "HIGH"
         (DDoSMetrics 1500 2 (Some (150000 # 2))) 1 ].
Proof. split; reflexivity. Qed.

(** C9. Every finding flood detection emits has confidence exactly 1: a
    finding reports a packet total strictly above 1000, on which
    [min(total/1000, 1.0)] is 1. *)
Theorem detect_ddos_attack_confidence_is_one (traffic_data : list TrafficRecord) :
  Forall (fun t => valid_datetime (timestamp t) = true) traffic_data ->
  exists fs,
    detect_ddos_attack traffic_data = Ok fs /\
    Forall (fun f =>
              confidence f = 1%Q /\
              exists n u a,
                metrics f = DDoSMetrics n u a /\ 1000 < n /\
                confidence f = py_min (inject_Z n / 1000) 1)
           fs.
Proof.
  intros Hvalid. eexists. split; [now apply detect_ddos_attack_valid|].
  apply Forall_forall. intros f Hin.
  apply in_flat_map in Hin. destruct Hin as [[k g] [_ Hin]].
  split.
  - now apply (ddos_window_confidence k g).
  - now apply (ddos_window_finding k g).
Qed.

Lemma detect_ddos_attack_confidence_is_one_sample :
  exists fs,
    detect_ddos_attack sample_traffic = Ok fs /\
    Forall (fun f =>
              confidence f = 1%Q /\
              exists n u a,
                metrics f = DDoSMetrics n u a /\ 1000 < n /\
                confidence f = py_min (inject_Z n / 1000) 1)
           fs.
Proof.
  apply (detect_ddos_attack_confidence_is_one sample_traffic).
  repeat constructor.
Defined.

(** ** Spoofing detection *)

Lemma total_seconds_positive (td : timedelta) : Qltb 0 (total_seconds td) = (0 <? td).
Proof.
  unfold total_seconds.
  assert (Hq : (0 < 1000000)%Q) by reflexivity.
  destruct (Z.ltb_spec 0 td) as [H|H].
  - apply Qltb_lt, round64_positive, Qlt_shift_div_l; [exact Hq|].
    rewrite Qmult_0_l. change 0%Q with (inject_Z 0). now rewrite <- Zlt_Qlt.
  - destruct (Qltb 0 (round64 (inject_Z td / 1000000))) eqn:E; [|reflexivity].
    apply Qltb_lt in E. exfalso.
    assert (Hle : (inject_Z td / 1000000 <= 0)%Q).
    { apply Qle_shift_div_r; [exact Hq|].
      rewrite Qmult_0_l. change 0%Q with (inject_Z 0). now rewrite <- Zle_Qle. }
    apply round64_mono in Hle. rewrite (round64_zero 0 (Qeq_refl 0)) in Hle. Lqa.lra.
Qed.

Lemma spoofing_source_ok (entry : string * SourceStats) :
  spoofing_source entry = Ok (spoofing_entry entry).
Proof.
  destruct entry as [src stats]. unfold spoofing_source, spoofing_entry.
  destruct (Qltb 0 (time_span stats)) eqn:E; cbn [andb]; [|reflexivity].
  apply Qltb_lt in E.
  rewrite truediv_nonzero by (intros H; rewrite H in E; now apply Qlt_irrefl in E).
  cbn [rbind]. destruct (Qltb 50 _); reflexivity.
Qed.

Lemma rmap_ok {A B : Type} (f : A -> result B) (g : A -> B) (l : list A) :
  (forall x, f x = Ok (g x)) -> rmap f l = Ok (map g l).
Proof.
  intros H. induction l as [|x l IH]; cbn [rmap map]; [reflexivity|].
  now rewrite H, IH.
Qed.

Lemma detect_spoofing_attack_ok (traffic_data : list TrafficRecord) :
  detect_spoofing_attack traffic_data =
  Ok (flat_map spoofing_entry (source_analysis traffic_data)).
Proof.
  unfold detect_spoofing_attack.
  rewrite (rmap_ok _ _ _ spoofing_source_ok). cbn [rbind].
  now rewrite flat_map_concat_map.
Qed.

Lemma last_map {A B : Type} (f : A -> B) (l : list A) (d : A) :
  last (map f l) (f d) = f (last l d).
Proof.
  induction l as [|x [|y l] IH]; try reflexivity.
  exact IH.
Qed.

Lemma last_cons_default {A : Type} (x : A) (l : list A) (d d' : A) :
  last (x :: l) d = last (x :: l) d'.
Proof.
  revert x. induction l as [|y l IH]; intros x; [reflexivity|].
  change (last (y :: l) d = last (y :: l) d'). apply IH.
Qed.

Lemma fold_absorb (l : list TrafficRecord) (st : SourceStats) :
  fold_left absorb l st =
  mk_stats (st_packet_count st + py_sum (map packet_count l))
           (st_data_volume st + py_sum (map data_volume l))
           (first_seen st)
           (last (map timestamp l) (last_seen st)).
Proof.
  revert st. induction l as [|t l IH]; intros st.
  - destruct st. cbn. f_equal; lia.
  - cbn [fold_left map]. rewrite IH, !py_sum_cons. unfold absorb at 1 2 3 4.
    cbn [st_packet_count st_data_volume first_seen last_seen].
    f_equal; try lia.
    destruct l as [|t' l]; [reflexivity|].
    cbn [map].
    change (last (timestamp t :: timestamp t' :: map timestamp l) (last_seen st))
      with (last (timestamp t' :: map timestamp l) (last_seen st)).
    apply last_cons_default.
Qed.

Lemma source_analysis_keys (traffic_data : list TrafficRecord)
    (d : list (string * SourceStats)) :
  NoDup (map fst d) -> NoDup (map fst (fold_left source_step traffic_data d)).
Proof.
  revert d. induction traffic_data as [|t td IH]; intros d H; cbn [fold_left];
    [assumption|].
  apply IH. unfold source_step. now apply (NoDup_keys_upsert _ string_eqb_eq).
Qed.

Lemma source_analysis_get (traffic_data : list TrafficRecord)
    (d : list (string * SourceStats)) (s : string) :
  dict_get String.eqb (fold_left source_step traffic_data d) s =
  match sightings traffic_data s with
  | [] => dict_get String.eqb d s
  | first :: rest =>
      Some (fold_left absorb (first :: rest)
              (match dict_get String.eqb d s with
               | Some st => st
               | None => unseen first
               end))
  end.
Proof.
  revert d. unfold sightings.
  induction traffic_data as [|t td IH]; intros d; cbn [fold_left filter];
    [reflexivity|].
  rewrite IH. unfold source_step. rewrite (dict_get_upsert _ string_eqb_eq).
  change (from_source s t) with (String.eqb s (source t)).
  destruct (String.eqb s (source t)) eqn:E; [|reflexivity].
  apply String.eqb_eq in E. subst s.
  destruct (filter (from_source (source t)) td); reflexivity.
Qed.

Lemma spoofing_entry_reports (s k : string) (st : SourceStats) (f : Finding) :
  In f (spoofing_entry (k, st)) -> reports_source s f = String.eqb s k.
Proof.
  unfold spoofing_entry. destruct (_ && _); [|contradiction].
  intros [<-|[]]. reflexivity.
Qed.

(** The findings for a source are decided by its records alone. *)
Lemma spoofing_findings_of_source (traffic_data : list TrafficRecord) (s : string) :
  filter (reports_source s) (flat_map spoofing_entry (source_analysis traffic_data)) =
  spoofing_verdict s (sightings traffic_data s).
Proof.
  unfold source_analysis.
  rewrite (filter_flat_map_items String.eqb string_eqb_eq spoofing_entry reports_source
             _ s (source_analysis_keys traffic_data [] (NoDup_nil _))
             (spoofing_entry_reports s)).
  rewrite source_analysis_get. cbn [dict_get].
  destruct (sightings traffic_data s) as [|first rest]; [reflexivity|].
  rewrite fold_absorb. unfold spoofing_verdict, spoofing_entry, time_span, unseen, measured_rate.
  cbn [st_packet_count st_data_volume first_seen last_seen].
  rewrite (last_map timestamp (first :: rest)), Z.add_0_l, total_seconds_positive.
  reflexivity.
Qed.

Lemma spoofing_findings_have_a_source (traffic_data : list TrafficRecord) (f : Finding) :
  In f (flat_map spoofing_entry (source_analysis traffic_data)) ->
  exists t, In t traffic_data /\ finding_source f = Some (source t).
Proof.
  intros Hin. apply in_flat_map in Hin. destruct Hin as [[k st] [Hk Hf]].
  assert (Hsrc : finding_source f = Some k).
  { unfold spoofing_entry in Hf. destruct (_ && _); [|contradiction].
    destruct Hf as [<-|[]]. reflexivity. }
  assert (Hget : dict_get String.eqb (source_analysis traffic_data) k <> None).
  { rewrite (dict_get_None _ string_eqb_eq). intros Hn. apply Hn.
    apply (in_map fst) in Hk. exact Hk. }
  unfold source_analysis in Hget. rewrite source_analysis_get in Hget. cbn [dict_get] in Hget.
  destruct (sightings traffic_data k) as [|t rest] eqn:Es; [congruence|].
  assert (Ht : In t (sightings traffic_data k)) by (rewrite Es; now left).
  unfold sightings in Ht. apply filter_In in Ht. destruct Ht as [Ht Hs].
  unfold from_source in Hs. apply String.eqb_eq in Hs.
  exists t. split; [assumption|congruence].
Qed.

Lemma Qmult_le_nonneg_l (a b c : Q) : (0 <= a)%Q -> (b <= c)%Q -> (a * b <= a * c)%Q.
Proof.
  intros Ha Hbc. rewrite (Qmult_comm a b), (Qmult_comm a c).
  now apply Qmult_le_compat_r.
Qed.

(** A quotient of two rounded operands, rounded: three roundings stay within
    a relative error of 2^-51. *)
Lemma float_quotient_close (T S : Q) :
  (0 <= T)%Q -> (0 < S)%Q ->
  (Qabs (round64 (round64 T / round64 S) - T / S) <= T / S * (1 # 2 ^ 51))%Q.
Proof.
  intros HT HS.
  pose proof (round64_close T) as H1. pose proof (round64_close S) as H2.
  pose proof (round64_close (round64 T / round64 S)) as H3.
  assert (HT' : (0 <= round64 T)%Q).
  { rewrite <- (round64_zero 0 (Qeq_refl 0)). now apply round64_mono. }
  pose proof (round64_positive S HS) as HS'.
  rewrite (Qabs_pos T) in H1 by exact HT. rewrite (Qabs_pos S) in H2 by Lqa.lra.
  set (T' := round64 T) in *. set (S' := round64 S) in *.
  assert (Hq : (0 <= T' / S')%Q).
  { apply Qle_shift_div_l; [exact HS' | Lqa.lra]. }
  rewrite (Qabs_pos (T' / S')) in H3 by exact Hq.
  assert (HX : (0 <= T / S)%Q).
  { apply Qle_shift_div_l; [exact HS | Lqa.lra]. }
  change (1 # 2 ^ 53)%Q with (1 # 9007199254740992)%Q in *.
  change (1 # 2 ^ 51)%Q with (1 # 2251799813685248)%Q.
  apply Qabs_Qle_condition in H1, H2, H3. apply Qabs_Qle_condition.
  set (u := (1 # 9007199254740992)%Q) in *.
  assert (Hu : (u == 1 # 9007199254740992)%Q) by reflexivity.
  assert (ET : (T == T / S * S)%Q) by (field; Lqa.lra).
  assert (ET' : (T' == T' / S' * S')%Q) by (field; Lqa.lra).
  set (X := (T / S)%Q) in *. set (q := (T' / S')%Q) in *.
  (* q * (1 - u) <= X * (1 + u) *)
  assert (Hup : (q * (1 - u) <= X * (1 + u))%Q).
  { apply Qmult_lt_0_le_reg_r with S; [exact HS|].
    apply Qle_trans with (q * S')%Q.
    - setoid_replace (q * (1 - u) * S)%Q with (q * (S * (1 - u)))%Q by ring.
      apply Qmult_le_nonneg_l; [exact Hq | Lqa.lra].
    - rewrite <- ET'.
      setoid_replace (X * (1 + u) * S)%Q with (X * S * (1 + u))%Q by ring.
      rewrite <- ET. Lqa.lra. }
  assert (Hlow : (X * (1 - u) <= q * (1 + u))%Q).
  { apply Qmult_lt_0_le_reg_r with S; [exact HS|].
    apply Qle_trans with (q * S')%Q.
    - rewrite <- ET'.
      setoid_replace (X * (1 - u) * S)%Q with (X * S * (1 - u))%Q by ring.
      rewrite <- ET. Lqa.lra.
    - setoid_replace (q * (1 + u) * S)%Q with (q * (S * (1 + u)))%Q by ring.
      apply Qmult_le_nonneg_l; [exact Hq | Lqa.lra]. }
  set (r := round64 q) in *. rewrite Hu in *. split; Lqa.lra.
Qed.

Lemma measured_rate_close (total : Z) (span : timedelta) :
  0 <= total -> 0 < span ->
  (Qabs (measured_rate total span - inject_Z total / (inject_Z span / 1000000))
     <= inject_Z total / (inject_Z span / 1000000) * (1 # 2 ^ 51))%Q.
Proof.
  intros Ht Hs. unfold measured_rate, float_of_int, total_seconds.
  apply float_quotient_close.
  - change 0%Q with (inject_Z 0). now rewrite <- Zle_Qle.
  - apply Qlt_shift_div_l; [reflexivity|].
    rewrite Qmult_0_l. change 0%Q with (inject_Z 0). now rewrite <- Zlt_Qlt.
Qed.

Lemma spoofing_verdict_reports (s : string) (first : TrafficRecord) (rest : list TrafficRecord) :
  let l := first :: rest in
  let total := py_sum (map packet_count l) in
  let span := datetime_sub (timestamp (last l first)) (timestamp first) in
  spoofing_verdict s l <> [] <-> 0 < span /\ (50 < measured_rate total span)%Q.
Proof.
  intros l total span. unfold spoofing_verdict.
  subst l. cbv beta iota zeta. fold total. fold span.
  rewrite <- Z.ltb_lt, <- Qltb_lt, <- andb_true_iff.
  destruct ((0 <? span) && Qltb 50 (measured_rate total span)); split; congruence.
Qed.

Lemma filter_all {A : Type} (p : A -> bool) (l : list A) :
  (forall x, In x l -> p x = true) -> filter p l = l.
Proof.
  induction l as [|x l IH]; intros H; cbn [filter]; [reflexivity|].
  rewrite (H x (or_introl eq_refl)), IH; [reflexivity|].
  intros y Hy. apply H. now right.
Qed.

(** C3, amended. Spoofing detection returns normally on every traffic
    collection. The findings it emits for a source label are decided by that
    source's records, in input order: with [total] the sum of their packet
    counts and [span] the time from the first to the last of them, there is
    exactly one finding when [span] is positive and the rate measured in
    binary64 (the total, as a float, divided by the seconds of the span, as a
    float) exceeds 50, and none otherwise; its confidence is
    [min(rate/100, 1.0)], again in binary64. The measured rate is within a
    relative error of 2^-51 of [total / span], and can exceed 50 when
    [total / span] does not. Every finding reports a source of the input. In
    particular a single source emitting 200 packets across 2 seconds yields
    exactly one finding, of confidence 1. *)
Theorem detect_spoofing_attack_per_source (traffic_data : list TrafficRecord) :
  exists fs,
    detect_spoofing_attack traffic_data = Ok fs /\
    (forall s,
        filter (reports_source s) fs = spoofing_verdict s (sightings traffic_data s)) /\
    (forall f, In f fs ->
        exists t, In t traffic_data /\ finding_source f = Some (source t)) /\
    (forall s first rest,
        sightings traffic_data s = first :: rest ->
        let total := py_sum (map packet_count (first :: rest)) in
        let span :=
          datetime_sub (timestamp (last (first :: rest) first)) (timestamp first) in
        (filter (reports_source s) fs <> [] <->
         0 < span /\ (50 < measured_rate total span)%Q) /\
        (0 <= total -> 0 < span ->
         (Qabs (measured_rate total span - inject_Z total / (inject_Z span / 1000000))
            <= inject_Z total / (inject_Z span / 1000000) * (1 # 2 ^ 51))%Q)) /\
    (forall s first rest,
        traffic_data = first :: rest ->
        Forall (fun t => source t = s) traffic_data ->
        py_sum (map packet_count traffic_data) = 200 ->
        datetime_sub (timestamp (last traffic_data first)) (timestamp first) = 2000000 ->
        exists f, fs = [f] /\ (confidence f == 1)%Q).
Proof.
  exists (flat_map spoofing_entry (source_analysis traffic_data)).
  split; [apply detect_spoofing_attack_ok|]. split; [|split; [|split]].
  - apply spoofing_findings_of_source.
  - apply spoofing_findings_have_a_source.
  - intros s first rest Hs total span. split.
    + rewrite spoofing_findings_of_source, Hs. apply spoofing_verdict_reports.
    + apply measured_rate_close.
  - intros s first rest Htd Hsrc Htotal Hspan. subst traffic_data.
    rewrite Forall_forall in Hsrc.
    rewrite <- (filter_all (reports_source s) (flat_map _ _)).
    + rewrite spoofing_findings_of_source.
      unfold sightings. rewrite filter_all.
      * unfold spoofing_verdict. rewrite Htotal, Hspan.
        eexists. split; [vm_compute; reflexivity | reflexivity].
      * intros t Ht. unfold from_source. rewrite (Hsrc t Ht). apply String.eqb_refl.
    + intros f Hf. apply spoofing_findings_have_a_source in Hf.
      destruct Hf as [t [Ht Hf]]. unfold reports_source. rewrite Hf, (Hsrc t Ht).
      apply String.eqb_refl.
Qed.

(** C3, the claim as stated fails: a source sending 57 packets across 1.14
    seconds has the rate 57 / 1.14 = 50, which does not exceed 50, yet it is
    reported: the seconds of the span and then the quotient are rounded, and
    the rate comes out as 50.00000000000001, the binary64 number next above
    50. *)
Lemma detect_spoofing_attack_rounds_the_rate_up :
  exists f,
    detect_spoofing_attack
      [ sample_record 8 0 0 0 "UE-005" 30; sample_record 8 0 1 140000 "UE-005" 27 ] = Ok [f] /\
    metrics f = SpoofingMetrics "UE-005" (7036874417766401 # 140737488355328) 57 /\
    (7036874417766401 # 140737488355328 == 50 + (1 # 2 ^ 47))%Q /\
    (inject_Z 57 / (inject_Z 1140000 / 1000000) == 50)%Q.
Proof.
  eexists. split; [vm_compute; reflexivity|]. repeat split.
Qed.

(** The sample run: "UE-009" sends 120 and 80 packets two seconds apart and
    is reported with rate 100 and confidence 1; "UE-007", seen once with
    100000 packets, is not reported. *)
Example detect_spoofing_attack_sample_run :
  exists f rate,
    detect_spoofing_attack sample_burst = Ok [f] /\
    finding_source f = Some "UE-009"%string /\
    metrics f = SpoofingMetrics "UE-009" rate 200 /\
    (rate == 100)%Q /\
    (confidence f == 1)%Q.
Proof. do 2 eexists. split; [vm_compute; reflexivity|]. repeat split. Qed.

(** C10. Spoofing detection never raises (no division by zero): the rate is
    computed only under the guard of a strictly positive time span. A source
    whose first and last sightings carry the same timestamp, in particular a
    source seen in exactly one record, is never reported, whatever its packet
    count. *)
Theorem detect_spoofing_attack_needs_positive_span (traffic_data : list TrafficRecord) :
  exists fs,
    detect_spoofing_attack traffic_data = Ok fs /\
    (forall s first rest,
        sightings traffic_data s = first :: rest ->
        timestamp (last (first :: rest) first) = timestamp first ->
        filter (reports_source s) fs = []) /\
    (forall s t, sightings traffic_data s = [t] -> filter (reports_source s) fs = []) /\
    (forall entry,
        exists found,
          spoofing_source entry = Ok found /\
          (Qltb 0 (time_span (snd entry)) = false -> found = [])).
Proof.
  assert (Hsame : forall s first rest,
             sightings traffic_data s = first :: rest ->
             timestamp (last (first :: rest) first) = timestamp first ->
             filter (reports_source s)
                    (flat_map spoofing_entry (source_analysis traffic_data)) = []).
  { intros s first rest Hs Hts.
    rewrite spoofing_findings_of_source, Hs. unfold spoofing_verdict.
    rewrite Hts. unfold datetime_sub. rewrite Z.sub_diag. reflexivity. }
  exists (flat_map spoofing_entry (source_analysis traffic_data)).
  split; [apply detect_spoofing_attack_ok|]. split; [exact Hsame|]. split.
  - intros s t Hs. apply (Hsame s t [] Hs). reflexivity.
  - intros [src stats]. exists (spoofing_entry (src, stats)).
    split; [apply spoofing_source_ok|].
    cbn [snd]. intros H. unfold spoofing_entry. now rewrite H.
Qed.

(** ** Running the simulator's methods *)

Section SimulatorFacts.
Context {RT : Runtime}.

Lemma bind_ask {A B : Type} (op : world -> A * world) (k : A -> M B)
    (w : world) (self : Simulator) :
  bind (ask op) k (w, self) = k (fst (op w)) (snd (op w), self).
Proof. unfold bind, ask. cbn [fst snd]. now destruct (op w). Qed.

Lemma bind_get_self {B : Type} (k : Simulator -> M B) (w : world) (self : Simulator) :
  bind get_self k (w, self) = k self (w, self).
Proof. reflexivity. Qed.

Lemma bind_append_traffic {B : Type} (t : TrafficRecord) (k : unit -> M B)
    (w : world) (self : Simulator) :
  bind (append_traffic t) k (w, self) = k tt (w, with_traffic self [t]).
Proof. reflexivity. Qed.

Lemma bind_random_choice {B : Type} (x : string) (l : list string) (k : string -> M B)
    (w : world) (self : Simulator) :
  bind (random_choice (x :: l)) k (w, self) =
  k (nth (fst (random_index (length (x :: l)) w)) (x :: l) x)
    (snd (random_index (length (x :: l)) w), self).
Proof.
  unfold random_choice. unfold bind at 1. rewrite bind_ask. reflexivity.
Qed.

Lemma with_traffic_nil (self : Simulator) : with_traffic self [] = self.
Proof. destruct self. unfold with_traffic. cbn. now rewrite app_nil_r. Qed.

Lemma with_traffic_app (self : Simulator) (l l' : list TrafficRecord) :
  with_traffic (with_traffic self l) l' = with_traffic self (l ++ l').
Proof. unfold with_traffic. cbn. now rewrite app_assoc. Qed.

(** One item of the registry yields one benign record when it is an
    endpoint, and nothing otherwise. *)
Lemma normal_traffic_of_run (id : string) (node : NetworkNode)
    (w : world) (self : Simulator) :
  In (id, node) (nodes self) ->
  exists w' new,
    normal_traffic_of (id, node) (w, self) = Ok (tt, (w', with_traffic self new)) /\
    Forall (benign_record (nodes self)) new /\
    map source new = if is_user_equipment (id, node) then [id] else [].
Proof.
  intros Hin. unfold normal_traffic_of, is_user_equipment. cbn [snd].
  destruct (String.eqb (node_type node) "User Equipment").
  - destruct (map fst (nodes self)) as [|k ks] eqn:Hkeys.
    { apply (in_map fst) in Hin. rewrite Hkeys in Hin. contradiction. }
    rewrite bind_ask, bind_get_self, Hkeys, bind_random_choice.
    rewrite !bind_ask.
    do 2 eexists. split; [reflexivity|]. split; [|reflexivity].
    constructor; [|constructor].
    unfold benign_record.
    cbn [packet_count data_volume latency signal_strength is_attack attack_type
         destination].
    repeat split.
    + apply randint_range. lia.
    + apply randint_range. lia.
    + apply randint_range. lia.
    + apply randint_range. lia.
    + eexists. split; [reflexivity|]. apply uniform_range. discriminate.
    + eexists. split; [reflexivity|]. apply uniform_range. discriminate.
    + rewrite Hkeys. apply nth_In, index_range. cbn [length]. lia.
  - exists w, []. rewrite with_traffic_nil. repeat split. constructor.
Qed.

Lemma for_each_normal_traffic (ns : list (string * NetworkNode))
    (w : world) (self : Simulator) :
  incl ns (nodes self) ->
  exists w' new,
    for_each ns normal_traffic_of (w, self) = Ok (tt, (w', with_traffic self new)) /\
    Forall (benign_record (nodes self)) new /\
    map source new = ue_ids ns.
Proof.
  revert w self. induction ns as [|[id node] ns IH]; intros w self Hincl.
  - exists w, []. rewrite with_traffic_nil. repeat split. constructor.
  - destruct (normal_traffic_of_run id node w self (Hincl _ (or_introl eq_refl)))
      as [w1 [new1 [Hrun1 [Hb1 Hs1]]]].
    destruct (IH w1 (with_traffic self new1) (fun x Hx => Hincl x (or_intror Hx)))
      as [w2 [new2 [Hrun2 [Hb2 Hs2]]]].
    exists w2, (new1 ++ new2). cbn [for_each]. unfold bind. rewrite Hrun1, Hrun2.
    rewrite with_traffic_app. split; [reflexivity|]. split.
    + apply Forall_app. split; assumption.
    + rewrite map_app, Hs1, Hs2. unfold ue_ids. cbn [filter].
      destruct (is_user_equipment (id, node)); reflexivity.
Qed.

Lemma generate_normal_traffic_seconds (seconds : list Z) (w : world) (self : Simulator) :
  exists w' new,
    for_each seconds
             (fun _ => bind get_self (fun self => for_each (nodes self) normal_traffic_of))
             (w, self) = Ok (tt, (w', with_traffic self new)) /\
    Forall (benign_record (nodes self)) new /\
    map source new = flat_map (fun _ => ue_ids (nodes self)) seconds.
Proof.
  revert w self. induction seconds as [|sec seconds IH]; intros w self.
  - exists w, []. rewrite with_traffic_nil. repeat split. constructor.
  - destruct (for_each_normal_traffic (nodes self) w self (incl_refl _))
      as [w1 [new1 [Hrun1 [Hb1 Hs1]]]].
    destruct (IH w1 (with_traffic self new1)) as [w2 [new2 [Hrun2 [Hb2 Hs2]]]].
    exists w2, (new1 ++ new2). cbn [for_each]. unfold bind at 1.
    rewrite bind_get_self, Hrun1, Hrun2, with_traffic_app.
    split; [reflexivity|]. split.
    + apply Forall_app. split; assumption.
    + now rewrite map_app, Hs1, Hs2.
Qed.
End SimulatorFacts.

(** ** The traffic generator *)

Lemma length_sightings (l : list TrafficRecord) (id : string) :
  length (sightings l id) = count_occ string_dec (map source l) id.
Proof.
  unfold sightings. induction l as [|t l IH]; cbn [filter map count_occ]; [reflexivity|].
  unfold from_source at 1.
  destruct (string_dec (source t) id) as [->|Hne].
  - rewrite String.eqb_refl. cbn [length]. now rewrite IH.
  - destruct (String.eqb_spec id (source t)) as [->|_]; [contradiction|exact IH].
Qed.

Lemma count_occ_repeated {A : Type} (seconds : list A) (ids : list string) (id : string) :
  count_occ string_dec (flat_map (fun _ => ids) seconds) id =
  (length seconds * count_occ string_dec ids id)%nat.
Proof.
  induction seconds as [|x seconds IH]; cbn [flat_map length]; [reflexivity|].
  rewrite count_occ_app, IH. lia.
Qed.

Lemma in_ue_ids (ns : list (string * NetworkNode)) (id : string) :
  In id (ue_ids ns) <->
  exists node, In (id, node) ns /\ node_type node = "User Equipment"%string.
Proof.
  unfold ue_ids. rewrite in_map_iff. split.
  - intros [[id' node] [Hid Hin]]. cbn [fst] in Hid. subst id'.
    apply filter_In in Hin. destruct Hin as [Hin Hue].
    exists node. split; [assumption|]. now apply String.eqb_eq in Hue.
  - intros [node [Hin Hue]]. exists (id, node). split; [reflexivity|].
    apply filter_In. split; [assumption|].
    unfold is_user_equipment. cbn [snd]. now apply String.eqb_eq.
Qed.

Lemma NoDup_ue_ids (ns : list (string * NetworkNode)) :
  NoDup (map fst ns) -> NoDup (ue_ids ns).
Proof.
  unfold ue_ids. induction ns as [|n ns IH]; cbn [map filter]; intros H; [constructor|].
  inversion H as [|? ? Hnotin Hnd]; subst.
  destruct (is_user_equipment n); [|now apply IH].
  cbn [map]. constructor; [|now apply IH].
  intros Hin. apply Hnotin. apply in_map_iff in Hin.
  destruct Hin as [x [Hx Hin]]. apply filter_In in Hin.
  apply in_map_iff. exists x. tauto.
Qed.

(** C6. For every duration [d >= 0] and every registry (a dictionary: its
    keys are distinct), the traffic generator returns normally, changes
    nothing but the traffic collection, and appends to it exactly [d] records
    per endpoint-role node and none for any other source; every appended
    record has its packet count in [10,100], its byte volume in [100,1000],
    its latency in [1,50], its signal strength in [0.7,1.0], its attack flag
    false and a registered node identifier as destination. *)
Theorem generate_normal_traffic_benign {RT : Runtime} (duration : Z)
    (w : world) (self : Simulator) :
  0 <= duration ->
  NoDup (map fst (nodes self)) ->
  exists w' new,
    generate_normal_traffic duration (w, self) =
      Ok (tt, (w', mk_sim (nodes self) (security_events self)
                          (traffic_data self ++ new))) /\
    Forall (benign_record (nodes self)) new /\
    (forall id node,
        In (id, node) (nodes self) -> node_type node = "User Equipment"%string ->
        Z.of_nat (length (sightings new id)) = duration) /\
    (forall t, In t new ->
        exists node, In (source t, node) (nodes self) /\
                     node_type node = "User Equipment"%string) /\
    Z.of_nat (length new) =
      duration * Z.of_nat (length (filter is_user_equipment (nodes self))).
Proof.
  intros Hd Hnd.
  destruct (generate_normal_traffic_seconds (range duration) w self)
    as [w' [new [Hrun [Hbenign Hsrc]]]].
  exists w', new. split; [exact Hrun|]. split; [exact Hbenign|]. split; [|split].
  - intros id node Hin Hue.
    rewrite length_sightings, Hsrc, count_occ_repeated, length_range.
    assert (Hid : In id (ue_ids (nodes self))) by (apply in_ue_ids; eauto).
    pose proof (proj1 (NoDup_count_occ' string_dec _) (NoDup_ue_ids _ Hnd) id Hid) as H1.
    rewrite H1. lia.
  - intros t Ht. apply in_ue_ids.
    apply (in_map source) in Ht. rewrite Hsrc in Ht.
    apply in_flat_map in Ht. destruct Ht as [_ [_ Ht]]. exact Ht.
  - rewrite <- (length_map source new), Hsrc.
    assert (Hlen : forall (l : list Z) (ids : list string),
               length (flat_map (fun _ => ids) l) = (length l * length ids)%nat).
    { intros l ids. induction l as [|x l IH]; cbn [flat_map length]; [reflexivity|].
      rewrite length_app, IH. lia. }
    rewrite Hlen, length_range. unfold ue_ids. rewrite length_map. lia.
Qed.

(** ** The flood injector *)

Section FloodFacts.
Context {RT : Runtime}.

Lemma ddos_second_run (target : string) (sec attack_packets : Z)
    (w : world) (self : Simulator) :
  exists w' t,
    ddos_second target sec attack_packets (w, self) =
      Ok (attack_packets + packet_count t, (w', with_traffic self [t])) /\
    flood_record target t.
Proof.
  unfold ddos_second. rewrite !bind_ask, bind_append_traffic. unfold ret.
  match goal with
  | |- exists _ _, Ok (_, (?w1, with_traffic _ [?t0])) = _ /\ _ => exists w1, t0
  end.
  split; [reflexivity|].
  unfold flood_record.
  cbn [packet_count latency signal_strength is_attack attack_type destination].
  repeat split.
  - apply randint_range. lia.
  - apply randint_range. lia.
  - eexists. split; [reflexivity|]. apply uniform_range. discriminate.
  - eexists. split; [reflexivity|]. apply uniform_range. discriminate.
Qed.

Lemma ddos_seconds_run (target : string) (seconds : list Z) (attack_packets : Z)
    (w : world) (self : Simulator) :
  exists w' new,
    for_fold seconds attack_packets (ddos_second target) (w, self) =
      Ok (attack_packets + py_sum (map packet_count new), (w', with_traffic self new)) /\
    length new = length seconds /\
    Forall (flood_record target) new.
Proof.
  revert attack_packets w self.
  induction seconds as [|sec seconds IH]; intros attack_packets w self.
  - exists w, []. rewrite with_traffic_nil. cbn [for_fold map]. unfold ret.
    change (py_sum []) with 0. rewrite Z.add_0_r. repeat split. constructor.
  - destruct (ddos_second_run target sec attack_packets w self) as [w1 [t [Hrun1 Ht]]].
    destruct (IH (attack_packets + packet_count t) w1 (with_traffic self [t]))
      as [w2 [new [Hrun2 [Hlen Hall]]]].
    exists w2, (t :: new). cbn [for_fold]. unfold bind. rewrite Hrun1, Hrun2.
    rewrite with_traffic_app. cbn [app map length]. rewrite py_sum_cons, Z.add_assoc.
    split; [reflexivity|]. split; [now rewrite Hlen|]. now constructor.
Qed.
End FloodFacts.

(** C7. For every target identifier and duration [d >= 0], the flood injector
    returns normally, leaves the registry as it was, appends exactly [d]
    traffic records, each addressed to the target with its packet count in
    [1000,5000], attack flag true, attack kind "DDoS", latency in [100,500]
    and signal strength in [0.3,0.6], and appends exactly one security event,
    of severity high, whose description gives the sum of the packet counts of
    the appended records. *)
Theorem simulate_ddos_attack_floods {RT : Runtime} (target : string) (duration : Z)
    (w : world) (self : Simulator) :
  0 <= duration ->
  exists w' new ev,
    simulate_ddos_attack target duration (w, self) =
      Ok (tt, (w', mk_sim (nodes self) (security_events self ++ [ev])
                          (traffic_data self ++ new))) /\
    Z.of_nat (length new) = duration /\
    Forall (flood_record target) new /\
    severity ev = HIGH /\
    threat_type ev = DDOS /\
    target_node ev = target /\
    description ev =
      ("DDoS attack with " ++ str_of_int (py_sum (map packet_count new))
         ++ " packets over " ++ str_of_int duration ++ " seconds")%string.
Proof.
  intros Hd. unfold simulate_ddos_attack. rewrite bind_ask.
  destruct (ddos_seconds_run target (range duration) 0
              (snd (datetime_now w)) self) as [w1 [new [Hrun [Hlen Hall]]]].
  unfold bind at 1. rewrite Hrun. rewrite bind_ask.
  do 3 eexists. split; [reflexivity|].
  rewrite Hlen, length_range, Z.add_0_l. repeat split; try assumption. lia.
Qed.

(** ** The methods on the initialised network, under the deterministic runtime *)

Lemma registry_keys_distinct : NoDup (map fst registry).
Proof.
  unfold registry. cbn [map app fst core_nodes ran_nodes ue_nodes].
  repeat (constructor; [cbn [In]; intuition discriminate|]). constructor.
Qed.

Lemma generate_normal_traffic_benign_sample :
  exists w' new,
    generate_normal_traffic (RT := TestRuntime) 2 (world0, mk_sim registry [] []) =
      Ok (tt, (w', mk_sim registry [] new)) /\
    Forall (benign_record registry) new /\
    (forall id node,
        In (id, node) registry -> node_type node = "User Equipment"%string ->
        Z.of_nat (length (sightings new id)) = 2) /\
    (forall t, In t new ->
        exists node, In (source t, node) registry /\
                     node_type node = "User Equipment"%string) /\
    Z.of_nat (length new) = 2 * Z.of_nat (length (filter is_user_equipment registry)).
Proof.
  apply (generate_normal_traffic_benign (RT := TestRuntime) 2 world0
           (mk_sim registry [] [])).
  - lia.
  - exact registry_keys_distinct.
Defined.

Lemma simulate_ddos_attack_floods_sample :
  exists w' new ev,
    simulate_ddos_attack (RT := TestRuntime) "gNB-001" 3 (world0, mk_sim registry [] []) =
      Ok (tt, (w', mk_sim registry [ev] new)) /\
    Z.of_nat (length new) = 3 /\
    Forall (flood_record "gNB-001") new /\
    severity ev = HIGH /\
    threat_type ev = DDOS /\
    target_node ev = "gNB-001"%string /\
    description ev =
      ("DDoS attack with " ++ str_of_int (py_sum (map packet_count new))
         ++ " packets over " ++ str_of_int 3 ++ " seconds")%string.
Proof.
  apply (simulate_ddos_attack_floods (RT := TestRuntime) "gNB-001" 3 world0
           (mk_sim registry [] [])).
  lia.
Defined.

(** The flood injector's event on the sample run. *)
Example simulate_ddos_attack_sample_event :
  exists w' new ev,
    simulate_ddos_attack (RT := TestRuntime) "gNB-001" 3 (world0, mk_sim registry [] []) =
      Ok (tt, (w', mk_sim registry [ev] new)) /\
    map packet_count new = [1042; 1768; 2037] /\
    description ev = "DDoS attack with 4847 packets over 3 seconds"%string.
Proof. do 3 eexists. split; [vm_compute; reflexivity|]. split; reflexivity. Qed.

(* ================================================================= *)
(** * Further properties *)

(** ** The interception injector *)

Section InjectorFacts.
Context {RT : Runtime}.

Lemma bind_append_event {B : Type} (e : SecurityEvent) (k : unit -> M B)
    (w : world) (self : Simulator) :
  bind (append_event e) k (w, self) =
  k tt (w, mk_sim (nodes self) (security_events self ++ [e]) (traffic_data self)).
Proof. reflexivity. Qed.

(** X1. The interception injector returns normally for every pair of labels,
    whether or not they are registered. It leaves the registry as it was,
    appends exactly one traffic record, from the given source to the given
    destination, flagged as an "MITM" attack with an anomaly score in
    [0.7,0.9], packet count in [50,200], byte volume in [500,2000], latency in
    [20,100] and signal strength in [0.4,0.8], and appends exactly one
    security event, of severity critical and status pending. *)
Theorem simulate_mitm_attack_injects (src dst : string) (w : world) (self : Simulator) :
  exists w' t ev,
    simulate_mitm_attack (src, dst) (w, self) =
      Ok (tt, (w', mk_sim (nodes self) (security_events self ++ [ev])
                          (traffic_data self ++ [t]))) /\
    source t = src /\ destination t = dst /\
    50 <= packet_count t <= 200 /\
    500 <= data_volume t <= 2000 /\
    (exists l, latency t = Some l /\ 20 <= l <= 100)%Q /\
    (exists s, signal_strength t = Some s /\ 4 # 10 <= s <= 8 # 10)%Q /\
    is_attack t = Some true /\
    attack_type t = Some "MITM"%string /\
    (exists a, anomaly_score t = Some a /\ 7 # 10 <= a <= 9 # 10)%Q /\
    threat_type ev = MITM /\ severity ev = CRITICAL /\
    target_node ev = (src ++ " -> " ++ dst)%string /\
    mitigation_status ev = "pending"%string.
Proof.
  unfold simulate_mitm_attack. rewrite !bind_ask, bind_append_traffic, !bind_ask.
  unfold append_event, set_self. cbn [fst snd with_traffic nodes security_events traffic_data].
  do 3 eexists. split; [reflexivity|].
  cbn [source destination packet_count data_volume latency signal_strength is_attack
       attack_type anomaly_score threat_type severity target_node mitigation_status
       new_event].
  repeat split; try (apply randint_range; lia).
  - eexists. split; [reflexivity|]. apply uniform_range. discriminate.
  - eexists. split; [reflexivity|]. apply uniform_range. discriminate.
  - eexists. split; [reflexivity|]. apply uniform_range. discriminate.
Qed.

End InjectorFacts.

(** ** Durations that are not positive, registries without endpoints *)

Lemma range_nonpositive (n : Z) : n <= 0 -> range n = [].
Proof.
  intros H. unfold range. replace (Z.to_nat n) with 0%nat by lia. reflexivity.
Qed.

Section EdgeFacts.
Context {RT : Runtime}.

Lemma for_each_no_endpoint (ns : list (string * NetworkNode))
    (w : world) (self : Simulator) :
  ue_ids ns = [] ->
  for_each ns normal_traffic_of (w, self) = Ok (tt, (w, self)).
Proof.
  unfold ue_ids. induction ns as [|[id node] ns IH]; intros H; [reflexivity|].
  cbn [filter] in H. unfold is_user_equipment in H at 1. cbn [snd] in H.
  cbn [for_each]. unfold bind, normal_traffic_of.
  destruct (String.eqb (node_type node) "User Equipment"); [discriminate H|].
  cbn [ret]. unfold ret at 1. now apply IH.
Qed.

Lemma for_each_seconds_no_endpoint (seconds : list Z) (w : world) (self : Simulator) :
  ue_ids (nodes self) = [] ->
  for_each seconds
           (fun _ => bind get_self (fun self => for_each (nodes self) normal_traffic_of))
           (w, self) = Ok (tt, (w, self)).
Proof.
  intros H. induction seconds as [|sec seconds IH]; [reflexivity|].
  cbn [for_each]. unfold bind at 1. rewrite bind_get_self.
  rewrite (for_each_no_endpoint _ _ _ H). exact IH.
Qed.

End EdgeFacts.

(** X2. When the duration is zero or negative, or when the registry holds no
    endpoint-role node, the traffic generator returns normally and changes
    nothing: no record is appended and neither the random generator nor the
    clock is consulted. *)
Theorem generate_normal_traffic_nothing_to_do {RT : Runtime} (duration : Z)
    (w : world) (self : Simulator) :
  duration <= 0 \/ ue_ids (nodes self) = [] ->
  generate_normal_traffic duration (w, self) = Ok (tt, (w, self)).
Proof.
  intros [H|H]; unfold generate_normal_traffic.
  - now rewrite (range_nonpositive _ H).
  - now apply for_each_seconds_no_endpoint.
Qed.

Lemma generate_normal_traffic_nothing_to_do_sample :
  generate_normal_traffic (RT := TestRuntime) (-5) (world0, mk_sim registry [] []) =
    Ok (tt, (world0, mk_sim registry [] [])).
Proof.
  apply (generate_normal_traffic_nothing_to_do (RT := TestRuntime) (-5) world0
           (mk_sim registry [] [])).
  left. lia.
Defined.

(** X3. For a duration that is zero or negative the flood injector appends no
    traffic record, yet it still appends its security event, of severity high,
    which reports 0 packets over the given duration. *)
Theorem simulate_ddos_attack_nonpositive_duration {RT : Runtime} (target : string)
    (duration : Z) (w : world) (self : Simulator) :
  duration <= 0 ->
  exists w' ev,
    simulate_ddos_attack target duration (w, self) =
      Ok (tt, (w', mk_sim (nodes self) (security_events self ++ [ev])
                          (traffic_data self))) /\
    severity ev = HIGH /\
    target_node ev = target /\
    description ev =
      ("DDoS attack with 0 packets over " ++ str_of_int duration ++ " seconds")%string.
Proof.
  intros H. unfold simulate_ddos_attack.
  rewrite bind_ask, (range_nonpositive _ H).
  cbn [for_fold]. unfold bind at 1. unfold ret at 1. rewrite bind_ask.
  do 2 eexists. split; [reflexivity|]. repeat split.
Qed.

Lemma simulate_ddos_attack_nonpositive_duration_sample :
  exists w' ev,
    simulate_ddos_attack (RT := TestRuntime) "gNB-001" (-3)
                         (world0, mk_sim registry [] []) =
      Ok (tt, (w', mk_sim registry [ev] [])) /\
    severity ev = HIGH /\
    target_node ev = "gNB-001"%string /\
    description ev = "DDoS attack with 0 packets over -3 seconds"%string.
Proof.
  apply (simulate_ddos_attack_nonpositive_duration (RT := TestRuntime) "gNB-001" (-3)
           world0 (mk_sim registry [] [])).
  lia.
Defined.

(** ** Repeating a jamming attack *)

Section JammingTwiceFacts.
Context {RT : Runtime}.

Lemma location_jammed (target_area : number * number) (radius : Q)
    (n : string * NetworkNode) :
  location (snd (jammed target_area radius n)) = location (snd n).
Proof.
  unfold jammed. destruct (in_blast_radius target_area radius n); reflexivity.
Qed.

Lemma in_blast_radius_jammed (target_area area' : number * number) (radius radius' : Q)
    (n : string * NetworkNode) :
  in_blast_radius target_area radius (jammed area' radius' n) =
  in_blast_radius target_area radius n.
Proof.
  unfold in_blast_radius. now rewrite location_jammed.
Qed.

Lemma jammed_idempotent (target_area : number * number) (radius : Q)
    (n : string * NetworkNode) :
  jammed target_area radius (jammed target_area radius n) = jammed target_area radius n.
Proof.
  unfold jammed at 1. rewrite in_blast_radius_jammed.
  unfold jammed. destruct (in_blast_radius target_area radius n) eqn:E;
    [reflexivity | now destruct n].
Qed.

Lemma filter_blast_jammed (target_area : number * number) (radius : Q)
    (ns : list (string * NetworkNode)) :
  length (filter (in_blast_radius target_area radius)
                 (map (jammed target_area radius) ns)) =
  length (filter (in_blast_radius target_area radius) ns).
Proof.
  induction ns as [|n ns IH]; cbn [map filter]; [reflexivity|].
  rewrite in_blast_radius_jammed.
  destruct (in_blast_radius target_area radius n); cbn [length]; now rewrite IH.
Qed.

Lemma dict_get_jammed (target_area : number * number) (radius : Q)
    (ns : list (string * NetworkNode)) (id : string) :
  dict_get String.eqb (map (jammed target_area radius) ns) id =
  option_map (fun n => snd (jammed target_area radius (id, n)))
             (dict_get String.eqb ns id).
Proof.
  induction ns as [|[k n] ns IH]; cbn [map dict_get option_map]; [reflexivity|].
  assert (Hk : fst (jammed target_area radius (k, n)) = k)
    by (unfold jammed; now destruct (in_blast_radius _ _ _)).
  destruct (jammed target_area radius (k, n)) as [k' n'] eqn:Ej.
  cbn [fst] in Hk. subst k'. cbn [dict_get].
  destruct (String.eqb id k) eqn:E; [|exact IH].
  apply String.eqb_eq in E. subst k. cbn [option_map]. now rewrite Ej.
Qed.

(** The distances that could be measured before a jamming attack can be
    measured after it: the attack moves no node. *)
Lemma measured_jammed (target_area : number * number) (radius : Q)
    (ns : list (string * NetworkNode)) :
  Forall (fun n => exists d, measured_distance (location (snd n)) target_area = Ok d) ns ->
  Forall (fun n => exists d, measured_distance (location (snd n)) target_area = Ok d)
         (map (jammed target_area radius) ns).
Proof.
  intros H. apply Forall_map. eapply Forall_impl; [|exact H].
  intros n [d Hd]. exists d. now rewrite location_jammed.
Qed.

End JammingTwiceFacts.

(** X4. Jamming only ever degrades. When a jamming attack returns, a second
    jamming attack over the same area and radius returns as well, leaves the
    registry exactly as the first one left it and reports the same number of
    affected nodes in a second event; and a node that was degraded before a
    jamming attack is degraded after it: no jamming attack returns a node to
    active. *)
Theorem simulate_jamming_attack_twice {RT : Runtime} (target_area : number * number)
    (radius : Q) (w w1 : world) (self self1 : Simulator) :
  simulate_jamming_attack target_area radius (w, self) = Ok (tt, (w1, self1)) ->
  exists w2 ev1 ev2,
    self1 = mk_sim (nodes self1) (security_events self ++ [ev1]) (traffic_data self) /\
    simulate_jamming_attack target_area radius (w1, self1) =
      Ok (tt, (w2, mk_sim (nodes self1) ((security_events self ++ [ev1]) ++ [ev2])
                          (traffic_data self))) /\
    description ev2 = description ev1 /\
    (forall id,
        status_of (nodes self) id = Some "degraded"%string ->
        status_of (nodes self1) id = Some "degraded"%string).
Proof.
  rewrite simulate_jamming_attack_run.
  pose proof (jam_nodes_spec (nodes self) target_area radius) as Hjam.
  destruct (jam_nodes (nodes self) target_area radius) as [[nodes' affected]|e];
    [|discriminate].
  destruct Hjam as [Hall [-> ->]]. cbv zeta.
  intros H. injection H as <- <-.
  do 3 eexists. split; [|split; [|split]].
  - cbn [nodes]. reflexivity.
  - rewrite simulate_jamming_attack_run. cbn [nodes security_events traffic_data].
    rewrite (jam_nodes_ok _ _ _ (measured_jammed target_area radius _ Hall)).
    cbv zeta. rewrite map_map.
    rewrite (map_ext _ _ (jammed_idempotent target_area radius)).
    reflexivity.
  - cbn [description new_event]. unfold len.
    now rewrite !length_map, filter_blast_jammed.
  - intros id. cbn [nodes]. unfold status_of. rewrite dict_get_jammed.
    destruct (dict_get String.eqb (nodes self) id) as [n|]; cbn [option_map];
      [|discriminate].
    intros H. injection H as H. unfold jammed.
    destruct (in_blast_radius target_area radius (id, n)); cbn [snd];
      [reflexivity | now rewrite H].
Qed.

(** The main call of the simulator, repeated. *)
Lemma simulate_jamming_attack_twice_main_call :
  exists w1 self1,
    simulate_jamming_attack (RT := TestRuntime) (Int 1, Int 1) (1 # 2)
                            (world0, mk_sim registry [] []) = Ok (tt, (w1, self1)) /\
    exists w2 ev1 ev2,
      self1 = mk_sim (nodes self1) ([] ++ [ev1]) [] /\
      simulate_jamming_attack (RT := TestRuntime) (Int 1, Int 1) (1 # 2) (w1, self1) =
        Ok (tt, (w2, mk_sim (nodes self1) (([] ++ [ev1]) ++ [ev2]) [])) /\
      description ev2 = description ev1 /\
      (forall id,
          status_of registry id = Some "degraded"%string ->
          status_of (nodes self1) id = Some "degraded"%string).
Proof.
  do 2 eexists. split; [vm_compute; reflexivity|].
  apply (simulate_jamming_attack_twice (RT := TestRuntime) (Int 1, Int 1) (1 # 2)
           world0 _ (mk_sim registry [] []) _).
  vm_compute. reflexivity.
Defined.

(** ** Initialising again *)

Lemma install_get_other (items d : list (string * NetworkNode)) (k : string) :
  ~ In k (map fst items) ->
  dict_get String.eqb (install items d) k = dict_get String.eqb d k.
Proof.
  revert d. unfold install.
  induction items as [|[k0 v0] items IH]; intros d H; cbn [fold_left fst snd];
    [reflexivity|].
  cbn [map fst In] in H. rewrite IH by tauto.
  rewrite (dict_get_set _ string_eqb_eq).
  destruct (String.eqb_spec k k0) as [->|_]; [tauto|reflexivity].
Qed.

Lemma install_get_in (items d : list (string * NetworkNode)) (k : string) (v : NetworkNode) :
  NoDup (map fst items) -> In (k, v) items ->
  dict_get String.eqb (install items d) k = Some v.
Proof.
  revert d. induction items as [|[k0 v0] items IH]; intros d Hnd Hin; [contradiction|].
  cbn [map fst] in Hnd. inversion Hnd as [|? ? Hnotin Hnd']; subst.
  destruct Hin as [Heq|Hin].
  - injection Heq as -> ->.
    change (install ((k, v) :: items) d)
      with (install items (dict_set String.eqb d k v)).
    rewrite (install_get_other _ _ _ Hnotin), (dict_get_set _ string_eqb_eq).
    now rewrite String.eqb_refl.
  - apply (IH (dict_set String.eqb d k0 v0) Hnd' Hin).
Qed.

Lemma dict_set_same (d : list (string * NetworkNode)) (k : string) (v : NetworkNode) :
  dict_get String.eqb d k = Some v -> dict_set String.eqb d k v = d.
Proof.
  induction d as [|[k0 v0] d IH]; cbn [dict_get dict_set]; [discriminate|].
  destruct (String.eqb k k0); intros H.
  - now injection H as ->.
  - now rewrite IH.
Qed.

Lemma install_fixed (items d : list (string * NetworkNode)) :
  (forall k v, In (k, v) items -> dict_get String.eqb d k = Some v) ->
  install items d = d.
Proof.
  induction items as [|[k0 v0] items IH]; intros H; [reflexivity|].
  change (install ((k0, v0) :: items) d)
    with (install items (dict_set String.eqb d k0 v0)).
  rewrite (dict_set_same d k0 v0) by (apply H; now left).
  apply IH. intros k v Hin. apply H. now right.
Qed.

Lemma initialize_network_from {RT : Runtime} (w : world) (self : Simulator) :
  initialize_network (w, self) =
  Ok (tt, (w, mk_sim (install registry (nodes self))
                     (security_events self) (traffic_data self))).
Proof. reflexivity. Qed.

(** X5. [initialize_network] can be called on any simulator. It returns
    normally, leaves the events and the traffic as they were, and consults
    neither the random generator nor the clock. Afterwards each of the 13
    identifiers of the topology maps to its freshly built node (status active,
    security level 5) whatever it mapped to before, so degraded nodes are
    active again; every other identifier maps to what it mapped to before; on
    an empty registry the result is the topology in its listed order; and a
    second call changes nothing. *)
Theorem initialize_network_resets {RT : Runtime} (w : world) (self : Simulator) :
  exists nodes',
    initialize_network (w, self) =
      Ok (tt, (w, mk_sim nodes' (security_events self) (traffic_data self))) /\
    (forall id n, In (id, n) registry ->
        dict_get String.eqb nodes' id = Some n /\
        status n = "active"%string /\ security_level n = 5) /\
    (forall id, ~ In id (map fst registry) ->
        dict_get String.eqb nodes' id = dict_get String.eqb (nodes self) id) /\
    (nodes self = [] -> nodes' = registry) /\
    initialize_network (w, mk_sim nodes' (security_events self) (traffic_data self)) =
      Ok (tt, (w, mk_sim nodes' (security_events self) (traffic_data self))).
Proof.
  exists (install registry (nodes self)).
  split; [apply initialize_network_from|]. split; [|split; [|split]].
  - intros id n Hin. split.
    + now apply install_get_in; [apply registry_keys_distinct|].
    + unfold registry in Hin. apply in_map_iff in Hin.
      destruct Hin as [[[[id' ty] ip] loc] [Heq _]]. injection Heq as _ <-.
      split; reflexivity.
  - intros id. apply install_get_other.
  - intros ->. reflexivity.
  - rewrite initialize_network_from. cbn [nodes security_events traffic_data].
    rewrite install_fixed; [reflexivity|].
    intros k v Hin. now apply install_get_in; [apply registry_keys_distinct|].
Qed.

(** ** The report's distributions and percentage *)

Section TallyFacts.
Context {K E : Type} (eqb : K -> K -> bool) (key : E -> K).
Hypothesis eqb_eq : forall a b, eqb a b = true <-> a = b.

Lemma tally_get (l : list E) (st : list (K * Z)) (k : K) :
  dict_get eqb (fold_left (fun st e => increment eqb st (key e)) l st) k =
  let c := len (filter (fun e => eqb k (key e)) l) in
  if c =? 0 then dict_get eqb st k
  else Some (get_default (dict_get eqb st k) 0 + c).
Proof.
  revert st. induction l as [|e l IH]; intros st; cbn [fold_left filter]; [reflexivity|].
  rewrite IH. cbv zeta. unfold increment. rewrite (dict_get_upsert _ eqb_eq).
  destruct (eqb k (key e)) eqn:E1.
  - apply eqb_eq in E1. subst k.
    unfold len. cbn [length get_default].
    set (c := length (filter (fun e0 => eqb (key e) (key e0)) l)).
    destruct (Z.eqb_spec (Z.of_nat c) 0) as [H0|H0];
      destruct (Z.eqb_spec (Z.of_nat (S c)) 0) as [H1|H1]; try lia.
    + f_equal. destruct (dict_get eqb st (key e)); cbn [get_default]; lia.
    + f_equal. destruct (dict_get eqb st (key e)); cbn [get_default]; lia.
  - reflexivity.
Qed.

Lemma sum_dict_set (d : list (K * Z)) (k : K) (v : Z) :
  py_sum (map snd (dict_set eqb d k v)) =
  py_sum (map snd d) - get_default (dict_get eqb d k) 0 + v.
Proof.
  induction d as [|[k0 v0] d IH]; cbn [dict_set dict_get map snd get_default].
  - rewrite py_sum_cons. change (py_sum []) with 0. lia.
  - destruct (eqb k k0); cbn [map snd get_default]; rewrite !py_sum_cons; [lia|].
    rewrite IH. lia.
Qed.

Lemma tally_sum (l : list E) (st : list (K * Z)) :
  py_sum (map snd (fold_left (fun st e => increment eqb st (key e)) l st)) =
  py_sum (map snd st) + len l.
Proof.
  revert st. induction l as [|e l IH]; intros st; cbn [fold_left].
  - unfold len. cbn. lia.
  - rewrite IH. unfold increment, dict_upsert.
    unfold len. cbn [length].
    destruct (dict_get eqb st (key e)) as [v|] eqn:Eg;
      rewrite sum_dict_set, Eg; cbn [get_default]; lia.
Qed.

Lemma tally_keys (l : list E) (st : list (K * Z)) :
  NoDup (map fst st) ->
  NoDup (map fst (fold_left (fun st e => increment eqb st (key e)) l st)).
Proof.
  revert st. induction l as [|e l IH]; intros st H; cbn [fold_left]; [assumption|].
  apply IH. unfold increment. now apply (NoDup_keys_upsert _ eqb_eq).
Qed.
End TallyFacts.

Lemma Z_eqb_eq (a b : Z) : (a =? b) = true <-> a = b.
Proof. apply Z.eqb_eq. Qed.

Lemma generate_security_report_ok {RT : Runtime} (self : Simulator) :
  generate_security_report self =
  Ok (mk_report
        (mk_summary
           (len (security_events self)) (len (traffic_data self))
           (if 0 <? len (traffic_data self)
            then float_mul
                   (round64 (inject_Z (len (filter get_is_attack (traffic_data self)))
                             / inject_Z (len (traffic_data self)))) 100
            else 0%Q)
           (len (nodes self)))
        (fold_left (fun st e => increment String.eqb st (threat_value (threat_type e)))
                   (security_events self) [])
        (fold_left (fun st e => increment Z.eqb st (severity_value (severity e)))
                   (security_events self) [])
        (map report_event (last_slice 10 (security_events self)))).
Proof.
  unfold generate_security_report.
  destruct (Z.ltb_spec 0 (len (traffic_data self))) as [H|H]; [|reflexivity].
  rewrite int_truediv_nonzero by lia. reflexivity.
Qed.

(** X6. In every security report the threat distribution maps each threat
    label to the number of security events carrying it, and the severity
    distribution maps each severity level to the number of events of that
    level; a label or level that no event carries is absent rather than
    mapped to 0. The counts of either distribution add up to the number of
    security events, which is the reported total, and the reported number of
    nodes is the size of the registry. *)
Theorem generate_security_report_distributions {RT : Runtime} (self : Simulator) :
  exists r,
    generate_security_report self = Ok r /\
    (forall label,
        dict_get String.eqb (threat_distribution r) label =
        let c := len (filter (fun e => String.eqb label (threat_value (threat_type e)))
                             (security_events self)) in
        if c =? 0 then None else Some c) /\
    (forall level,
        dict_get Z.eqb (severity_distribution r) level =
        let c := len (filter (fun e => level =? severity_value (severity e))
                             (security_events self)) in
        if c =? 0 then None else Some c) /\
    NoDup (map fst (threat_distribution r)) /\
    NoDup (map fst (severity_distribution r)) /\
    py_sum (map snd (threat_distribution r)) = total_security_events (summary r) /\
    py_sum (map snd (severity_distribution r)) = total_security_events (summary r) /\
    total_security_events (summary r) = len (security_events self) /\
    network_nodes (summary r) = len (nodes self).
Proof.
  eexists. split; [apply generate_security_report_ok|].
  cbn [threat_distribution severity_distribution summary total_security_events
       network_nodes].
  repeat split.
  - intros label.
    rewrite (tally_get String.eqb (fun e => threat_value (threat_type e)) string_eqb_eq).
    cbv zeta. cbn [dict_get get_default].
    now destruct (_ =? 0).
  - intros level.
    rewrite (tally_get Z.eqb (fun e => severity_value (severity e)) Z_eqb_eq).
    cbv zeta. cbn [dict_get get_default].
    now destruct (_ =? 0).
  - apply (tally_keys String.eqb _ string_eqb_eq). constructor.
  - apply (tally_keys Z.eqb _ Z_eqb_eq). constructor.
  - now rewrite tally_sum.
  - now rewrite tally_sum.
Qed.

(** X7. The attack-traffic percentage of every report lies between 0 and 100;
    it is 0 exactly when no record of the traffic collection carries a true
    attack flag (a record without the flag counts as benign). *)
Theorem attack_traffic_percentage_bounds {RT : Runtime} (self : Simulator) :
  exists r,
    generate_security_report self = Ok r /\
    (0 <= attack_traffic_percentage (summary r) <= 100)%Q /\
    ((attack_traffic_percentage (summary r) == 0)%Q <->
     Forall (fun t => is_attack t <> Some true) (traffic_data self)).
Proof.
  eexists. split; [apply generate_security_report_ok|].
  cbn [summary attack_traffic_percentage].
  assert (Hfilter : forall td : list TrafficRecord,
             (length (filter get_is_attack td) <= length td)%nat /\
             (length (filter get_is_attack td) = 0%nat <->
              Forall (fun t => is_attack t <> Some true) td)).
  { induction td as [|t td [IH1 IH2]]; cbn [filter length].
    - split; [lia|]. split; [constructor|reflexivity].
    - assert (Ht : get_is_attack t = true <-> is_attack t = Some true).
      { unfold get_is_attack. destruct (is_attack t) as [[|]|]; split; congruence. }
      destruct (get_is_attack t) eqn:Eg; cbn [length]; (split; [lia|]); split.
      + discriminate.
      + intros H. inversion H; subst. tauto.
      + intros H. constructor; [|now apply IH2].
        intros Hs. apply Ht in Hs. discriminate.
      + intros H. inversion H; subst. now apply IH2. }
  destruct (Hfilter (traffic_data self)) as [Hle Hzero].
  unfold len. destruct (Z.ltb_spec 0 (Z.of_nat (length (traffic_data self)))) as [Hn|Hn].
  - set (a := length (filter get_is_attack (traffic_data self))) in *.
    set (n := length (traffic_data self)) in *.
    assert (Hn' : (0 < inject_Z (Z.of_nat n))%Q)
      by (rewrite <- (Zlt_Qlt 0); exact Hn).
    assert (Ha0 : (0 <= inject_Z (Z.of_nat a))%Q)
      by (rewrite <- (Zle_Qle 0); lia).
    assert (Han : (inject_Z (Z.of_nat a) <= inject_Z (Z.of_nat n))%Q)
      by (rewrite <- Zle_Qle; lia).
    assert (Hx0 : (0 <= inject_Z (Z.of_nat a) / inject_Z (Z.of_nat n))%Q)
      by (apply Qle_shift_div_l; [exact Hn' | now rewrite Qmult_0_l]).
    assert (Hx1 : (inject_Z (Z.of_nat a) / inject_Z (Z.of_nat n) <= 1)%Q)
      by (apply Qle_shift_div_r; [exact Hn' | now rewrite Qmult_1_l]).
    assert (Hxn : (inject_Z (Z.of_nat n) * (inject_Z (Z.of_nat a) / inject_Z (Z.of_nat n))
                   == inject_Z (Z.of_nat a))%Q).
    { apply Qmult_div_r. intros H. rewrite H in Hn'. now apply Qlt_irrefl in Hn'. }
    set (x := (inject_Z (Z.of_nat a) / inject_Z (Z.of_nat n))%Q) in *.
    assert (Hy0 : (0 <= round64 x)%Q).
    { rewrite <- (round64_zero 0 (Qeq_refl 0)). now apply round64_mono. }
    assert (Hy1 : (round64 x <= 1)%Q).
    { apply Qle_trans with (round64 1); [now apply round64_mono|].
      rewrite (round64_double 1) by (apply (is_double_Z 1); reflexivity). apply Qle_refl. }
    unfold float_mul. split; [split|].
    + rewrite <- (round64_zero 0 (Qeq_refl 0)). apply round64_mono. Lqa.lra.
    + apply Qle_trans with (round64 100); [apply round64_mono; Lqa.lra|].
      rewrite (round64_double 100) by (apply (is_double_Z 100); reflexivity). apply Qle_refl.
    + rewrite <- Hzero, round64_eq_0. split.
      * intros Hp.
        assert (Hx : (x == 0)%Q) by (apply round64_eq_0; Lqa.lra).
        rewrite Hx, Qmult_0_r in Hxn.
        symmetry in Hxn. apply (inject_Z_injective (Z.of_nat a) 0) in Hxn. lia.
      * intros H0. unfold x. rewrite H0.
        rewrite (round64_zero (inject_Z (Z.of_nat 0) / inject_Z (Z.of_nat n))); reflexivity.
  - assert (Hnil : traffic_data self = []) by (destruct (traffic_data self); [reflexivity | cbn in Hn; lia]).
    rewrite Hnil. split; [split; discriminate|]. split; [constructor|reflexivity].
Qed.

(** ** Grouping by time windows of any size *)

Section UpsertFacts.
Context {K V : Type} (eqb : K -> K -> bool).
Hypothesis eqb_eq : forall a b, eqb a b = true <-> a = b.

Lemma dict_upsert_cons (k0 : K) (v0 : V) (d : list (K * V)) (k : K) (i : V) (f : V -> V) :
  dict_upsert eqb ((k0, v0) :: d) k i f =
  if eqb k k0 then (k0, f v0) :: d else (k0, v0) :: dict_upsert eqb d k i f.
Proof.
  unfold dict_upsert. cbn [dict_get dict_set].
  destruct (eqb k k0); [reflexivity|].
  destruct (dict_get eqb d k); reflexivity.
Qed.

Lemma dict_upsert_nil (k : K) (i : V) (f : V -> V) :
  dict_upsert eqb [] k i f = [(k, f i)].
Proof. reflexivity. Qed.

Lemma dict_get_In (d : list (K * V)) (k : K) (v : V) :
  NoDup (map fst d) -> dict_get eqb d k = Some v <-> In (k, v) d.
Proof.
  induction d as [|[k0 v0] d IH]; intros Hnd; cbn [dict_get In].
  - split; [discriminate|contradiction].
  - cbn [map fst] in Hnd. inversion Hnd as [|? ? Hnotin Hnd']; subst.
    destruct (eqb k k0) eqn:E.
    + apply eqb_eq in E. subst k0. split.
      * intros H. left. congruence.
      * intros [H|H]; [congruence|].
        exfalso. apply Hnotin. apply (in_map fst) in H. exact H.
    + rewrite (IH Hnd'). split; [tauto|].
      intros [H|H]; [|assumption].
      injection H as -> ->. assert (Hr : eqb k k = true) by now apply eqb_eq.
      congruence.
Qed.

Lemma dict_get_Permutation (d d' : list (K * V)) (k : K) :
  NoDup (map fst d) -> Permutation d d' ->
  dict_get eqb d' k = dict_get eqb d k.
Proof.
  intros Hnd Hp.
  assert (Hnd' : NoDup (map fst d'))
    by (eapply Permutation_NoDup; [apply Permutation_map, Hp | exact Hnd]).
  destruct (dict_get eqb d k) as [v|] eqn:E.
  - apply (dict_get_In _ _ _ Hnd) in E. apply (dict_get_In _ _ _ Hnd').
    eapply Permutation_in; eassumption.
  - destruct (dict_get eqb d' k) as [v'|] eqn:E'; [|reflexivity].
    apply (dict_get_In _ _ _ Hnd') in E'.
    apply (Permutation_in _ (Permutation_sym Hp)) in E'.
    apply (dict_get_In _ _ _ Hnd) in E'. congruence.
Qed.
End UpsertFacts.

Section GroupingFacts.
Variable window_size : Z.

(** What the grouping keeps true of the windows built so far. *)
Definition well_grouped (windows : list (datetime * list TrafficRecord)) : Prop :=
  Forall (fun g =>
            snd g <> [] /\
            Forall (fun t => window_start (timestamp t) window_size = Ok (fst g))
                   (snd g))
         windows.

Lemma well_grouped_upsert (windows : list (datetime * list TrafficRecord))
    (k : datetime) (t : TrafficRecord) :
  well_grouped windows ->
  window_start (timestamp t) window_size = Ok k ->
  well_grouped (dict_upsert datetime_eqb windows k [] (fun l => l ++ [t])).
Proof.
  intros Hw Hk. induction Hw as [|[k0 g0] windows [Hne Hall] Hrest IH].
  - rewrite dict_upsert_nil. constructor; [|constructor].
    cbn [fst snd app]. split; [discriminate|]. now constructor.
  - rewrite dict_upsert_cons. cbn [fst snd] in *.
    destruct (datetime_eqb k k0) eqn:E.
    + apply datetime_eqb_eq in E. subst k0. constructor; [|assumption].
      cbn [fst snd]. split.
      * now destruct g0.
      * apply Forall_app. split; [assumption|now constructor].
    + constructor; [|exact IH]. now split.
Qed.

Lemma concat_upsert (windows : list (datetime * list TrafficRecord))
    (k : datetime) (t : TrafficRecord) :
  Permutation
    (concat (map snd (dict_upsert datetime_eqb windows k [] (fun l => l ++ [t]))))
    (concat (map snd windows) ++ [t]).
Proof.
  induction windows as [|[k0 g0] windows IH].
  - reflexivity.
  - rewrite dict_upsert_cons.
    destruct (datetime_eqb k k0); cbn [map snd concat].
    + rewrite <- !app_assoc. apply Permutation_app_head.
      apply Permutation_app_comm.
    + rewrite <- app_assoc. now apply Permutation_app_head.
Qed.

Lemma group_loop_partition (traffic_data : list TrafficRecord)
    (windows0 windows : list (datetime * list TrafficRecord)) :
  group_loop traffic_data window_size windows0 = Ok windows ->
  NoDup (map fst windows0) -> well_grouped windows0 ->
  NoDup (map fst windows) /\ well_grouped windows /\
  Permutation (concat (map snd windows)) (concat (map snd windows0) ++ traffic_data).
Proof.
  revert windows0.
  induction traffic_data as [|t td IH]; intros windows0 Hrun Hnd Hw; cbn [group_loop] in Hrun.
  - injection Hrun as <-. rewrite app_nil_r. auto.
  - destruct (window_start (timestamp t) window_size) as [k|e] eqn:Ek;
      cbn [rbind] in Hrun; [|discriminate].
    destruct (IH _ Hrun (NoDup_keys_upsert _ datetime_eqb_eq _ _ _ _ Hnd)
                 (well_grouped_upsert _ _ _ Hw Ek)) as [H1 [H2 H3]].
    split; [exact H1|]. split; [exact H2|].
    rewrite H3, (concat_upsert windows0 k t), <- app_assoc. reflexivity.
Qed.
End GroupingFacts.

(** X8. Whenever [_group_by_time_windows] returns, for any window size, its
    result is a partition of the input: the window keys are distinct, no
    window is empty (so the emptiness test of the flood detector never
    fires), every record sits under the key computed from its own timestamp,
    and the windows together hold exactly the records of the input, each as
    often as it occurs there. *)
Theorem group_by_time_windows_partition (traffic_data : list TrafficRecord)
    (window_size : Z) (windows : list (datetime * list TrafficRecord)) :
  _group_by_time_windows traffic_data window_size = Ok windows ->
  NoDup (map fst windows) /\
  Forall (fun g => snd g <> []) windows /\
  (forall k g t, In (k, g) windows -> In t g ->
      window_start (timestamp t) window_size = Ok k) /\
  Permutation (concat (map snd windows)) traffic_data.
Proof.
  intros Hrun. unfold _group_by_time_windows in Hrun.
  destruct (group_loop_partition window_size traffic_data [] windows Hrun
              (NoDup_nil _) (Forall_nil _)) as [H1 [H2 H3]].
  split; [exact H1|]. split; [|split].
  - eapply Forall_impl; [|exact H2]. intros g [Hg _]. exact Hg.
  - intros k g t Hin Ht. unfold well_grouped in H2. rewrite Forall_forall in H2.
    destruct (H2 _ Hin) as [_ Hall]. rewrite Forall_forall in Hall.
    exact (Hall t Ht).
  - exact H3.
Qed.

Lemma group_by_time_windows_partition_sample :
  exists windows,
    _group_by_time_windows sample_traffic 120 = Ok windows /\
    NoDup (map fst windows) /\
    Forall (fun g => snd g <> []) windows /\
    (forall k g t, In (k, g) windows -> In t g ->
        window_start (timestamp t) 120 = Ok k) /\
    Permutation (concat (map snd windows)) sample_traffic.
Proof.
  eexists. split; [vm_compute; reflexivity|].
  apply (group_by_time_windows_partition sample_traffic 120).
  vm_compute. reflexivity.
Defined.

Lemma window_start_minutes (ts : datetime) (window_size : Z) :
  valid_datetime ts = true -> 60 <= window_size ->
  window_start ts window_size =
  Ok (mk_datetime (dt_ordinal ts) (dt_hour ts)
                  (dt_minute ts / (window_size / 60) * (window_size / 60)) 0 0).
Proof.
  intros Hv Hws. pose proof Hv as Hf. apply valid_datetime_fields in Hf.
  assert (Hk : 1 <= window_size / 60) by (apply Z.div_le_lower_bound; lia).
  assert (Hq : 0 <= dt_minute ts / (window_size / 60) * (window_size / 60) <= dt_minute ts).
  { split.
    - apply Z.mul_nonneg_nonneg; [apply Z.div_pos|]; lia.
    - rewrite Z.mul_comm. apply Z.mul_div_le. lia. }
  unfold window_start, replace_second_microsecond, replace_minute, checked.
  replace (valid_datetime (mk_datetime (dt_ordinal ts) (dt_hour ts) (dt_minute ts) 0 0))
    with true by (symmetry; apply valid_datetime_fields; cbn; lia).
  cbn [rbind]. unfold floordiv.
  change (60 =? 0) with false.
  cbn [rbind dt_minute dt_ordinal dt_hour dt_second dt_microsecond].
  destruct (Z.eqb_spec (window_size / 60) 0) as [H0|_]; [lia|].
  cbn [rbind].
  match goal with
  | |- context [valid_datetime ?d] =>
      replace (valid_datetime d) with true; [reflexivity|]
  end.
  symmetry. apply valid_datetime_fields. cbn. lia.
Qed.

Lemma window_start_short (ts : datetime) (window_size : Z) :
  valid_datetime ts = true -> 0 <= window_size < 60 ->
  window_start ts window_size = Raise ZeroDivisionError.
Proof.
  intros Hv Hws. pose proof Hv as Hf. apply valid_datetime_fields in Hf.
  unfold window_start, replace_second_microsecond, checked.
  replace (valid_datetime (mk_datetime (dt_ordinal ts) (dt_hour ts) (dt_minute ts) 0 0))
    with true by (symmetry; apply valid_datetime_fields; cbn; lia).
  cbn [rbind]. unfold floordiv. change (60 =? 0) with false. cbn [rbind].
  rewrite (Z.div_small window_size 60) by lia. reflexivity.
Qed.

(** X9. [_group_by_time_windows] divides by [window_size // 60]. With a
    window size of at least 60 seconds it never raises, and the key of a
    record is its timestamp with seconds and microseconds cleared and the
    minute rounded down to a multiple of [window_size // 60] (so a 90-second
    window is a 60-second window). With a window size from 0 to 59 seconds it
    raises [ZeroDivisionError] on every non-empty input. On the empty input it
    returns no window whatever the size. *)
Theorem group_by_time_windows_sizes (traffic_data : list TrafficRecord) (window_size : Z) :
  Forall (fun t => valid_datetime (timestamp t) = true) traffic_data ->
  (60 <= window_size ->
   (exists windows, _group_by_time_windows traffic_data window_size = Ok windows) /\
   (forall t, In t traffic_data ->
      window_start (timestamp t) window_size =
      Ok (mk_datetime (dt_ordinal (timestamp t)) (dt_hour (timestamp t))
            (dt_minute (timestamp t) / (window_size / 60) * (window_size / 60)) 0 0))) /\
  (0 <= window_size < 60 -> traffic_data <> [] ->
   _group_by_time_windows traffic_data window_size = Raise ZeroDivisionError) /\
  _group_by_time_windows [] window_size = Ok [].
Proof.
  intros Hvalid. split; [|split; [|reflexivity]].
  - intros Hws. split.
    + unfold _group_by_time_windows. generalize (@nil (datetime * list TrafficRecord)).
      induction Hvalid as [|t td Ht _ IH]; intros windows; cbn [group_loop].
      * now exists windows.
      * rewrite (window_start_minutes _ _ Ht Hws). cbn [rbind]. apply IH.
    + intros t Ht. rewrite Forall_forall in Hvalid.
      now apply window_start_minutes; [apply Hvalid|].
  - intros Hws Hne. destruct Hvalid as [|t td Ht _]; [congruence|].
    unfold _group_by_time_windows. cbn [group_loop].
    now rewrite (window_start_short _ _ Ht Hws).
Qed.

Lemma group_by_time_windows_sizes_sample :
  (60 <= 90 ->
   (exists windows, _group_by_time_windows sample_traffic 90 = Ok windows) /\
   (forall t, In t sample_traffic ->
      window_start (timestamp t) 90 =
      Ok (mk_datetime (dt_ordinal (timestamp t)) (dt_hour (timestamp t))
            (dt_minute (timestamp t) / (90 / 60) * (90 / 60)) 0 0))) /\
  (0 <= 90 < 60 -> sample_traffic <> [] ->
   _group_by_time_windows sample_traffic 90 = Raise ZeroDivisionError) /\
  _group_by_time_windows [] 90 = Ok [].
Proof.
  apply (group_by_time_windows_sizes sample_traffic 90).
  repeat constructor.
Defined.

(** A 30-second window on the sample input. *)
Example group_by_time_windows_thirty_seconds :
  _group_by_time_windows sample_traffic 30 = Raise ZeroDivisionError.
Proof. reflexivity. Qed.

(** ** Flood detection meets the flood injector *)

Lemma ddos_findings_at_window (traffic_data : list TrafficRecord) (w : datetime) :
  filter (at_window w) (flat_map ddos_window (group_by_minute traffic_data [])) =
  if 1000 <? window_total traffic_data w
  then [ mk_finding "DDoS" w "HIGH"
           (DDoSMetrics
              (window_total traffic_data w)
              (count_distinct (map source (filter (in_window w) traffic_data)))
              (np_mean (map (fun t => inject_Z (data_volume t))
                            (filter (in_window w) traffic_data))))
           (py_min (inject_Z (window_total traffic_data w) / 1000) 1) ]
  else [].
Proof.
  rewrite (filter_flat_map_items datetime_eqb datetime_eqb_eq ddos_window at_window
             _ w (group_by_minute_keys traffic_data [] (NoDup_nil _))
             (ddos_window_at w)).
  rewrite group_by_minute_get. unfold window_total. cbn [dict_get app].
  destruct (filter (in_window w) traffic_data) as [|t l]; reflexivity.
Qed.

Lemma py_sum_member (l : list Z) (x : Z) :
  Forall (fun y => 0 <= y) l -> In x l -> x <= py_sum l.
Proof.
  intros Hall. induction Hall as [|y l Hy Hall IH]; intros Hin; [contradiction|].
  rewrite py_sum_cons.
  assert (Hsum : 0 <= py_sum l).
  { clear -Hall. induction Hall as [|z l Hz _ IH]; [reflexivity|].
    rewrite py_sum_cons. lia. }
  destruct Hin as [->|Hin]; [lia|]. specialize (IH Hin). lia.
Qed.

(** X10. When no packet count is negative, a record of more than 1000 packets
    gets its minute reported: flood detection emits a finding for the window
    of that record, with confidence 1. (The flood injector draws its packet
    counts from 1000 to 5000; a lone record of exactly 1000 packets is not
    above the threshold.) *)
Theorem detect_ddos_attack_reports_heavy_record (traffic_data : list TrafficRecord)
    (t : TrafficRecord) :
  Forall (fun t => valid_datetime (timestamp t) = true) traffic_data ->
  Forall (fun t => 0 <= packet_count t) traffic_data ->
  In t traffic_data ->
  1000 < packet_count t ->
  exists fs f,
    detect_ddos_attack traffic_data = Ok fs /\
    In f fs /\
    f_timestamp f = floor_minute (timestamp t) /\
    f_attack_type f = "DDoS"%string /\
    confidence f = 1%Q.
Proof.
  intros Hvalid Hpos Hin Hbig.
  set (w := floor_minute (timestamp t)).
  assert (Htotal : 1000 < window_total traffic_data w).
  { unfold window_total.
    apply Z.lt_le_trans with (packet_count t); [exact Hbig|].
    apply py_sum_member.
    - apply Forall_forall. intros y Hy. apply in_map_iff in Hy.
      destruct Hy as [t' [<- Ht']]. apply filter_In in Ht'.
      rewrite Forall_forall in Hpos. apply Hpos. tauto.
    - apply in_map. apply filter_In. split; [exact Hin|].
      unfold in_window, w. now apply datetime_eqb_eq. }
  pose proof (ddos_findings_at_window traffic_data w) as Hper.
  apply Z.ltb_lt in Htotal. rewrite Htotal in Hper.
  eexists. eexists. split; [now apply detect_ddos_attack_valid|].
  split; [|split; [|split]].
  - eapply (proj1 (filter_In (at_window w) _ _)). rewrite Hper. now left.
  - reflexivity.
  - reflexivity.
  - cbn [confidence]. unfold py_min.
    apply Z.ltb_lt in Htotal. now rewrite (one_lt_thousandth _ Htotal).
Qed.

Lemma detect_ddos_attack_reports_heavy_record_sample :
  exists fs f,
    detect_ddos_attack [sample_record 9 30 15 0 "ATTACKER-1" 1001] = Ok fs /\
    In f fs /\
    f_timestamp f = floor_minute (timestamp (sample_record 9 30 15 0 "ATTACKER-1" 1001)) /\
    f_attack_type f = "DDoS"%string /\
    confidence f = 1%Q.
Proof.
  apply (detect_ddos_attack_reports_heavy_record
           [sample_record 9 30 15 0 "ATTACKER-1" 1001]
           (sample_record 9 30 15 0 "ATTACKER-1" 1001)).
  - repeat constructor.
  - repeat constructor. cbn. lia.
  - now left.
  - cbn. lia.
Defined.

(** A lone record of exactly 1000 packets is not reported. *)
Example detect_ddos_attack_threshold_is_strict :
  detect_ddos_attack [sample_record 9 30 15 0 "ATTACKER-1" 1000] = Ok [].
Proof. reflexivity. Qed.

(** ** Jamming detection *)

Lemma insert_group_perm {V : Type} (g : datetime * V) (l : list (datetime * V)) :
  Permutation (insert_group g l) (g :: l).
Proof.
  induction l as [|h l IH]; cbn [insert_group]; [reflexivity|].
  destruct (_ <=? _); [reflexivity|].
  rewrite IH. apply perm_swap.
Qed.

Lemma sort_groups_perm {V : Type} (l : list (datetime * V)) :
  Permutation (sort_groups l) l.
Proof.
  unfold sort_groups. induction l as [|g l IH]; cbn [fold_right]; [reflexivity|].
  rewrite insert_group_perm. now constructor.
Qed.

Lemma insert_group_sorted {V : Type} (g : datetime * V) (l : list (datetime * V)) :
  StronglySorted (fun a b => earlier_or_same (fst a) (fst b)) l ->
  StronglySorted (fun a b => earlier_or_same (fst a) (fst b)) (insert_group g l).
Proof.
  intros Hs. induction Hs as [|h l Hs IH Hall]; cbn [insert_group].
  - constructor; constructor.
  - destruct (Z.leb_spec (to_microseconds (fst g)) (to_microseconds (fst h))) as [Hle|Hlt].
    + constructor; [now constructor|].
      constructor; [exact Hle|].
      eapply Forall_impl; [|exact Hall].
      intros x Hx. unfold earlier_or_same in *. lia.
    + constructor; [exact IH|].
      eapply Permutation_Forall; [symmetry; apply insert_group_perm|].
      constructor; [|exact Hall]. unfold earlier_or_same. lia.
Qed.

Lemma sort_groups_sorted {V : Type} (l : list (datetime * V)) :
  StronglySorted (fun a b => earlier_or_same (fst a) (fst b)) (sort_groups l).
Proof.
  unfold sort_groups. induction l as [|g l IH]; cbn [fold_right]; [constructor|].
  now apply insert_group_sorted.
Qed.

(** The groups under construction, before sorting. *)
Definition signal_groups (data : list (datetime * Q)) (groups : list (datetime * list Q))
  : list (datetime * list Q) :=
  fold_left (fun groups '(ts, s) =>
               dict_upsert datetime_eqb groups (floor_minute ts) [] (fun l => l ++ [s]))
            data groups.

Lemma signal_groups_keys (data : list (datetime * Q)) (groups : list (datetime * list Q)) :
  NoDup (map fst groups) -> NoDup (map fst (signal_groups data groups)).
Proof.
  revert groups. unfold signal_groups.
  induction data as [|[ts s] data IH]; intros groups H; cbn [fold_left]; [assumption|].
  apply IH, (NoDup_keys_upsert _ datetime_eqb_eq), H.
Qed.

Lemma signal_groups_get (data : list (datetime * Q)) (groups : list (datetime * list Q))
    (w : datetime) :
  dict_get datetime_eqb (signal_groups data groups) w =
  match filter (fun p => datetime_eqb w (floor_minute (fst p))) data with
  | [] => dict_get datetime_eqb groups w
  | l => Some (get_default (dict_get datetime_eqb groups w) [] ++ map snd l)
  end.
Proof.
  revert groups. unfold signal_groups.
  induction data as [|[ts s] data IH]; intros groups; cbn [fold_left filter fst];
    [reflexivity|].
  rewrite IH, (dict_get_upsert _ datetime_eqb_eq).
  destruct (datetime_eqb w (floor_minute ts)) eqn:E.
  - apply datetime_eqb_eq in E. subst w. cbn [get_default map snd].
    destruct (filter _ data) as [|p l];
      destruct (dict_get datetime_eqb groups (floor_minute ts));
      cbn [get_default map snd app]; try reflexivity;
      now rewrite <- app_assoc.
  - reflexivity.
Qed.

Section JammingFacts.
Variable series_mean : list Q -> Q.
Variable series_var : list Q -> option Q.

Abbreviation jamming_group := (jamming_group series_mean series_var).

Lemma detect_jamming_attack_groups (traffic_data : list TrafficRecord) :
  detect_jamming_attack series_mean series_var traffic_data =
  Ok (flat_map jamming_group (groupby_time_window (signal_samples traffic_data))).
Proof.
  unfold detect_jamming_attack. fold (signal_samples traffic_data).
  destruct (signal_samples traffic_data); reflexivity.
Qed.

Lemma jamming_group_at (w k : datetime) (g : list Q) (f : Finding) :
  In f (jamming_group (k, g)) -> at_window w f = datetime_eqb w k.
Proof.
  unfold jamming_group. destruct (_ || _); [|contradiction].
  intros [<-|[]]. reflexivity.
Qed.

Lemma jamming_findings_at_window (traffic_data : list TrafficRecord) (w : datetime) :
  filter (at_window w)
         (flat_map jamming_group (groupby_time_window (signal_samples traffic_data))) =
  match samples_in w traffic_data with
  | [] => []
  | g => jamming_group (w, g)
  end.
Proof.
  assert (Hnd : NoDup (map fst (signal_groups (signal_samples traffic_data) [])))
    by (apply signal_groups_keys; constructor).
  assert (Hp : Permutation (signal_groups (signal_samples traffic_data) [])
                           (groupby_time_window (signal_samples traffic_data)))
    by (symmetry; apply sort_groups_perm).
  rewrite (filter_flat_map_items datetime_eqb datetime_eqb_eq jamming_group at_window
             _ w).
  - rewrite (dict_get_Permutation _ datetime_eqb_eq _ _ w Hnd Hp).
    rewrite signal_groups_get. unfold samples_in. cbn [dict_get get_default app].
    destruct (filter _ (signal_samples traffic_data)); reflexivity.
  - eapply Permutation_NoDup; [apply Permutation_map, Hp | exact Hnd].
  - apply jamming_group_at.
Qed.

End JammingFacts.

Lemma fold_Qmin_spec (l : list Q) (x : Q) :
  In (fold_left Qmin l x) (x :: l) /\
  Forall (fun y => (fold_left Qmin l x <= y)%Q) (x :: l).
Proof.
  revert x. induction l as [|y l IH]; intros x; cbn [fold_left].
  - split; [now left | constructor; [apply Qle_refl | constructor]].
  - destruct (IH (Qmin x y)) as [Hin Hall].
    inversion Hall as [|? ? Hm Hl]; subst. split.
    + destruct Hin as [Hin|Hin]; [|now right; right].
      rewrite <- Hin. unfold Qmin, GenericMinMax.gmin.
      destruct (x ?= y)%Q; [left | left | right; left]; reflexivity.
    + constructor; [|constructor; [|exact Hl]].
      * eapply Qle_trans; [exact Hm | apply Q.le_min_l].
      * eapply Qle_trans; [exact Hm | apply Q.le_min_r].
Qed.

(** The minimum of a group is its least sample. *)
Lemma series_min_spec (g : list Q) (x : Q) :
  In x g -> In (series_min g) g /\ (series_min g <= x)%Q.
Proof.
  destruct g as [|y l]; [contradiction|]. intros Hx. cbn [series_min].
  destruct (fold_Qmin_spec l y) as [Hin Hall]. split; [exact Hin|].
  rewrite Forall_forall in Hall. now apply Hall.
Qed.

(** X11. Jamming detection returns normally on every traffic collection, and
    per one-minute window it is decided by the signal-strength samples of
    that minute, in input order, through their mean and sample variance as
    pandas computes them and their minimum: there is exactly one finding when
    the window has a sample and the mean is below the float 0.3, or the
    minimum is below the float 0.2, or the variance is a number above the
    float 0.1, and none otherwise. The finding carries the three statistics,
    and its confidence is 1.0 minus the mean, rounded. The minimum is the
    least of the samples. *)
Theorem detect_jamming_attack_per_window
    (series_mean : list Q -> Q) (series_var : list Q -> option Q)
    (traffic_data : list TrafficRecord) :
  exists fs,
    detect_jamming_attack series_mean series_var traffic_data = Ok fs /\
    (forall w,
        let g := samples_in w traffic_data in
        filter (at_window w) fs =
        match g with
        | [] => []
        | _ =>
            if Qltb (series_mean g) (float_literal (3 # 10))
               || Qltb (series_min g) (float_literal (2 # 10))
               || match series_var g with
                  | Some v => Qltb (float_literal (1 # 10)) v
                  | None => false
                  end
            then [ mk_finding "Jamming" w "MEDIUM"
                     (JammingMetrics (series_mean g) (series_min g) (series_var g))
                     (round64 (1 - series_mean g)) ]
            else []
        end) /\
    (forall w x,
        let g := samples_in w traffic_data in
        In x g -> In (series_min g) g /\ (series_min g <= x)%Q).
Proof.
  eexists. split; [apply detect_jamming_attack_groups|]. split.
  - intros w g. rewrite jamming_findings_at_window. fold g.
    destruct g; reflexivity.
  - intros w x g. apply series_min_spec.
Qed.

(** Ten samples of the float 0.3 in one minute, with a mean that adds from
    left to right: the mean comes out as 0.29999999999999993, below the
    threshold, and the minute is reported with confidence
    0.7000000000000001. One such sample alone is not reported. *)
Example detect_jamming_attack_ten_weak_samples :
  (exists f,
      detect_jamming_attack test_series_mean test_series_var
                            (repeat sample_weak_signal 10) = Ok [f] /\
      test_series_mean (repeat (float_literal (3 # 10)) 10)
        = (5404319552844594 # 18014398509481984)%Q /\
      float_literal (3 # 10) = (5404319552844595 # 18014398509481984)%Q /\
      confidence f = (6305039478318695 # 9007199254740992)%Q /\
      (7 # 10 < confidence f)%Q) /\
  detect_jamming_attack test_series_mean test_series_var [sample_weak_signal] = Ok [].
Proof.
  split; [|vm_compute; reflexivity].
  eexists. split; [vm_compute; reflexivity|]. repeat split.
Qed.

(** The float literals of the thresholds are not the decimals they are
    written as: 0.3 denotes a number below 3/10, 0.2 and 0.1 numbers above
    2/10 and 1/10. A window whose mean is the float 0.3 is not reported. *)
Example jamming_thresholds_are_floats :
  (float_literal (3 # 10) < 3 # 10)%Q /\
  (2 # 10 < float_literal (2 # 10))%Q /\
  (1 # 10 < float_literal (1 # 10))%Q /\
  Qltb (float_literal (3 # 10)) (float_literal (3 # 10)) = false.
Proof. vm_compute. repeat split. Qed.

Section JammingOrderFacts.
Variable series_mean : list Q -> Q.
Variable series_var : list Q -> option Q.

Abbreviation jamming_group := (jamming_group series_mean series_var).

Lemma jamming_group_timestamp (k : datetime) (g : list Q) (f : Finding) :
  In f (jamming_group (k, g)) -> f_timestamp f = k.
Proof.
  unfold jamming_group. destruct (_ || _); [|contradiction].
  intros [<-|[]]. reflexivity.
Qed.

Lemma jamming_group_at_most_one (k : datetime) (g : list Q) :
  jamming_group (k, g) = [] \/ exists f, jamming_group (k, g) = [f].
Proof.
  unfold jamming_group. destruct (_ || _); [right; eexists; reflexivity | now left].
Qed.

Lemma jamming_findings_keys (l : list (datetime * list Q)) (f : Finding) :
  In f (flat_map jamming_group l) -> In (f_timestamp f) (map fst l).
Proof.
  intros Hin. apply in_flat_map in Hin. destruct Hin as [[k g] [Hkg Hf]].
  rewrite (jamming_group_timestamp _ _ _ Hf).
  apply (in_map fst) in Hkg. exact Hkg.
Qed.

Lemma jamming_findings_sorted (l : list (datetime * list Q)) :
  StronglySorted (fun a b => earlier_or_same (fst a) (fst b)) l ->
  NoDup (map fst l) ->
  StronglySorted (fun f f' => earlier_or_same (f_timestamp f) (f_timestamp f'))
                 (flat_map jamming_group l) /\
  NoDup (map f_timestamp (flat_map jamming_group l)).
Proof.
  intros Hs. induction Hs as [|[k g] l Hs IH Hall]; intros Hnd; cbn [flat_map].
  - split; constructor.
  - cbn [map fst] in Hnd. inversion Hnd as [|? ? Hnotin Hnd']; subst.
    destruct (IH Hnd') as [IH1 IH2].
    destruct (jamming_group_at_most_one k g) as [->|[f Hf]];
      [cbn [app]; now split|].
    pose proof (jamming_group_timestamp k g f) as Hts.
    rewrite Hf in *. specialize (Hts (or_introl eq_refl)).
    cbn [app map]. split.
    + constructor; [exact IH1|].
      apply Forall_forall. intros f' Hf'.
      apply in_flat_map in Hf'. destruct Hf' as [[k' g'] [Hkg' Hin']].
      rewrite Forall_forall in Hall. specialize (Hall _ Hkg'). cbn [fst] in Hall.
      now rewrite Hts, (jamming_group_timestamp _ _ _ Hin').
    + constructor; [|exact IH2].
      rewrite Hts. intros Hin. apply Hnotin.
      apply in_map_iff in Hin. destruct Hin as [f' [Heq Hin]].
      rewrite <- Heq. now apply jamming_findings_keys.
Qed.

End JammingOrderFacts.

(** X12. The findings of jamming detection come in ascending order of their
    time windows, whatever the order of the input, and no two of them carry
    the same window. *)
Theorem detect_jamming_attack_sorted
    (series_mean : list Q -> Q) (series_var : list Q -> option Q)
    (traffic_data : list TrafficRecord) :
  exists fs,
    detect_jamming_attack series_mean series_var traffic_data = Ok fs /\
    StronglySorted (fun f f' => earlier_or_same (f_timestamp f) (f_timestamp f')) fs /\
    NoDup (map f_timestamp fs).
Proof.
  eexists. split; [apply detect_jamming_attack_groups|].
  apply jamming_findings_sorted.
  - apply sort_groups_sorted.
  - eapply Permutation_NoDup.
    + apply Permutation_map. symmetry. apply sort_groups_perm.
    + apply signal_groups_keys. constructor.
Qed.

(** ** More on spoofing detection *)

(** A binary64 rate above 50 is at least one unit in the last place above
    it, and a hundredth of that rounds to a number above one half. *)
Lemma py_min_half (rate : Q) :
  is_double rate -> (50 < rate)%Q ->
  (1 # 2 < py_min (round64 (rate / 100)) 1 <= 1)%Q.
Proof.
  intros Hd Hr.
  assert (Hgap : (inject_Z (50 * 2 ^ 47 + 1) * 2 ^ (-47) <= rate)%Q).
  { apply double_gap; [exact Hd | vm_compute; discriminate |].
    eapply Qle_lt_trans; [|exact Hr]. vm_compute. discriminate. }
  assert (Hx : (1 # 2 < round64 (rate / 100))%Q).
  { apply Qlt_le_trans with (round64 (inject_Z (50 * 2 ^ 47 + 1) * 2 ^ (-47) / 100)).
    - vm_compute. reflexivity.
    - apply round64_mono. unfold Qdiv. apply Qmult_le_compat_r; [exact Hgap | discriminate]. }
  unfold py_min. destruct (Qcompare_spec 1 (round64 (rate / 100))) as [E|E|E].
  - split; [exact Hx | rewrite <- E; apply Qle_refl].
  - split; [reflexivity | apply Qle_refl].
  - split; [exact Hx | now apply Qlt_le_weak].
Qed.

Lemma spoofing_entry_finding (k : string) (st : SourceStats) (f : Finding) :
  In f (spoofing_entry (k, st)) ->
  (1 # 2 < confidence f <= 1)%Q /\
  exists rate,
    metrics f = SpoofingMetrics k rate (st_packet_count st) /\ (50 < rate)%Q.
Proof.
  unfold spoofing_entry.
  destruct (Qltb 0 (time_span st)); cbn [andb]; [|contradiction].
  destruct (Qltb 50 _) eqn:E; [|contradiction].
  apply Qltb_lt in E. intros [<-|[]]. cbn [confidence metrics]. split.
  - apply py_min_half; [apply round64_is_double | exact E].
  - eexists. split; [reflexivity | exact E].
Qed.

Lemma length_spoofing_findings (d : list (string * SourceStats)) :
  (length (flat_map spoofing_entry d) <= length d)%nat.
Proof.
  induction d as [|[k st] d IH]; cbn [flat_map length]; [lia|].
  rewrite length_app.
  assert (length (spoofing_entry (k, st)) <= 1)%nat
    by (unfold spoofing_entry; destruct (_ && _); cbn; lia).
  lia.
Qed.

Lemma source_analysis_sources (traffic_data : list TrafficRecord) (k : string) :
  In k (map fst (source_analysis traffic_data)) -> In k (map source traffic_data).
Proof.
  intros Hin.
  assert (Hget : dict_get String.eqb (source_analysis traffic_data) k <> None)
    by (rewrite (dict_get_None _ string_eqb_eq); tauto).
  unfold source_analysis in Hget. rewrite source_analysis_get in Hget.
  cbn [dict_get] in Hget.
  destruct (sightings traffic_data k) as [|t rest] eqn:Es; [congruence|].
  assert (Ht : In t (sightings traffic_data k)) by (rewrite Es; now left).
  unfold sightings in Ht. apply filter_In in Ht. destruct Ht as [Ht Hs].
  unfold from_source in Hs. apply String.eqb_eq in Hs. subst k.
  now apply in_map.
Qed.

(** X15. Every spoofing finding reports a packet rate above 50 and carries a
    confidence above 0.5 and at most 1, and there are at most as many
    findings as there are distinct source labels in the input. *)
Theorem detect_spoofing_attack_confidence (traffic_data : list TrafficRecord) :
  exists fs,
    detect_spoofing_attack traffic_data = Ok fs /\
    Forall (fun f =>
              (1 # 2 < confidence f <= 1)%Q /\
              exists src rate total,
                metrics f = SpoofingMetrics src rate total /\ (50 < rate)%Q)
           fs /\
    (length fs <= count_distinct (map source traffic_data))%nat.
Proof.
  eexists. split; [apply detect_spoofing_attack_ok|]. split.
  - apply Forall_forall. intros f Hin. apply in_flat_map in Hin.
    destruct Hin as [[k st] [_ Hf]].
    destruct (spoofing_entry_finding k st f Hf) as [Hc [rate [Hm Hr]]].
    split; [exact Hc|]. now exists k, rate, (st_packet_count st).
  - eapply Nat.le_trans; [apply length_spoofing_findings|].
    rewrite <- (length_map fst). unfold count_distinct.
    apply NoDup_incl_length.
    + apply source_analysis_keys. constructor.
    + intros k Hk. apply nodup_In. now apply source_analysis_sources.
Qed.

(** X16. The span of a source runs from its first to its last record in input
    order, not from its earliest to its latest timestamp: a source whose last
    record in the input is not later than its first one is never reported,
    whatever its packet counts. *)
Theorem detect_spoofing_attack_input_order (traffic_data : list TrafficRecord) :
  exists fs,
    detect_spoofing_attack traffic_data = Ok fs /\
    (forall s first rest,
        sightings traffic_data s = first :: rest ->
        to_microseconds (timestamp (last (first :: rest) first)) <=
        to_microseconds (timestamp first) ->
        filter (reports_source s) fs = []).
Proof.
  eexists. split; [apply detect_spoofing_attack_ok|].
  intros s first rest Hs Hle.
  rewrite spoofing_findings_of_source, Hs. unfold spoofing_verdict.
  replace (0 <? _) with false; [reflexivity|].
  symmetry. apply Z.ltb_ge. unfold datetime_sub. lia.
Qed.

(** Two records of one source, the later one first: 100000 packets in two
    seconds go unreported. *)
Example detect_spoofing_attack_reversed_input :
  detect_spoofing_attack
    [ sample_record 8 0 2 0 "UE-009" 50000; sample_record 8 0 0 0 "UE-009" 50000 ] = Ok [] /\
  exists f,
    detect_spoofing_attack
      [ sample_record 8 0 0 0 "UE-009" 50000; sample_record 8 0 2 0 "UE-009" 50000 ]
    = Ok [f].
Proof. split; [reflexivity | eexists; vm_compute; reflexivity]. Qed.

(** ** Interception detection *)

Section MitmFacts.
Variable fit_transform : list (list Q) -> list (list Q).
Variable fit_predict : list (list Q) -> list Z.
Variable score_samples : list (list Q) -> list Q -> Q.

Lemma mitm_loop_findings (X_scaled : list (list Q)) (pairs : list (Z * TrafficRecord))
    (i : nat) :
  (i + length pairs <= length X_scaled)%nat ->
  exists fs,
    mitm_loop score_samples X_scaled i pairs = Ok fs /\
    length fs = length (filter (fun p => fst p =? -1) pairs) /\
    Forall (fun f =>
              (0 <= confidence f)%Q /\
              f_attack_type f = "MITM"%string /\
              f_severity f = "CRITICAL"%string /\
              exists p, In p pairs /\ f_timestamp f = timestamp (snd p))
           fs.
Proof.
  revert i. induction pairs as [|[score traffic] pairs IH]; intros i Hlen.
  - exists []. repeat split. constructor.
  - cbn [length] in Hlen.
    destruct (IH (S i) ltac:(lia)) as [more [Hrun [Hcount Hall]]].
    assert (Hmore : Forall (fun f =>
              (0 <= confidence f)%Q /\
              f_attack_type f = "MITM"%string /\
              f_severity f = "CRITICAL"%string /\
              exists p, In p ((score, traffic) :: pairs) /\
                        f_timestamp f = timestamp (snd p)) more).
    { eapply Forall_impl; [|exact Hall].
      intros f [H1 [H2 [H3 [p [Hp Hts]]]]]. repeat split; try assumption.
      exists p. split; [now right | exact Hts]. }
    cbn [mitm_loop filter fst]. destruct (score =? -1).
    + unfold row. destruct (nth_error X_scaled i) as [x|] eqn:Ex.
      * cbn [rbind]. rewrite Hrun. cbn [rbind].
        eexists. split; [reflexivity|]. cbn [app length]. split; [now rewrite Hcount|].
        constructor; [|exact Hmore]. cbn [confidence f_attack_type f_severity f_timestamp].
        repeat split; [apply Qabs_nonneg|].
        exists (score, traffic). split; [now left | reflexivity].
      * apply nth_error_None in Ex. lia.
    + cbn [rbind]. rewrite Hrun. cbn [rbind app].
      exists more. repeat split; assumption.
Qed.

(** X17. If the scaler returns as many rows as it is given, interception
    detection returns normally. Below ten qualifying records it reports
    nothing; otherwise it reports exactly one finding per qualifying record
    that the forest labels -1. Every finding is critical, carries the
    timestamp of a qualifying record of the input, and has a confidence that
    is not negative. *)
Theorem detect_mitm_attack_findings (traffic_data : list TrafficRecord) :
  (forall X, length (fit_transform X) = length X) ->
  exists fs,
    detect_mitm_attack fit_transform fit_predict score_samples traffic_data = Ok fs /\
    (let records := filter has_mitm_keys traffic_data in
     let X_scaled := fit_transform (map feature_vector records) in
     if len records <? 10 then fs = []
     else length fs =
          length (filter (fun p => fst p =? -1) (combine (fit_predict X_scaled) records))) /\
    Forall (fun f =>
              (0 <= confidence f)%Q /\
              f_attack_type f = "MITM"%string /\
              f_severity f = "CRITICAL"%string /\
              exists t, In t traffic_data /\ has_mitm_keys t = true /\
                        f_timestamp f = timestamp t)
           fs.
Proof.
  intros Hscaler. unfold detect_mitm_attack. cbv zeta.
  unfold len at 1. rewrite length_map. fold (len (filter has_mitm_keys traffic_data)).
  destruct (len (filter has_mitm_keys traffic_data) <? 10).
  - exists []. repeat split. constructor.
  - set (records := filter has_mitm_keys traffic_data).
    set (X_scaled := fit_transform (map feature_vector records)).
    destruct (mitm_loop_findings X_scaled (combine (fit_predict X_scaled) records) 0)
      as [fs [Hrun [Hcount Hall]]].
    { unfold X_scaled. rewrite Hscaler, length_map, length_combine. lia. }
    exists fs. split; [exact Hrun|]. split; [exact Hcount|].
    eapply Forall_impl; [|exact Hall].
    intros f [H1 [H2 [H3 [[score t] [Hp Hts]]]]]. repeat split; try assumption.
    apply in_combine_r in Hp. unfold records in Hp. apply filter_In in Hp.
    exists t. tauto.
Qed.

End MitmFacts.

Lemma detect_mitm_attack_findings_sample :
  exists fs,
    detect_mitm_attack (fun X => X) (map (fun _ => -1)) (fun _ _ => - (1 # 2))%Q
                       (repeat (sample_record 8 0 0 0 "UE-001" 10) 12) = Ok fs /\
    (let records := filter has_mitm_keys (repeat (sample_record 8 0 0 0 "UE-001" 10) 12) in
     let X_scaled := map feature_vector records in
     if len records <? 10 then fs = []
     else length fs =
          length (filter (fun p => fst p =? -1)
                         (combine (map (fun _ => -1) X_scaled) records))) /\
    Forall (fun f =>
              (0 <= confidence f)%Q /\
              f_attack_type f = "MITM"%string /\
              f_severity f = "CRITICAL"%string /\
              exists t, In t (repeat (sample_record 8 0 0 0 "UE-001" 10) 12) /\
                        has_mitm_keys t = true /\
                        f_timestamp f = timestamp t)
           fs.
Proof.
  apply (detect_mitm_attack_findings (fun X => X) (map (fun _ => -1))
           (fun _ _ => - (1 # 2))%Q (repeat (sample_record 8 0 0 0 "UE-001" 10) 12)).
  reflexivity.
Defined.

(** A scaler that drops rows makes the detector index past the end. *)
Example detect_mitm_attack_short_scaler :
  detect_mitm_attack (fun _ => []) (fun _ => repeat (-1) 12) (fun _ _ => 0%Q)
                     (repeat (sample_record 8 0 0 0 "UE-001" 10) 12)
  = Raise IndexError.
Proof. reflexivity. Qed.

(** ** The comprehensive run *)

Lemma detect_mitm_attack_returns
    (fit_transform : list (list Q) -> list (list Q))
    (fit_predict : list (list Q) -> list Z)
    (score_samples : list (list Q) -> list Q -> Q)
    (traffic_data : list TrafficRecord) :
  (forall X, length (fit_transform X) = length X) ->
  exists fs,
    detect_mitm_attack fit_transform fit_predict score_samples traffic_data = Ok fs.
Proof.
  intros Hscaler. unfold detect_mitm_attack.
  destruct (_ <? 10); [now exists []|].
  set (records := filter has_mitm_keys traffic_data).
  set (X_scaled := fit_transform (map feature_vector records)).
  destruct (mitm_loop_findings score_samples X_scaled
              (combine (fit_predict X_scaled) records) 0) as [fs [Hrun _]].
  { unfold X_scaled. rewrite Hscaler, length_map, length_combine. lia. }
  now exists fs.
Qed.

(** X18. On timestamps within their field ranges and with a scaler that
    returns as many rows as it is given, the comprehensive detection returns
    normally. Its four lists are the results of the four detectors on the
    same input, [total_attacks] is the sum of their lengths and
    [traffic_records_analyzed] is the length of the input. *)
Theorem comprehensive_attack_detection_totals {RT : Runtime}
    (fit_transform : list (list Q) -> list (list Q))
    (fit_predict : list (list Q) -> list Z)
    (score_samples : list (list Q) -> list Q -> Q)
    (series_mean : list Q -> Q) (series_var : list Q -> option Q)
    (traffic_data : list TrafficRecord) (w : world) :
  Forall (fun t => valid_datetime (timestamp t) = true) traffic_data ->
  (forall X, length (fit_transform X) = length X) ->
  exists r w',
    comprehensive_attack_detection fit_transform fit_predict score_samples
                                   series_mean series_var traffic_data w = Ok (r, w') /\
    detect_ddos_attack traffic_data = Ok (ddos_attacks r) /\
    detect_jamming_attack series_mean series_var traffic_data = Ok (jamming_attacks r) /\
    detect_mitm_attack fit_transform fit_predict score_samples traffic_data =
      Ok (mitm_attacks r) /\
    detect_spoofing_attack traffic_data = Ok (spoofing_attacks r) /\
    total_attacks (detection_summary r) =
      len (ddos_attacks r) + len (jamming_attacks r)
      + len (mitm_attacks r) + len (spoofing_attacks r) /\
    traffic_records_analyzed (detection_summary r) = len traffic_data.
Proof.
  intros Hvalid Hscaler.
  destruct (detect_mitm_attack_returns fit_transform fit_predict score_samples
              traffic_data Hscaler) as [mitm Hmitm].
  unfold comprehensive_attack_detection.
  rewrite (detect_ddos_attack_valid _ Hvalid), detect_jamming_attack_groups, Hmitm,
    detect_spoofing_attack_ok.
  cbn [rbind]. destruct (datetime_now w) as [now w'].
  do 2 eexists. split; [reflexivity|].
  cbn [ddos_attacks jamming_attacks mitm_attacks spoofing_attacks detection_summary
       total_attacks traffic_records_analyzed].
  repeat split.
Qed.

Lemma comprehensive_attack_detection_totals_sample :
  exists r w',
    comprehensive_attack_detection (RT := TestRuntime)
      (fun X => X) (map (fun _ => -1)) (fun _ _ => - (1 # 2))%Q
      test_series_mean test_series_var sample_traffic world0 =
      Ok (r, w') /\
    detect_ddos_attack sample_traffic = Ok (ddos_attacks r) /\
    detect_jamming_attack test_series_mean test_series_var sample_traffic =
      Ok (jamming_attacks r) /\
    detect_mitm_attack (fun X => X) (map (fun _ => -1)) (fun _ _ => - (1 # 2))%Q
                       sample_traffic = Ok (mitm_attacks r) /\
    detect_spoofing_attack sample_traffic = Ok (spoofing_attacks r) /\
    total_attacks (detection_summary r) =
      len (ddos_attacks r) + len (jamming_attacks r)
      + len (mitm_attacks r) + len (spoofing_attacks r) /\
    traffic_records_analyzed (detection_summary r) = len sample_traffic.
Proof.
  apply (comprehensive_attack_detection_totals (RT := TestRuntime)
           (fun X => X) (map (fun _ => -1)) (fun _ _ => - (1 # 2))%Q
           test_series_mean test_series_var sample_traffic world0).
  - repeat constructor.
  - reflexivity.
Defined.

(** ** The simulator's own anomaly detection *)

Section CollectFacts.
Context {K X : Type} (eqb : K -> K -> bool) (key : X -> K).

Lemma concat_upsert_append (ws : list (K * list X)) (k : K) (x : X) :
  Permutation (concat (map snd (dict_upsert eqb ws k [] (fun l => l ++ [x]))))
              (concat (map snd ws) ++ [x]).
Proof.
  induction ws as [|[k0 g0] ws IH].
  - reflexivity.
  - rewrite dict_upsert_cons.
    destruct (eqb k k0); cbn [map snd concat].
    + rewrite <- !app_assoc. apply Permutation_app_head, Permutation_app_comm.
    + rewrite <- app_assoc. now apply Permutation_app_head.
Qed.

Lemma collect_perm (l : list X) (ws : list (K * list X)) :
  Permutation
    (concat (map snd (fold_left (fun ws x => dict_upsert eqb ws (key x) []
                                                         (fun l => l ++ [x])) l ws)))
    (concat (map snd ws) ++ l).
Proof.
  revert ws. induction l as [|x l IH]; intros ws; cbn [fold_left].
  - now rewrite app_nil_r.
  - rewrite IH, concat_upsert_append, <- app_assoc. reflexivity.
Qed.
End CollectFacts.

Lemma minute_windows_perm (traffic_data : list TrafficRecord) :
  Permutation (concat (map snd (minute_windows traffic_data))) traffic_data.
Proof.
  unfold minute_windows.
  apply (collect_perm Z.eqb (fun t => dt_minute (timestamp t)) traffic_data []).
Qed.

Lemma filter_length_perm {A : Type} (p : A -> bool) (l l' : list A) :
  Permutation l l' -> length (filter p l) = length (filter p l').
Proof.
  induction 1 as [|x l l' _ IH|x y l|l l' l'' _ IH1 _ IH2]; cbn [filter].
  - reflexivity.
  - destruct (p x); cbn [length]; now rewrite IH.
  - destruct (p x), (p y); reflexivity.
  - now rewrite IH1.
Qed.

Lemma np_max_above (l : list Z) (bound : Z) :
  l <> [] -> bound < np_max l <-> exists y, In y l /\ bound < y.
Proof.
  destruct l as [|x l]; [congruence|]. intros _. cbn [np_max].
  revert x. induction l as [|z l IH]; intros x; cbn [fold_left].
  - split.
    + intros H. exists x. split; [now left | exact H].
    + intros [y [[<-|[]] H]]. exact H.
  - rewrite IH. split.
    + intros [y [[<-|Hin] H]].
      * destruct (Z.max_spec x z) as [[_ Hm]|[_ Hm]]; rewrite Hm in H.
        -- exists z. split; [right; now left | exact H].
        -- exists x. split; [now left | exact H].
      * exists y. split; [right; now right | exact H].
    + intros [y [[Hy|[Hy|Hin]] H]].
      * exists (Z.max x z). split; [now left | lia].
      * exists (Z.max x z). split; [now left | lia].
      * exists y. split; [now right | exact H].
Qed.

Lemma signal_strengths_of_spec (traffic_list : list TrafficRecord) :
  (Forall (fun t => signal_strength t <> None) traffic_list ->
   exists ss, signal_strengths_of traffic_list = Returned ss) /\
  (Exists (fun t => signal_strength t = None) traffic_list ->
   signal_strengths_of traffic_list = KeyError "signal_strength") /\
  (forall k, signal_strengths_of traffic_list = KeyError k -> k = "signal_strength"%string).
Proof.
  induction traffic_list as [|t l [IH1 [IH2 IH3]]]; cbn [signal_strengths_of].
  - split; [now exists []|]. split; [intros H; inversion H | discriminate].
  - destruct (signal_strength t) as [s|] eqn:Es.
    + split; [|split].
      * intros H. inversion H as [|? ? _ Hl]; subst.
        destruct (IH1 Hl) as [ss ->]. now eexists.
      * intros H. inversion H as [? ? Ht|? ? Hl]; subst; [congruence|].
        now rewrite (IH2 Hl).
      * intros k. destruct (signal_strengths_of l); [discriminate|].
        intros H. injection H as <-. now apply IH3.
    + split; [|split].
      * intros H. inversion H; subst. congruence.
      * reflexivity.
      * intros k H. now injection H as <-.
Qed.

Section AnomalyFacts.
Context {RT : Runtime}.
Variable format_2f : Q -> string.

Lemma mitm_anomalies_types (l : list TrafficRecord) :
  Forall (fun a => a_type a = "MITM"%string) (mitm_anomalies format_2f l) /\
  length (mitm_anomalies format_2f l) = length (filter high_score l).
Proof.
  unfold mitm_anomalies, high_score.
  change (threshold_mitm detection_thresholds) with (7 # 10).
  induction l as [|t l [IH1 IH2]]; cbn [flat_map filter]; [split; [constructor|reflexivity]|].
  destruct (anomaly_score t) as [a|]; [|now split].
  destruct (Qltb (7 # 10) a); cbn [app length]; [|now split].
  split; [now constructor | now rewrite IH2].
Qed.

Lemma filter_is_type_all (ty : string) (l : list Anomaly) :
  Forall (fun a => a_type a = ty) l -> filter (is_type ty) l = l.
Proof.
  intros H. apply filter_all. rewrite Forall_forall in H. intros a Ha.
  unfold is_type. rewrite (H a Ha). apply String.eqb_refl.
Qed.

(** What one window contributes. *)
Lemma analyze_window_spec (k : Z) (g : list TrafficRecord) (w : world) :
  (Forall (fun t => signal_strength t <> None) g ->
   exists found w', analyze_window format_2f (k, g) w = Returned (found, w')) /\
  (Exists (fun t => signal_strength t = None) g ->
   analyze_window format_2f (k, g) w = KeyError "signal_strength") /\
  (forall key, analyze_window format_2f (k, g) w = KeyError key ->
               key = "signal_strength"%string) /\
  (forall found w',
      analyze_window format_2f (k, g) w = Returned (found, w') ->
      ((exists a, In a found /\ a_type a = "DDoS"%string) <->
       (exists t, In t g /\ 1000 < packet_count t)) /\
      length (filter (is_type "MITM") found) = length (filter high_score g)).
Proof.
  destruct (signal_strengths_of_spec g) as [Hret [Hraise Hkey]].
  destruct g as [|t0 g0] eqn:Eg.
  { cbn [analyze_window]. split; [now do 2 eexists|].
    split; [intros H; inversion H|]. split; [discriminate|].
    intros found w' H. injection H as <- <-. split; [|reflexivity].
    split; intros [x [[] _]]. }
  rewrite <- Eg in *. assert (Hne : g <> []) by (rewrite Eg; discriminate).
  assert (Hunfold : analyze_window format_2f (k, g) w =
    let max_packets := np_max (map packet_count g) in
    let (ddos, w1) :=
      if threshold_ddos detection_thresholds <? max_packets
      then let (now, w1) := datetime_now w in
           ([ mk_anomaly "DDoS" now "HIGH"
                ("Unusual packet volume: " ++ str_of_int max_packets ++ " packets")
                (Some (Z.of_nat (count_distinct (map destination g))))
                None None ], w1)
      else ([], w) in
    match signal_strengths_of g with
    | KeyError k => KeyError k
    | Returned signal_strengths =>
        let (jamming, w2) :=
          match np_mean signal_strengths with
          | Some avg_signal =>
              if Qltb avg_signal (threshold_jamming detection_thresholds)
              then let (now, w2) := datetime_now w1 in
                   ([ mk_anomaly "Jamming" now "MEDIUM"
                        ("Low signal strength: " ++ format_2f avg_signal)
                        (Some (len g)) None None ], w2)
              else ([], w1)
          | None => ([], w1)
          end in
        Returned (ddos ++ jamming ++ mitm_anomalies format_2f g, w2)
    end) by (rewrite Eg; reflexivity).
  rewrite Hunfold. clear Hunfold Eg t0 g0. cbv zeta.
  change (threshold_ddos detection_thresholds) with 1000.
  assert (Hmax : (1000 <? np_max (map packet_count g)) = true <->
                 exists t, In t g /\ 1000 < packet_count t).
  { rewrite Z.ltb_lt, np_max_above by (destruct g; [congruence | discriminate]).
    split.
    - intros [y [Hy H]]. apply in_map_iff in Hy. destruct Hy as [t [<- Ht]]. now exists t.
    - intros [t [Ht H]]. exists (packet_count t). split; [now apply in_map | exact H]. }
  destruct (mitm_anomalies_types g) as [Hmt Hml].
  set (ddos_part :=
         if 1000 <? np_max (map packet_count g)
         then let (now, w1) := datetime_now w in
              ([ mk_anomaly "DDoS" now "HIGH"
                   ("Unusual packet volume: "
                      ++ str_of_int (np_max (map packet_count g)) ++ " packets")
                   (Some (Z.of_nat (count_distinct (map destination g))))
                   None None ], w1)
         else ([], w)).
  assert (Hddos : (fst ddos_part = [] /\ (1000 <? np_max (map packet_count g)) = false) \/
                  (exists a, fst ddos_part = [a] /\ a_type a = "DDoS"%string /\
                             (1000 <? np_max (map packet_count g)) = true)).
  { unfold ddos_part. destruct (1000 <? np_max (map packet_count g)).
    - right. destruct (datetime_now w). eexists. repeat split.
    - left. now split. }
  destruct ddos_part as [ddos w1]. cbn [fst] in Hddos.
  split; [|split; [|split]].
  - intros Hall. destruct (Hret Hall) as [ss ->].
    destruct (match np_mean ss with
              | Some avg_signal =>
                  if Qltb avg_signal (threshold_jamming detection_thresholds)
                  then let (now, w2) := datetime_now w1 in _
                  else _
              | None => _
              end) as [jamming w2]. now do 2 eexists.
  - intros Hex. now rewrite (Hraise Hex).
  - intros key. destruct (signal_strengths_of g) as [ss|key'].
    + destruct (match np_mean ss with Some _ => _ | None => _ end); discriminate.
    + intros H. injection H as <-. now apply Hkey.
  - intros found w'. destruct (signal_strengths_of g) as [ss|key']; [|discriminate].
    set (jamming_part :=
           match np_mean ss with
           | Some avg_signal =>
               if Qltb avg_signal (threshold_jamming detection_thresholds)
               then let (now, w2) := datetime_now w1 in
                    ([ mk_anomaly "Jamming" now "MEDIUM"
                         ("Low signal strength: " ++ format_2f avg_signal)
                         (Some (len g)) None None ], w2)
               else ([], w1)
           | None => ([], w1)
           end).
    assert (Hjam : Forall (fun a => a_type a = "Jamming"%string) (fst jamming_part)).
    { unfold jamming_part. destruct (np_mean ss) as [avg|]; [|constructor].
      destruct (Qltb avg _); [|constructor].
      destruct (datetime_now w1). cbn [fst]. now repeat constructor. }
    destruct jamming_part as [jamming w2]. cbn [fst] in Hjam.
    intros H. injection H as <- <-. split.
    + rewrite <- Hmax. split.
      * intros [a [Hin Hty]]. apply in_app_or in Hin. destruct Hin as [Hin|Hin].
        -- destruct Hddos as [[-> _]|[a' [_ [_ Hb]]]]; [contradiction | exact Hb].
        -- exfalso. apply in_app_or in Hin. destruct Hin as [Hin|Hin].
           ++ rewrite Forall_forall in Hjam. rewrite (Hjam a Hin) in Hty. discriminate.
           ++ rewrite Forall_forall in Hmt. rewrite (Hmt a Hin) in Hty. discriminate.
      * intros Hb. destruct Hddos as [[_ Hf]|[a [-> [Hty _]]]]; [congruence|].
        exists a. split; [now left | exact Hty].
    + rewrite !filter_app, !length_app.
      rewrite (filter_is_type_all "MITM" _ Hmt), Hml.
      replace (filter (is_type "MITM") ddos) with (@nil Anomaly).
      * replace (filter (is_type "MITM") jamming) with (@nil Anomaly); [reflexivity|].
        symmetry. clear -Hjam. induction Hjam as [|a l Ha _ IH]; cbn [filter]; [reflexivity|].
        unfold is_type at 1. now rewrite Ha.
      * destruct Hddos as [[-> _]|[a [-> [Hty _]]]]; [reflexivity|].
        cbn [filter]. unfold is_type. now rewrite Hty.
Qed.

End AnomalyFacts.

Section AnomalyRunFacts.
Context {RT : Runtime}.
Variable format_2f : Q -> string.

Lemma analyze_windows_returns (windows : list (Z * list TrafficRecord)) (w : world) :
  Forall (fun win => Forall (fun t => signal_strength t <> None) (snd win)) windows ->
  exists found w', analyze_windows format_2f windows w = Returned (found, w').
Proof.
  intros H. revert w. induction H as [|[k g] windows Hg _ IH]; intros w.
  - now do 2 eexists.
  - cbn [analyze_windows].
    destruct (proj1 (analyze_window_spec format_2f k g w) Hg) as [found [w1 ->]].
    destruct (IH w1) as [more [w2 ->]]. now do 2 eexists.
Qed.

Lemma analyze_windows_raises (windows : list (Z * list TrafficRecord)) (w : world) :
  Exists (fun win => Exists (fun t => signal_strength t = None) (snd win)) windows ->
  analyze_windows format_2f windows w = KeyError "signal_strength".
Proof.
  intros H. revert w. induction H as [[k g] windows Hg|[k g] windows _ IH]; intros w;
    cbn [analyze_windows].
  - now rewrite (proj1 (proj2 (analyze_window_spec format_2f k g w)) Hg).
  - destruct (analyze_window format_2f (k, g) w) as [[found w1]|key] eqn:E.
    + now rewrite IH.
    + now rewrite (proj1 (proj2 (proj2 (analyze_window_spec format_2f k g w))) key E).
Qed.

Lemma analyze_windows_findings (windows : list (Z * list TrafficRecord)) (w : world)
    (found : list Anomaly) (w' : world) :
  analyze_windows format_2f windows w = Returned (found, w') ->
  ((exists a, In a found /\ a_type a = "DDoS"%string) <->
   (exists t, In t (concat (map snd windows)) /\ 1000 < packet_count t)) /\
  length (filter (is_type "MITM") found) =
  length (filter high_score (concat (map snd windows))).
Proof.
  revert w found. induction windows as [|[k g] windows IH]; intros w found Hrun;
    cbn [analyze_windows] in Hrun.
  - injection Hrun as <- <-. split; [|reflexivity]. split; intros [x [[] _]].
  - destruct (analyze_window format_2f (k, g) w) as [[here w1]|key] eqn:E; [|discriminate].
    destruct (analyze_windows format_2f windows w1) as [[more w2]|key] eqn:E';
      [|discriminate].
    injection Hrun as <- <-.
    destruct (proj2 (proj2 (proj2 (analyze_window_spec format_2f k g w))) here w1 E)
      as [Hd Hm].
    destruct (IH w1 more E') as [IHd IHm].
    cbn [map snd concat]. split.
    + split.
      * intros [a [Hin Hty]]. apply in_app_or in Hin. destruct Hin as [Hin|Hin].
        -- destruct (proj1 Hd (ex_intro _ a (conj Hin Hty))) as [t [Ht Hbig]].
           exists t. split; [apply in_or_app; now left | exact Hbig].
        -- destruct (proj1 IHd (ex_intro _ a (conj Hin Hty))) as [t [Ht Hbig]].
           exists t. split; [apply in_or_app; now right | exact Hbig].
      * intros [t [Hin Hbig]]. apply in_app_or in Hin. destruct Hin as [Hin|Hin].
        -- destruct (proj2 Hd (ex_intro _ t (conj Hin Hbig))) as [a [Ha Hty]].
           exists a. split; [apply in_or_app; now left | exact Hty].
        -- destruct (proj2 IHd (ex_intro _ t (conj Hin Hbig))) as [a [Ha Hty]].
           exists a. split; [apply in_or_app; now right | exact Hty].
    + now rewrite !filter_app, !length_app, Hm, IHm.
Qed.

End AnomalyRunFacts.

(** X24. [detect_anomalies] reads [signal_strength] from every record without
    testing for it: it returns normally when every record of the traffic
    collection carries a signal strength (as every record appended by the
    simulator's own methods does), and raises [KeyError] for that key as soon
    as one record lacks it. *)
Theorem detect_anomalies_key_error {RT : Runtime} (format_2f : Q -> string)
    (self : Simulator) (w : world) :
  (Forall (fun t => signal_strength t <> None) (traffic_data self) ->
   exists found w', detect_anomalies format_2f self w = Returned (found, w')) /\
  (Exists (fun t => signal_strength t = None) (traffic_data self) ->
   detect_anomalies format_2f self w = KeyError "signal_strength").
Proof.
  unfold detect_anomalies.
  pose proof (minute_windows_perm (traffic_data self)) as Hp. split.
  - intros Hall. apply analyze_windows_returns.
    apply (Permutation_Forall (Permutation_sym Hp)) in Hall.
    apply Forall_concat in Hall. rewrite Forall_map in Hall. exact Hall.
  - intros Hex. apply analyze_windows_raises.
    apply Exists_exists in Hex. destruct Hex as [t [Ht Hnone]].
    apply (Permutation_in _ (Permutation_sym Hp)) in Ht.
    apply in_concat in Ht. destruct Ht as [g [Hg Htg]].
    apply in_map_iff in Hg. destruct Hg as [[k g'] [Heq Hwin]]. cbn [snd] in Heq. subst g'.
    apply Exists_exists. exists (k, g). split; [exact Hwin|].
    apply Exists_exists. now exists t.
Qed.

(** X25. Whenever [detect_anomalies] returns: it reports a flood anomaly
    exactly when some single record carries more than 1000 packets (it looks
    at the largest packet count of a group, not at the group's total, so no
    number of smaller records is ever reported), and it reports exactly as
    many interception anomalies as there are records with an anomaly score
    above 0.7. *)
Theorem detect_anomalies_findings {RT : Runtime} (format_2f : Q -> string)
    (self : Simulator) (w : world) (found : list Anomaly) (w' : world) :
  detect_anomalies format_2f self w = Returned (found, w') ->
  ((exists a, In a found /\ a_type a = "DDoS"%string) <->
   (exists t, In t (traffic_data self) /\ 1000 < packet_count t)) /\
  length (filter (is_type "MITM") found) =
  length (filter high_score (traffic_data self)).
Proof.
  unfold detect_anomalies. intros Hrun.
  pose proof (minute_windows_perm (traffic_data self)) as Hp.
  destruct (analyze_windows_findings format_2f _ _ _ _ Hrun) as [Hd Hm].
  split.
  - rewrite Hd. split; intros [t [Ht Hbig]]; exists t; (split; [|exact Hbig]).
    + eapply Permutation_in; eassumption.
    + eapply Permutation_in; [symmetry|]; eassumption.
  - rewrite Hm. now apply filter_length_perm.
Qed.

Lemma detect_anomalies_findings_sample :
  exists found w',
    detect_anomalies (RT := TestRuntime) test_format_2f
                     (mk_sim [] [] sample_anomalous) world0 = Returned (found, w') /\
    ((exists a, In a found /\ a_type a = "DDoS"%string) <->
     (exists t, In t sample_anomalous /\ 1000 < packet_count t)) /\
    length (filter (is_type "MITM") found) =
    length (filter high_score sample_anomalous).
Proof.
  eexists. eexists. split.
  - vm_compute. reflexivity.
  - eapply (detect_anomalies_findings (RT := TestRuntime) test_format_2f
              (mk_sim [] [] sample_anomalous) world0).
    vm_compute. reflexivity.
Defined.

(** On the sample, the two records of minute 0 of different hours fall into
    one group; the flood anomaly counts one destination and the intercepted
    record is reported once. *)
Example detect_anomalies_sample_run :
  match detect_anomalies (RT := TestRuntime) test_format_2f
                         (mk_sim [] [] sample_anomalous) world0 with
  | Returned (found, _) =>
      map (fun a => (a_type a, a_description a, a_affected_nodes a)) found =
      [ ("DDoS", "Unusual packet volume: 1500 packets", Some 1);
        ("MITM", "High anomaly score: 0.90", None) ]%string
  | KeyError _ => False
  end.
Proof. vm_compute. reflexivity. Qed.

(** *** How many anomalies a run can report *)

Lemma minute_windows_keys (traffic_data : list TrafficRecord)
    (ws : list (Z * list TrafficRecord)) :
  NoDup (map fst ws) ->
  NoDup (map fst (fold_left (fun ws t => dict_upsert Z.eqb ws (dt_minute (timestamp t)) []
                                                     (fun l => l ++ [t]))
                            traffic_data ws)) /\
  (forall k,
      In k (map fst (fold_left (fun ws t => dict_upsert Z.eqb ws (dt_minute (timestamp t)) []
                                                        (fun l => l ++ [t]))
                               traffic_data ws)) ->
      In k (map fst ws) \/ exists t, In t traffic_data /\ dt_minute (timestamp t) = k).
Proof.
  revert ws. induction traffic_data as [|t l IH]; intros ws Hnd; cbn [fold_left].
  - split; [exact Hnd | now left].
  - destruct (IH _ (NoDup_keys_upsert _ Z_eqb_eq ws (dt_minute (timestamp t)) []
                      (fun l => l ++ [t]) Hnd)) as [IH1 IH2].
    split; [exact IH1|]. intros k Hk. destruct (IH2 k Hk) as [Hin|[t' [Ht' Hm]]].
    + unfold dict_upsert in Hin.
      destruct (dict_get Z.eqb ws (dt_minute (timestamp t))) eqn:E;
        rewrite keys_set, E in Hin; [now left|].
      apply in_app_or in Hin. destruct Hin as [Hin|[<-|[]]]; [now left|].
      right. exists t. split; [now left | reflexivity].
    + right. exists t'. split; [now right | exact Hm].
Qed.

Lemma length_minute_windows (traffic_data : list TrafficRecord) :
  Forall (fun t => valid_datetime (timestamp t) = true) traffic_data ->
  (length (minute_windows traffic_data) <= 60)%nat.
Proof.
  intros Hvalid. unfold minute_windows.
  destruct (minute_windows_keys traffic_data [] (NoDup_nil _)) as [Hnd Hkeys].
  rewrite <- (length_map fst).
  change 60%nat with (length (map Z.of_nat (seq 0 60))).
  apply NoDup_incl_length; [exact Hnd|].
  intros k Hk. destruct (Hkeys k Hk) as [[]|[t [Ht <-]]].
  rewrite Forall_forall in Hvalid. specialize (Hvalid t Ht).
  unfold valid_datetime, in_range in Hvalid.
  apply in_map_iff. exists (Z.to_nat (dt_minute (timestamp t))).
  rewrite in_seq. lia.
Qed.

Section AnomalyCountFacts.
Context {RT : Runtime}.
Variable format_2f : Q -> string.

Lemma filter_is_type_none (ty ty' : string) (l : list Anomaly) :
  String.eqb ty' ty = false ->
  Forall (fun a => a_type a = ty') l -> filter (is_type ty) l = [].
Proof.
  intros Hne H. induction H as [|a l Ha _ IH]; cbn [filter]; [reflexivity|].
  unfold is_type at 1. now rewrite Ha, Hne.
Qed.

Lemma analyze_window_counts (k : Z) (g : list TrafficRecord) (w : world)
    (found : list Anomaly) (w' : world) :
  analyze_window format_2f (k, g) w = Returned (found, w') ->
  (length (filter (is_type "DDoS") found) <= 1)%nat /\
  (length (filter (is_type "Jamming") found) <= 1)%nat.
Proof.
  destruct g as [|t0 g0].
  { intros H. injection H as <- <-. cbn [filter length]. lia. }
  cbn [analyze_window]. generalize (t0 :: g0) as g. intros g.
  destruct (mitm_anomalies_types format_2f g) as [Hmt _].
  pose proof (filter_is_type_none "DDoS" "MITM" _ eq_refl Hmt) as Hd.
  pose proof (filter_is_type_none "Jamming" "MITM" _ eq_refl Hmt) as Hj.
  destruct (threshold_ddos detection_thresholds <? np_max (map packet_count g));
    [destruct (datetime_now w) as [now1 w1]|];
    (destruct (signal_strengths_of g) as [ss|key]; [|discriminate]);
    (destruct (np_mean ss) as [avg|];
     [destruct (Qltb avg (threshold_jamming detection_thresholds));
      [match goal with |- context [datetime_now ?x] =>
         destruct (datetime_now x) as [now2 w2] end|]|]);
    intros H; injection H as <- <-;
    cbn -[mitm_anomalies count_distinct str_of_int np_max len];
    rewrite ?Hd, ?Hj; cbn [length]; lia.
Qed.

Lemma analyze_windows_counts (windows : list (Z * list TrafficRecord)) (w : world)
    (found : list Anomaly) (w' : world) :
  analyze_windows format_2f windows w = Returned (found, w') ->
  (length (filter (is_type "DDoS") found) <= length windows)%nat /\
  (length (filter (is_type "Jamming") found) <= length windows)%nat.
Proof.
  revert w found. induction windows as [|[k g] windows IH]; intros w found Hrun;
    cbn [analyze_windows] in Hrun.
  - injection Hrun as <- <-. cbn. lia.
  - destruct (analyze_window format_2f (k, g) w) as [[here w1]|key] eqn:E; [|discriminate].
    destruct (analyze_windows format_2f windows w1) as [[more w2]|key] eqn:E';
      [|discriminate].
    injection Hrun as <- <-.
    destruct (analyze_window_counts k g w here w1 E) as [H1 H2].
    destruct (IH w1 more E') as [H3 H4].
    rewrite !filter_app, !length_app. cbn [length]. lia.
Qed.

End AnomalyCountFacts.

(** X26. The groups of [detect_anomalies] are keyed by the minute of the hour
    alone, so records of different hours or days share a group. With
    timestamps within their field ranges, a run therefore reports at most 60
    flood anomalies and at most 60 jamming anomalies, however large the
    traffic collection is. *)
Theorem detect_anomalies_at_most_sixty {RT : Runtime} (format_2f : Q -> string)
    (self : Simulator) (w : world) (found : list Anomaly) (w' : world) :
  Forall (fun t => valid_datetime (timestamp t) = true) (traffic_data self) ->
  detect_anomalies format_2f self w = Returned (found, w') ->
  (length (filter (is_type "DDoS") found) <= 60)%nat /\
  (length (filter (is_type "Jamming") found) <= 60)%nat.
Proof.
  intros Hvalid Hrun. unfold detect_anomalies in Hrun.
  destruct (analyze_windows_counts format_2f _ _ _ _ Hrun) as [H1 H2].
  pose proof (length_minute_windows _ Hvalid). lia.
Qed.

Lemma detect_anomalies_at_most_sixty_sample :
  exists found w',
    detect_anomalies (RT := TestRuntime) test_format_2f
                     (mk_sim [] [] sample_anomalous) world0 = Returned (found, w') /\
    (length (filter (is_type "DDoS") found) <= 60)%nat /\
    (length (filter (is_type "Jamming") found) <= 60)%nat.
Proof.
  eexists. eexists. split.
  - vm_compute. reflexivity.
  - eapply (detect_anomalies_at_most_sixty (RT := TestRuntime) test_format_2f
              (mk_sim [] [] sample_anomalous) world0).
    + repeat constructor.
    + vm_compute. reflexivity.
Defined.
